(** * The LiteLLM provider of thediymaker/sim

    A shallow embedding of
    - the [/models] proxy route ([GET], served under
      /api/providers/litellm/models),
    - the provider's [initialize] (model discovery) and
    - the provider's [executeRequest] (payload construction, the bounded
      tool-calling loop, timing and usage accounting, buffered and
      streaming results),
    followed by the properties the specification states about them.

    Conventions.
    - JS strings are [string]; a JS value used in boolean position is
      mapped through an explicit truthiness function.
    - Integer-valued JS numbers (token counts, millisecond timestamps)
      are [Z]; numbers that are genuinely floating point (costs, the
      sampling temperature) live in an abstract type [float] on which
      the code never computes.
    - Everything the provider obtains from its surroundings (environment
      variables, the clock, the HTTP upstream, the chat-completion
      endpoint, the tool invoker, helper functions imported from other
      modules) is a field of one record, [World].  A theorem quantified
      over [World] holds for every behaviour of those collaborators.
    - A thrown exception is a value of the result type, never a missing
      result.
    - A string is the UTF-8 text of the JS string.
    - Logging has no effect on any result and is left out. *)

From Stdlib Require Import String Ascii List ZArith Bool Arith Lia.
Import ListNotations.
Local Open Scope string_scope.
Local Open Scope Z_scope.

Set Implicit Arguments.

(* ===================================================================== *)
(** ** JavaScript string helpers *)
(* ===================================================================== *)

(** Truthiness of a JS string: every string but the empty one. *)
Definition truthy (s : string) : bool :=
  match s with EmptyString => false | String _ _ => true end.

(** Truthiness of an optional string ([undefined] is falsy). *)
Definition truthyOpt (o : option string) : bool :=
  match o with Some s => truthy s | None => false end.

(** [a || b] on optional strings: the first truthy operand, else the last. *)
Definition orStr (a : option string) (b : string) : string :=
  match a with
  | Some s => if truthy s then s else b
  | None => b
  end.

(** [s.replace(/\/$/, '')]: one trailing slash is removed. *)
Fixpoint stripTrailingSlash (s : string) : string :=
  match s with
  | EmptyString => EmptyString
  | String c EmptyString => if Ascii.eqb c "/" then EmptyString else s
  | String c rest => String c (stripTrailingSlash rest)
  end.

(** [s] without the prefix [p], when [s] starts with [p]. *)
Fixpoint dropPrefix (p s : string) : option string :=
  match p, s with
  | EmptyString, _ => Some s
  | String a p', String b s' => if Ascii.eqb a b then dropPrefix p' s' else None
  | String _ _, EmptyString => None
  end.

(** [s.replace(/^litellm\//, '')]. *)
Definition stripProviderPrefix (s : string) : string :=
  match dropPrefix "litellm/" s with
  | Some rest => rest
  | None => s
  end.

Definition newline : ascii := Ascii.ascii_of_nat 10.

(** [s.replace(/```json\n?|\n?```/g, '')].  The scan goes left to right;
    at each position the first alternative is tried before the second.
    [skip] counts the characters of the current match still to drop. *)
Fixpoint stripFencesFrom (skip : nat) (s : string) : string :=
  match s with
  | EmptyString => EmptyString
  | String c rest =>
      match skip with
      | S k => stripFencesFrom k rest
      | O =>
          match dropPrefix "```json" s with
          | Some after =>
              match after with
              | String d _ => if Ascii.eqb d newline then stripFencesFrom 7 rest
                              else stripFencesFrom 6 rest
              | EmptyString => stripFencesFrom 6 rest
              end
          | None =>
              match dropPrefix (String newline "```") s with
              | Some _ => stripFencesFrom 3 rest
              | None =>
                  match dropPrefix "```" s with
                  | Some _ => stripFencesFrom 2 rest
                  | None => String c (stripFencesFrom 0 rest)
                  end
              end
          end
      end
  end.

(** The string of the bytes [l]. *)
Definition bytesOf (l : list nat) : string :=
  fold_right (fun n s => String (Ascii.ascii_of_nat n) s) EmptyString l.

(** What [String.prototype.trim] removes: the white space and the line
    terminators of ECMAScript.  A string of the model is the UTF-8 text
    of the JS string, so each of them is the byte sequence of its
    encoding: TAB, LF, VT, FF, CR, SPACE; U+00A0; U+1680; U+2000 to
    U+200A; U+2028; U+2029; U+202F; U+205F; U+3000; U+FEFF. *)
Definition whiteSpace : list string :=
  map bytesOf
      [[9]; [10]; [11]; [12]; [13]; [32];
       [194; 160];
       [225; 154; 128];
       [226; 128; 128]; [226; 128; 129]; [226; 128; 130]; [226; 128; 131];
       [226; 128; 132]; [226; 128; 133]; [226; 128; 134]; [226; 128; 135];
       [226; 128; 136]; [226; 128; 137]; [226; 128; 138];
       [226; 128; 168]; [226; 128; 169];
       [226; 128; 175];
       [226; 129; 159];
       [227; 128; 128];
       [239; 187; 191]]%nat.

(** [s] without the first of the strings [ws] it starts with. *)
Fixpoint dropOneOf (ws : list string) (s : string) : option string :=
  match ws with
  | [] => None
  | w :: rest =>
      match dropPrefix w s with
      | Some after => Some after
      | None => dropOneOf rest s
      end
  end.

(** [s] without the strings of [ws] it starts with; [fuel] bounds their
    number. *)
Fixpoint dropAllOf (ws : list string) (fuel : nat) (s : string) : string :=
  match fuel with
  | O => s
  | S n =>
      match dropOneOf ws s with
      | Some after => dropAllOf ws n after
      | None => s
      end
  end.

Definition reverse (s : string) : string :=
  string_of_list_ascii (rev (list_ascii_of_string s)).

Definition trimStart (s : string) : string :=
  dropAllOf whiteSpace (String.length s) s.

Definition trimEnd (s : string) : string :=
  reverse (dropAllOf (map reverse whiteSpace) (String.length s) (reverse s)).

Definition trim (s : string) : string := trimEnd (trimStart s).

(** [content.replace(/```json\n?|\n?```/g, '').trim()]. *)
Definition cleanJsonFences (s : string) : string := trim (stripFencesFrom 0 s).

(** Decimal rendering of a counter inside a template literal. *)
Fixpoint digitsOf (fuel n : nat) (acc : string) : string :=
  match fuel with
  | O => acc
  | S f =>
      let d := String (Ascii.ascii_of_nat (48 + n mod 10)) acc in
      match (n / 10)%nat with
      | O => d
      | q => digitsOf f q d
      end
  end.

Definition natToString (n : nat) : string := digitsOf (S n) n "".

(* ===================================================================== *)
(** ** Data model *)
(* ===================================================================== *)

(** A JS value of type [any] (tool arguments, tool outputs, schemas). *)
#[local] Unset Elimination Schemes.
Inductive Json : Type :=
| JNull
| JBool (b : bool)
| JNum (z : Z)
| JStr (s : string)
| JArr (items : list Json)
| JObj (fields : list (string * Json)).
#[local] Set Elimination Schemes.

Definition truthyJson (j : Json) : bool :=
  match j with
  | JNull => false
  | JBool b => b
  | JNum z => negb (z =? 0)
  | JStr s => truthy s
  | JArr _ | JObj _ => true
  end.

(** A value caught by [catch (error)]. *)
Record ErrorBody := {
  eb_message : option string;
  eb_type : option string;
  eb_code : option Z
}.

Record JsThrown := {
  thrown_message : option string;   (* [Some m] iff [error instanceof Error] *)
  thrown_string : string;           (* [String(error)] *)
  thrown_error : option ErrorBody   (* the object under [error.error], if any *)
}.

(** An [Error] with the given message and nothing else attached. *)
Definition plainError (m : string) : JsThrown :=
  {| thrown_message := Some m; thrown_string := "Error: " ++ m; thrown_error := None |}.

(** One entry of [request.tools]. *)
Record ProviderTool := {
  tool_id : string;
  tool_description : string;
  tool_parameters : Json;
  tool_usageControl : option string
}.

(** [{type: 'function', function: {name, description, parameters}}]. *)
Record FunctionTool := {
  ft_name : string;
  ft_description : string;
  ft_parameters : Json
}.

(** [payload.tool_choice]: a string such as ['auto'], or an object
    [{type, function?: {name}, name?}]. *)
Inductive ToolChoice : Type :=
| ChoiceString (s : string)
| ChoiceObject (type : string) (function_name : option string) (name : option string).

Definition forceFunction (n : string) : ToolChoice :=
  ChoiceObject "function" (Some n) None.

Definition autoChoice : ToolChoice := ChoiceString "auto".

Definition truthyChoice (c : ToolChoice) : bool :=
  match c with ChoiceString s => truthy s | ChoiceObject _ _ _ => true end.

(** [typeof c === 'object'] on an optional tool choice. *)
Definition isObjectChoice (c : option ToolChoice) : bool :=
  match c with Some (ChoiceObject _ _ _) => true | _ => false end.

(** A tool call emitted by the model. *)
Record ToolCall := {
  tc_id : string;
  tc_name : string;         (* [function.name] *)
  tc_arguments : string     (* [function.arguments], JSON text *)
}.

Inductive Message : Type :=
| Msg (role content : string)
| AssistantToolCalls (tool_calls : list ToolCall)        (* content: null *)
| ToolMessage (tool_call_id : string) (content : option string).

Record ResponseFormat := {
  rf_name : option string;
  rf_schema : option Json;
  rf_strict : option bool
}.

(** [payload.response_format.json_schema]; the schema is the format's
    [schema] when truthy, else the format object itself. *)
Inductive SchemaSource : Type :=
| SchemaGiven (j : Json)
| SchemaWhole (rf : ResponseFormat).

Record JsonSchemaBlock := {
  js_name : string;
  js_schema : SchemaSource;
  js_strict : bool
}.

Record Usage := {
  prompt_tokens : option Z;
  completion_tokens : option Z;
  total_tokens : option Z
}.

Record ChoiceMessage := {
  cm_content : option string;
  cm_tool_calls : option (list ToolCall)
}.

(** A chat completion: [choices[i].message] and [usage]. *)
Record Completion := {
  choices : list ChoiceMessage;
  usage : option Usage
}.

Record Tokens := {
  tok_input : Z;
  tok_output : Z;
  tok_total : Z
}.

Inductive SegmentType : Type := SegModel | SegTool.

Record TimeSegment := {
  seg_type : SegmentType;
  seg_name : string;
  seg_startTime : Z;
  seg_endTime : Z;
  seg_duration : Z
}.

(** The result object produced by the tool invoker. *)
Record ToolResult := {
  tr_success : bool;
  tr_output : option Json;
  tr_error : option string
}.

(** An entry of the [toolCalls] list of the result. *)
Record ToolCallRecord := {
  rec_name : string;
  rec_arguments : Json;
  rec_startTime : string;
  rec_endTime : string;
  rec_duration : Z;
  rec_result : option Json;
  rec_success : bool
}.

(** The state of a promise after [Promise.allSettled]. *)
Inductive Settled (A : Type) : Type :=
| fulfilled (value : A)
| rejected (reason : JsThrown).

Arguments rejected {A} reason.

(* ===================================================================== *)
(** ** Requests, payloads and the provider's surroundings *)
(* ===================================================================== *)

Section Provider.

(** JS numbers that are not integers: costs and the sampling temperature. *)
Context {float : Type}.

Record ProviderRequest := {
  model : string;
  systemPrompt : option string;
  context : option string;
  messages : option (list Message);
  tools : option (list ProviderTool);
  temperature : option float;
  maxTokens : option Z;
  responseFormat : option ResponseFormat;
  stream : bool;
  apiKey : option string;
  azureEndpoint : option string
}.

(** The body of a chat-completion call. *)
Record Payload := {
  p_model : string;
  p_messages : list Message;
  p_temperature : option float;
  p_max_tokens : option Z;
  p_response_format : option JsonSchemaBlock;
  p_tools : option (list FunctionTool);
  p_tool_choice : option ToolChoice;
  p_stream : bool;                 (* [stream: true] *)
  p_include_usage : bool           (* [stream_options: {include_usage: true}] *)
}.

(** [new OpenAI({apiKey, baseURL})]. *)
Record ClientConfig := {
  client_apiKey : string;
  client_baseURL : string
}.

(** What [prepareToolsWithUsageControl] returns. *)
Record PreparedTools := {
  prep_tools : option (list FunctionTool);
  prep_toolChoice : option ToolChoice;
  prep_forcedTools : option (list string)
}.

Record CostResult := {
  cost_input : float;
  cost_output : float;
  cost_total : float
}.

(** How a call of the tool invoker ends.  The invoker is asynchronous: it
    hands back a promise, which resolves with a result or rejects. *)
Inductive ToolRun : Type :=
| Resolves (r : ToolResult)
| Rejects (e : JsThrown).

(** How [fetch(url, {headers})] ends; [resp_models] is the list of
    [data.data[i].id] of the JSON body, [None] when reading the body as
    such a list throws. *)
Inductive FetchOutcome : Type :=
| FetchThrows (e : JsThrown)
| FetchResponse (ok : bool) (status : Z) (statusText : string)
                (resp_models : option (list string)).

(** Everything outside the three functions under study. *)
Record World := {
  (* process environment *)
  env_LITELLM_BASE_URL : option string;
  env_LITELLM_API_KEY : option string;
  onClient : bool;                                   (* [typeof window !== 'undefined'] *)
  (* language built-ins *)
  Date_now : nat -> Z;                               (* the n-th reading of the clock *)
  toISOString : Z -> string;
  JSON_parse : string -> Json + string;              (* a value, or a SyntaxError message *)
  JSON_stringify : Json -> string;
  float_of_Z : Z -> float;                           (* an integer literal as a number *)
  (* imported from '@/providers' and '@/providers/utils' *)
  MAX_TOOL_ITERATIONS : nat;
  isProviderBlacklisted : string -> bool;
  isModelBlacklisted : string -> bool;
  prepareToolsWithUsageControl :
    list FunctionTool -> list ProviderTool -> PreparedTools;
  prepareToolExecution :
    ProviderTool -> Json -> ProviderRequest -> (Json * Json) + JsThrown;
  calculateCost : string -> Z -> Z -> CostResult;
  (* the network *)
  fetch : string -> list (string * string) -> FetchOutcome;
  chat_create : ClientConfig -> nat -> Payload -> Completion + JsThrown;
  chat_stream : ClientConfig -> nat -> Payload -> nat + JsThrown;
  (* the tool invoker and the scheduler *)
  executeTool : nat -> nat -> string -> Json -> bool -> ToolRun;
  settleRank : nat -> nat -> nat
}.

Variable W : World.

(** Modelled from the spec: [filterBlacklistedModels] of
    '@/providers/utils' is not part of the sources; the specification
    calls it a blacklist filter over model ids. *)
Definition filterBlacklistedModels (ids : list string) : list string :=
  filter (fun m => negb (isModelBlacklisted W m)) ids.

(* ===================================================================== *)
(** ** The [/models] route *)
(* ===================================================================== *)

Record NextResponse := {
  resp_status : Z;
  resp_models_body : list string       (* the [models] field of the body *)
}.

(** [NextResponse.json(body)]: the body with the default status. *)
Definition NextResponse_json (models : list string) : NextResponse :=
  {| resp_status := 200; resp_models_body := models |}.

Definition envBaseUrl : string :=
  stripTrailingSlash (orStr (env_LITELLM_BASE_URL W) "").

Definition discoveryHeaders : list (string * string) :=
  ("Content-Type", "application/json") ::
  (if truthyOpt (env_LITELLM_API_KEY W)
   then [("Authorization", "Bearer " ++ orStr (env_LITELLM_API_KEY W) "")]
   else []).

Definition prefixModel (id : string) : string := "litellm/" ++ id.

Definition GET : NextResponse :=
  if isProviderBlacklisted W "litellm" then NextResponse_json []
  else
    let baseUrl := envBaseUrl in
    if negb (truthy baseUrl) then NextResponse_json []
    else
      match fetch W (baseUrl ++ "/v1/models") discoveryHeaders with
      | FetchThrows _ => NextResponse_json []
      | FetchResponse ok _ _ body =>
          if negb ok then NextResponse_json []
          else
            match body with
            | None => NextResponse_json []          (* thrown inside [try] *)
            | Some ids =>
                let allModels := map prefixModel ids in
                let models := filterBlacklistedModels allModels in
                NextResponse_json models
            end
      end.

(* ===================================================================== *)
(** ** Model discovery: [initialize] *)
(* ===================================================================== *)

(** The two places [initialize] writes to. *)
Record Registry := {
  this_models : list string;           (* [litellmProvider.models] *)
  store_models : list string           (* the providers store, entry 'litellm' *)
}.

(** [initialize] either returns normally with the registry it leaves
    behind, or throws. *)
Definition initialize (reg : Registry) : Registry + JsThrown :=
  if onClient W then inl reg
  else
    let baseUrl := envBaseUrl in
    if negb (truthy baseUrl) then inl reg
    else
      match fetch W (baseUrl ++ "/v1/models") discoveryHeaders with
      | FetchThrows _ => inl reg
      | FetchResponse ok _ _ body =>
          if negb ok
          then inl {| this_models := this_models reg; store_models := [] |}
          else
            match body with
            | None => inl reg
            | Some ids =>
                let models := map prefixModel ids in
                inl {| this_models := models; store_models := models |}
            end
      end.

(* ===================================================================== *)
(** ** [executeRequest]: effects *)
(* ===================================================================== *)

(** The part of the outside world [executeRequest] moves forward: how
    many times the clock has been read, and the chat-completion calls
    issued so far, oldest first. *)
Record Sys := {
  ticks : nat;
  sent : list Payload
}.

Definition startSys : Sys := {| ticks := 0; sent := [] |}.

(** [Date.now()] (also [new Date()]): the next reading of the clock. *)
Definition now (s : Sys) : Z * Sys :=
  (Date_now W (ticks s), {| ticks := S (ticks s); sent := sent s |}).

(** [await litellm.chat.completions.create(payload)], non-streaming. *)
Definition create (litellm : ClientConfig) (p : Payload) (s : Sys)
  : (Completion + JsThrown) * Sys :=
  (chat_create W litellm (length (sent s)) p,
   {| ticks := ticks s; sent := sent s ++ [p] |}).

(** The same call with [stream: true]; the answer is a stream handle. *)
Definition createStream (litellm : ClientConfig) (p : Payload) (s : Sys)
  : (nat + JsThrown) * Sys :=
  (chat_stream W litellm (length (sent s)) p,
   {| ticks := ticks s; sent := sent s ++ [p] |}).

(* ===================================================================== *)
(** ** [executeRequest]: payload construction *)
(* ===================================================================== *)

Definition requestBaseUrl (request : ProviderRequest) : string :=
  stripTrailingSlash
    (match azureEndpoint request with
     | Some e => if truthy e then e else orStr (env_LITELLM_BASE_URL W) ""
     | None => orStr (env_LITELLM_BASE_URL W) ""
     end).

Definition requestClient (request : ProviderRequest) : ClientConfig :=
  {| client_apiKey :=
       match apiKey request with
       | Some k => if truthy k then k else orStr (env_LITELLM_API_KEY W) "empty"
       | None => orStr (env_LITELLM_API_KEY W) "empty"
       end;
     client_baseURL := requestBaseUrl request ++ "/v1" |}.

Definition allMessages (request : ProviderRequest) : list Message :=
  (match systemPrompt request with
   | Some p => if truthy p then [Msg "system" p] else []
   | None => []
   end) ++
  (match context request with
   | Some c => if truthy c then [Msg "user" c] else []
   | None => []
   end) ++
  (match messages request with
   | Some ms => ms
   | None => []
   end).

Definition functionTool (tool : ProviderTool) : FunctionTool :=
  {| ft_name := tool_id tool;
     ft_description := tool_description tool;
     ft_parameters := tool_parameters tool |}.

(** [const tools = request.tools?.length ? request.tools.map(...) : undefined]. *)
Definition requestTools (request : ProviderRequest) : option (list FunctionTool) :=
  match tools request with
  | Some (t :: ts) => Some (map functionTool (t :: ts))
  | _ => None
  end.

Definition responseFormatBlock (rf : ResponseFormat) : JsonSchemaBlock :=
  {| js_name := orStr (rf_name rf) "response_schema";
     js_schema :=
       match rf_schema rf with
       | Some j => if truthyJson j then SchemaGiven j else SchemaWhole rf
       | None => SchemaWhole rf
       end;
     js_strict :=
       match rf_strict rf with
       | Some false => false
       | _ => true
       end |}.

(** [preparedTools], or [None] while it is still [null]. *)
Definition requestPreparedTools (request : ProviderRequest) : option PreparedTools :=
  match requestTools request with
  | Some fts =>
      Some (prepareToolsWithUsageControl W fts
              (match tools request with Some ts => ts | None => [] end))
  | None => None
  end.

(** The [filteredTools] and [toolChoice] that are attached to the
    payload: both must be present ([filteredTools?.length && toolChoice]). *)
Definition activeTools (request : ProviderRequest)
  : option (list FunctionTool * ToolChoice) :=
  match requestPreparedTools request with
  | Some prep =>
      match prep_tools prep, prep_toolChoice prep with
      | Some (f :: fs), Some choice =>
          if truthyChoice choice then Some (f :: fs, choice) else None
      | _, _ => None
      end
  | None => None
  end.

Definition hasActiveTools (request : ProviderRequest) : bool :=
  match activeTools request with Some _ => true | None => false end.

Definition buildPayload (request : ProviderRequest) : Payload :=
  {| p_model := stripProviderPrefix (model request);
     p_messages := allMessages request;
     p_temperature := temperature request;
     p_max_tokens := maxTokens request;
     p_response_format := option_map responseFormatBlock (responseFormat request);
     p_tools := option_map fst (activeTools request);
     p_tool_choice := option_map snd (activeTools request);
     p_stream := false;
     p_include_usage := false |}.

(** [{...payload, stream: true, stream_options: {include_usage: true}}]. *)
Definition streamingParams (p : Payload) : Payload :=
  {| p_model := p_model p;
     p_messages := p_messages p;
     p_temperature := p_temperature p;
     p_max_tokens := p_max_tokens p;
     p_response_format := p_response_format p;
     p_tools := p_tools p;
     p_tool_choice := p_tool_choice p;
     p_stream := true;
     p_include_usage := true |}.

(** [{...payload, messages, tool_choice}]. *)
Definition withMessagesAndChoice (p : Payload) (ms : list Message)
  (choice : option ToolChoice) : Payload :=
  {| p_model := p_model p;
     p_messages := ms;
     p_temperature := p_temperature p;
     p_max_tokens := p_max_tokens p;
     p_response_format := p_response_format p;
     p_tools := p_tools p;
     p_tool_choice := choice;
     p_stream := p_stream p;
     p_include_usage := p_include_usage p |}.

Definition forcedToolsOf (request : ProviderRequest) : list string :=
  match requestPreparedTools request with
  | Some prep =>
      match prep_forcedTools prep with
      | Some l => l
      | None => []
      end
  | None => []
  end.

(* ===================================================================== *)
(** ** [executeRequest]: forced-tool tracking *)
(* ===================================================================== *)

(** The pair of mutable variables [usedForcedTools], [hasUsedForcedTool]. *)
Record ForcedState := {
  fs_usedForcedTools : list string;
  fs_hasUsedForcedTool : bool
}.

(** The tool a forced directive names. *)
Definition directiveTool (c : ToolChoice) : option string :=
  match c with
  | ChoiceObject _ (Some n) _ => Some n
  | ChoiceObject _ None (Some n) => Some n
  | _ => None
  end.

(** [list.includes(x)] on strings. *)
Definition includes (l : list string) (x : string) : bool :=
  existsb (String.eqb x) l.

(** Modelled from the spec: [trackForcedToolUsage] of '@/providers/utils'
    is not part of the sources.  Section 4.2 of the specification: a pure
    function of the tool calls the model produced, the current tool-choice
    directive, the full forced-tool list and the previously used forced
    tools, giving the updated previously-used set and the flag "a forced
    tool was used this round". *)
Definition trackForcedToolUsage (toolCallsResponse : list ToolCall)
  (toolChoice : ToolChoice) (forcedTools usedForcedTools : list string)
  : ForcedState :=
  match directiveTool toolChoice with
  | Some n =>
      if includes (map tc_name toolCallsResponse) n
      then {| fs_usedForcedTools := usedForcedTools ++ [n];
              fs_hasUsedForcedTool := true |}
      else {| fs_usedForcedTools := usedForcedTools;
              fs_hasUsedForcedTool := false |}
  | None => {| fs_usedForcedTools := usedForcedTools;
               fs_hasUsedForcedTool := false |}
  end.

(** [response.choices[0]?.message?.tool_calls]. *)
Definition responseToolCalls (response : Completion) : option (list ToolCall) :=
  match choices response with
  | m :: _ => cm_tool_calls m
  | [] => None
  end.

(** [response.choices[0]?.message?.content]. *)
Definition responseContent (response : Completion) : option string :=
  match choices response with
  | m :: _ => cm_content m
  | [] => None
  end.

(** The closure [checkForForcedToolUsage]: the tracker runs only for an
    object directive and a response that carries a [tool_calls] array
    (an empty array counts). *)
Definition checkForForcedToolUsage (forcedTools : list string)
  (fs : ForcedState) (response : Completion) (toolChoice : option ToolChoice)
  : ForcedState :=
  match toolChoice, responseToolCalls response with
  | Some (ChoiceObject ty fn nm), Some toolCallsResponse =>
      trackForcedToolUsage toolCallsResponse (ChoiceObject ty fn nm)
        forcedTools (fs_usedForcedTools fs)
  | _, _ => fs
  end.

(* ===================================================================== *)
(** ** [executeRequest]: one batch of tool calls *)
(* ===================================================================== *)

(** What the async callback of [toolCallsInResponse.map] returns when it
    does not return [null]. *)
Record ToolExecution := {
  te_toolCall : ToolCall;
  te_toolName : string;
  te_toolParams : Json;
  te_result : ToolResult;
  te_startTime : Z;
  te_endTime : Z;
  te_duration : Z
}.

(** The value built in [catch (error)]; [msg] is [error.message] when
    the caught value is an [Error]. *)
Definition failedExecution (toolCall : ToolCall) (msg : option string)
  (toolCallStartTime toolCallEndTime : Z) : ToolExecution :=
  {| te_toolCall := toolCall;
     te_toolName := tc_name toolCall;
     te_toolParams := JObj [];
     te_result :=
       {| tr_success := false;
          tr_output := None;
          tr_error := Some (match msg with
                            | Some m => m
                            | None => "Tool execution failed"
                            end) |};
     te_startTime := toolCallStartTime;
     te_endTime := toolCallEndTime;
     te_duration := toolCallEndTime - toolCallStartTime |}.

(** A callback after its synchronous prefix: it has already returned
    ([null], or the [catch] value), or it is suspended at
    [await executeTool(...)]. *)
Inductive Started : Type :=
| Finished (v : option ToolExecution)
| Awaiting (toolCall : ToolCall) (toolParams executionParams : Json)
           (toolCallStartTime : Z).

Definition findTool (request : ProviderRequest) (toolName : string)
  : option ProviderTool :=
  match tools request with
  | Some ts => find (fun t => String.eqb (tool_id t) toolName) ts
  | None => None
  end.

(** The synchronous prefix of the callback for one tool call. *)
Definition startToolCall (request : ProviderRequest) (toolCall : ToolCall)
  (s : Sys) : Started * Sys :=
  let (toolCallStartTime, s1) := now s in
  let toolName := tc_name toolCall in
  match JSON_parse W (tc_arguments toolCall) with
  | inr syntaxError =>
      let (toolCallEndTime, s2) := now s1 in
      (Finished (Some (failedExecution toolCall (Some syntaxError)
                         toolCallStartTime toolCallEndTime)), s2)
  | inl toolArgs =>
      match findTool request toolName with
      | None => (Finished None, s1)
      | Some tool =>
          match prepareToolExecution W tool toolArgs request with
          | inr e =>
              let (toolCallEndTime, s2) := now s1 in
              (Finished (Some (failedExecution toolCall (thrown_message e)
                                 toolCallStartTime toolCallEndTime)), s2)
          | inl (toolParams, executionParams) =>
              (Awaiting toolCall toolParams executionParams toolCallStartTime, s1)
          end
      end
  end.

(** [toolCallsInResponse.map(async ...)]: the callbacks start one after
    the other, in the order of the array. *)
Fixpoint startToolCalls (request : ProviderRequest) (toolCalls : list ToolCall)
  (s : Sys) : list Started * Sys :=
  match toolCalls with
  | [] => ([], s)
  | toolCall :: rest =>
      let (d, s1) := startToolCall request toolCall s in
      let (ds, s2) := startToolCalls request rest s1 in
      (d :: ds, s2)
  end.

(** Positions (from [i] on) of the callbacks that are suspended. *)
Fixpoint awaitingFrom (i : nat) (ds : list Started) : list nat :=
  match ds with
  | [] => []
  | Finished _ :: rest => awaitingFrom (S i) rest
  | Awaiting _ _ _ _ :: rest => i :: awaitingFrom (S i) rest
  end.

(** In batch [b], the invocation at position [j] completes before the one
    at position [i]: the scheduler's rank decides, the position breaks ties. *)
Definition settlesBefore (b j i : nat) : bool :=
  (settleRank W b j <? settleRank W b i)%nat
  || ((settleRank W b j =? settleRank W b i)%nat && (j <? i)%nat).

(** How many suspended callbacks resume before the one at position [i]. *)
Definition settlePosition (b : nat) (awaiting : list nat) (i : nat) : nat :=
  length (filter (fun j => settlesBefore b j i) awaiting).

(** The rest of the callback once [executeTool] has completed.  The
    clock readings taken by resuming callbacks follow the order in which
    they complete, starting at reading [t0]. *)
Definition finishToolCall (b : nat) (awaiting : list nat) (t0 : nat)
  (i : nat) (d : Started) : option ToolExecution :=
  match d with
  | Finished v => v
  | Awaiting toolCall toolParams executionParams toolCallStartTime =>
      let toolCallEndTime := Date_now W (t0 + settlePosition b awaiting i) in
      match executeTool W b i (tc_name toolCall) executionParams true with
      | Resolves result =>
          Some {| te_toolCall := toolCall;
                  te_toolName := tc_name toolCall;
                  te_toolParams := toolParams;
                  te_result := result;
                  te_startTime := toolCallStartTime;
                  te_endTime := toolCallEndTime;
                  te_duration := toolCallEndTime - toolCallStartTime |}
      | Rejects e =>
          Some (failedExecution toolCall (thrown_message e)
                  toolCallStartTime toolCallEndTime)
      end
  end.

Fixpoint finishFrom (b : nat) (awaiting : list nat) (t0 : nat) (i : nat)
  (ds : list Started) : list (option ToolExecution) :=
  match ds with
  | [] => []
  | d :: rest => finishToolCall b awaiting t0 i d :: finishFrom b awaiting t0 (S i) rest
  end.

(** [await Promise.allSettled(toolCallsInResponse.map(async ...))] for
    batch [b]: element [i] of the result is the outcome of the callback
    for element [i] of [toolCallsInResponse], whenever it completed.  The
    callback catches whatever is thrown, so every promise is fulfilled. *)
Definition executeToolCalls (request : ProviderRequest) (b : nat)
  (toolCalls : list ToolCall) (s : Sys)
  : list (Settled (option ToolExecution)) * Sys :=
  let (ds, s1) := startToolCalls request toolCalls s in
  let awaiting := awaitingFrom 0 ds in
  (map (@fulfilled _) (finishFrom b awaiting (ticks s1) 0 ds),
   {| ticks := ticks s1 + length awaiting; sent := sent s1 |}).

(* ===================================================================== *)
(** ** [executeRequest]: the tool loop *)
(* ===================================================================== *)

(** What stays fixed while the loop runs. *)
Record Frame := {
  request : ProviderRequest;
  litellm : ClientConfig;
  payload : Payload;
  originalToolChoice : option ToolChoice;
  forcedTools : list string
}.

(** The variables the loop assigns to. *)
Record LoopState := {
  currentResponse : Completion;
  content : string;
  tokens : Tokens;
  toolCalls : list ToolCallRecord;
  toolResults : list (option Json);
  currentMessages : list Message;
  iterationCount : nat;
  modelTime : Z;
  toolsTime : Z;
  timeSegments : list TimeSegment;
  forced : ForcedState
}.

Definition orZero (o : option Z) : Z :=
  match o with Some z => z | None => 0 end.

(** [content = response content], cleaned when a response format was
    requested; unchanged when the response has no (or empty) content. *)
Definition updatedContent (fr : Frame) (response : Completion) (old : string)
  : string :=
  match responseContent response with
  | Some c =>
      if truthy c
      then match responseFormat (request fr) with
           | Some _ => cleanJsonFences c
           | None => c
           end
      else old
  | None => old
  end.

Definition toolSegment (v : ToolExecution) : TimeSegment :=
  {| seg_type := SegTool;
     seg_name := te_toolName v;
     seg_startTime := te_startTime v;
     seg_endTime := te_endTime v;
     seg_duration := te_duration v |}.

Definition resultContent (v : ToolExecution) : option Json :=
  if tr_success (te_result v)
  then tr_output (te_result v)
  else Some (JObj [("error", JBool true);
                   ("message", JStr (orStr (tr_error (te_result v))
                                       "Tool execution failed"));
                   ("tool", JStr (te_toolName v))]).

Definition toolCallRecord (v : ToolExecution) : ToolCallRecord :=
  {| rec_name := te_toolName v;
     rec_arguments := te_toolParams v;
     rec_startTime := toISOString W (te_startTime v);
     rec_endTime := toISOString W (te_endTime v);
     rec_duration := te_duration v;
     rec_result := resultContent v;
     rec_success := tr_success (te_result v) |}.

Definition toolMessage (v : ToolExecution) : Message :=
  ToolMessage (tc_id (te_toolCall v))
              (option_map (JSON_stringify W) (resultContent v)).

(** The body of [for (const settledResult of executionResults)]. *)
Definition pushSettled (st : LoopState)
  (settledResult : Settled (option ToolExecution)) : LoopState :=
  match settledResult with
  | rejected _ => st
  | fulfilled None => st
  | fulfilled (Some v) =>
      {| currentResponse := currentResponse st;
         content := content st;
         tokens := tokens st;
         toolCalls := toolCalls st ++ [toolCallRecord v];
         toolResults := if tr_success (te_result v)
                        then toolResults st ++ [tr_output (te_result v)]
                        else toolResults st;
         currentMessages := currentMessages st ++ [toolMessage v];
         iterationCount := iterationCount st;
         modelTime := modelTime st;
         toolsTime := toolsTime st;
         timeSegments := timeSegments st ++ [toolSegment v];
         forced := forced st |}
  end.

(** [currentMessages.push({role: 'assistant', content: null, tool_calls})]. *)
Definition pushAssistant (st : LoopState) (tcs : list ToolCall) : LoopState :=
  {| currentResponse := currentResponse st;
     content := content st;
     tokens := tokens st;
     toolCalls := toolCalls st;
     toolResults := toolResults st;
     currentMessages := currentMessages st ++ [AssistantToolCalls tcs];
     iterationCount := iterationCount st;
     modelTime := modelTime st;
     toolsTime := toolsTime st;
     timeSegments := timeSegments st;
     forced := forced st |}.

(** The tool choice of [nextPayload]. *)
Definition nextToolChoice (fr : Frame) (fs : ForcedState) : option ToolChoice :=
  if isObjectChoice (originalToolChoice fr)
     && fs_hasUsedForcedTool fs
     && (0 <? length (forcedTools fr))%nat
  then
    let remainingTools :=
      filter (fun tool => negb (includes (fs_usedForcedTools fs) tool))
             (forcedTools fr) in
    match remainingTools with
    | next :: _ => Some (forceFunction next)
    | [] => Some autoChoice
    end
  else p_tool_choice (payload fr).

(** [tokens.x += currentResponse.usage.y || 0], under [if (currentResponse.usage)]. *)
Definition addUsage (t : Tokens) (u : option Usage) : Tokens :=
  match u with
  | Some u =>
      {| tok_input := tok_input t + orZero (prompt_tokens u);
         tok_output := tok_output t + orZero (completion_tokens u);
         tok_total := tok_total t + orZero (total_tokens u) |}
  | None => t
  end.

Definition modelSegment (name : string) (startTime endTime : Z) : TimeSegment :=
  {| seg_type := SegModel;
     seg_name := name;
     seg_startTime := startTime;
     seg_endTime := endTime;
     seg_duration := endTime - startTime |}.

(** Why control leaves the [while] statement. *)
Inductive ExitReason : Type :=
| CapReached          (* [iterationCount < MAX_TOOL_ITERATIONS] is false *)
| NoToolCalls.        (* [break] *)

(** The outcome of one evaluation of the loop condition and body. *)
Inductive Pass : Type :=
| Exit (why : ExitReason) (st : LoopState) (s : Sys)
| Again (st : LoopState) (s : Sys)
| Raised (e : JsThrown) (s : Sys).

Definition loopPass (fr : Frame) (st : LoopState) (s : Sys) : Pass :=
  if (iterationCount st <? MAX_TOOL_ITERATIONS W)%nat then
    let content1 := updatedContent fr (currentResponse st) (content st) in
    let st1 :=
      {| currentResponse := currentResponse st;
         content := content1;
         tokens := tokens st;
         toolCalls := toolCalls st;
         toolResults := toolResults st;
         currentMessages := currentMessages st;
         iterationCount := iterationCount st;
         modelTime := modelTime st;
         toolsTime := toolsTime st;
         timeSegments := timeSegments st;
         forced := forced st |} in
    match responseToolCalls (currentResponse st) with
    | None => Exit NoToolCalls st1 s
    | Some [] => Exit NoToolCalls st1 s
    | Some (tc :: tcs) =>
        let toolCallsInResponse := tc :: tcs in
        let (toolsStartTime, s1) := now s in
        let (executionResults, s2) :=
          executeToolCalls (request fr) (iterationCount st) toolCallsInResponse s1 in
        let st2 := pushAssistant st1 toolCallsInResponse in
        let st3 := fold_left pushSettled executionResults st2 in
        let (toolsEndTime, s3) := now s2 in
        let thisToolsTime := toolsEndTime - toolsStartTime in
        let nextPayload :=
          withMessagesAndChoice (payload fr) (currentMessages st3)
                                (nextToolChoice fr (forced st3)) in
        let (nextModelStartTime, s4) := now s3 in
        match create (litellm fr) nextPayload s4 with
        | (inr e, s5) => Raised e s5
        | (inl response, s5) =>
            let forced' :=
              checkForForcedToolUsage (forcedTools fr) (forced st3) response
                                      (p_tool_choice nextPayload) in
            let (nextModelEndTime, s6) := now s5 in
            let thisModelTime := nextModelEndTime - nextModelStartTime in
            Again
              {| currentResponse := response;
                 content := updatedContent fr response (content st3);
                 tokens := addUsage (tokens st3) (usage response);
                 toolCalls := toolCalls st3;
                 toolResults := toolResults st3;
                 currentMessages := currentMessages st3;
                 iterationCount := S (iterationCount st3);
                 modelTime := modelTime st3 + thisModelTime;
                 toolsTime := toolsTime st3 + thisToolsTime;
                 timeSegments :=
                   timeSegments st3 ++
                   [modelSegment
                      ("Model response (iteration "
                       ++ natToString (S (iterationCount st3)) ++ ")")
                      nextModelStartTime nextModelEndTime];
                 forced := forced' |}
              s6
        end
    end
  else Exit CapReached st s.

(** The [while] statement, unrolled at most [fuel] times; [None] when
    [fuel] evaluations of the condition were not enough to leave it. *)
Fixpoint toolLoop (fuel : nat) (fr : Frame) (st : LoopState) (s : Sys)
  : option Pass :=
  match fuel with
  | O => None
  | S fuel' =>
      match loopPass fr st s with
      | Again st' s' => toolLoop fuel' fr st' s'
      | finished => Some finished
      end
  end.

(* ===================================================================== *)
(** ** [executeRequest]: results *)
(* ===================================================================== *)

(** [timing] of a buffered result and [providerTiming] of a streaming
    one; the fast streaming path leaves the last four summary fields out. *)
Record Timing := {
  tm_startTime : string;
  tm_endTime : string;
  tm_duration : Z;
  tm_modelTime : option Z;
  tm_toolsTime : option Z;
  tm_firstResponseTime : option Z;
  tm_iterations : option nat;
  tm_timeSegments : list TimeSegment
}.

(** Modelled from the spec: the type [ProviderResponse] of
    '@/providers/types' is not part of the sources; its fields follow the
    ExecutionResult of section 3 of the specification (content, token
    counts, cost breakdown, tool call records, raw tool outputs, timing
    summary).  A field is [None] when the returned object does not have it. *)
Record ProviderResponse := {
  res_content : string;
  res_model : string;
  res_tokens : Tokens;
  res_toolCalls : option (list ToolCallRecord);
  res_toolResults : option (list (option Json));
  res_timing : option Timing;
  res_cost : option CostResult
}.

(** [execution.output] of a streaming result, as it is when
    [executeRequest] returns (the stream's completion callback rewrites
    it once the caller has drained the stream). *)
Record StreamingOutput := {
  so_content : string;
  so_model : string;
  so_tokens : Tokens;
  so_toolCalls : option (list ToolCallRecord * nat);     (* [{list, count}] *)
  so_providerTiming : Timing;
  so_cost : CostResult
}.

Record StreamingExecution := {
  se_stream : nat;                        (* the upstream stream being wrapped *)
  se_success : bool;
  se_output : StreamingOutput;
  se_metadata : string * string * Z       (* startTime, endTime, duration *)
}.

(** The error thrown to the caller. *)
Record ProviderError := {
  err_message : string;
  err_timing : option (string * string * Z);
  err_litellmErrorType : option string;
  err_litellmErrorCode : option Z
}.

Inductive Outcome : Type :=
| Response (r : ProviderResponse)
| Stream (x : StreamingExecution)
| Thrown (e : ProviderError).

(** The [catch (error)] block around the calls. *)
Definition enhanceError (providerStartTime : Z) (error : JsThrown) (s : Sys)
  : Outcome * Sys :=
  let (providerEndTime, s1) := now s in
  let totalDuration := providerEndTime - providerStartTime in
  let errorMessage0 :=
    match thrown_message error with
    | Some m => m
    | None => thrown_string error
    end in
  let errorMessage :=
    match thrown_error error with
    | Some body => orStr (eb_message body) errorMessage0
    | None => errorMessage0
    end in
  let errorType :=
    match thrown_error error with Some body => eb_type body | None => None end in
  let errorCode :=
    match thrown_error error with Some body => eb_code body | None => None end in
  (Thrown
     {| err_message := errorMessage;
        err_timing := Some (toISOString W providerStartTime,
                            toISOString W providerEndTime,
                            totalDuration);
        err_litellmErrorType := if truthyOpt errorType then errorType else None;
        err_litellmErrorCode :=
          match errorCode with
          | Some c => if c =? 0 then None else Some c
          | None => None
          end |},
   s1).

Definition zeroTokens : Tokens :=
  {| tok_input := 0; tok_output := 0; tok_total := 0 |}.

Definition zeroCost : CostResult :=
  {| cost_input := float_of_Z W 0;
     cost_output := float_of_Z W 0;
     cost_total := float_of_Z W 0 |}.

(** The streaming path without tools. *)
Definition streamWithoutTools (request : ProviderRequest)
  (litellm : ClientConfig) (payload : Payload) (providerStartTime : Z) (s : Sys)
  : Outcome * Sys :=
  match createStream litellm (streamingParams payload) s with
  | (inr e, s1) => enhanceError providerStartTime e s1
  | (inl streamResponse, s1) =>
      let providerStartTimeISO := toISOString W providerStartTime in
      let (t1, s2) := now s1 in
      let (t2, s3) := now s2 in
      let (t3, s4) := now s3 in
      let (t4, s5) := now s4 in
      let (t5, s6) := now s5 in
      let (t6, s7) := now s6 in
      (Stream
         {| se_stream := streamResponse;
            se_success := true;
            se_output :=
              {| so_content := "";
                 so_model := model request;
                 so_tokens := zeroTokens;
                 so_toolCalls := None;
                 so_providerTiming :=
                   {| tm_startTime := providerStartTimeISO;
                      tm_endTime := toISOString W t1;
                      tm_duration := t2 - providerStartTime;
                      tm_modelTime := None;
                      tm_toolsTime := None;
                      tm_firstResponseTime := None;
                      tm_iterations := None;
                      tm_timeSegments :=
                        [{| seg_type := SegModel;
                            seg_name := "Streaming response";
                            seg_startTime := providerStartTime;
                            seg_endTime := t3;
                            seg_duration := t4 - providerStartTime |}] |};
                 so_cost := zeroCost |};
            se_metadata := (providerStartTimeISO, toISOString W t5,
                            t6 - providerStartTime) |},
       s7)
  end.

(** The values of the loop variables when the [while] statement is reached. *)
Definition initialState (fr : Frame) (response : Completion)
  (initialCallTime firstResponseTime : Z) : LoopState :=
  let content0 := orStr (responseContent response) "" in
  {| currentResponse := response;
     content :=
       if truthy content0
       then match responseFormat (request fr) with
            | Some _ => cleanJsonFences content0
            | None => content0
            end
       else content0;
     tokens :=
       {| tok_input :=
            orZero (match usage response with Some u => prompt_tokens u | None => None end);
          tok_output :=
            orZero (match usage response with Some u => completion_tokens u | None => None end);
          tok_total :=
            orZero (match usage response with Some u => total_tokens u | None => None end) |};
     toolCalls := [];
     toolResults := [];
     currentMessages := allMessages (request fr);
     iterationCount := 0;
     modelTime := firstResponseTime;
     toolsTime := 0;
     timeSegments :=
       [{| seg_type := SegModel;
           seg_name := "Initial response";
           seg_startTime := initialCallTime;
           seg_endTime := initialCallTime + firstResponseTime;
           seg_duration := firstResponseTime |}];
     forced :=
       checkForForcedToolUsage (forcedTools fr)
         {| fs_usedForcedTools := []; fs_hasUsedForcedTool := false |}
         response (originalToolChoice fr) |}.

Definition nonEmpty {A : Type} (l : list A) : option (list A) :=
  match l with [] => None | _ => Some l end.

Definition loopTiming (providerStartTime : Z) (endTime : string) (duration : Z)
  (firstResponseTime : Z) (st : LoopState) : Timing :=
  {| tm_startTime := toISOString W providerStartTime;
     tm_endTime := endTime;
     tm_duration := duration;
     tm_modelTime := Some (modelTime st);
     tm_toolsTime := Some (toolsTime st);
     tm_firstResponseTime := Some firstResponseTime;
     tm_iterations := Some (S (iterationCount st));
     tm_timeSegments := timeSegments st |}.

(** The streaming call that follows the tool loop. *)
Definition streamAfterTools (fr : Frame) (providerStartTime firstResponseTime : Z)
  (st : LoopState) (s : Sys) : Outcome * Sys :=
  let accumulatedCost :=
    calculateCost W (model (request fr)) (tok_input (tokens st))
                  (tok_output (tokens st)) in
  let params :=
    streamingParams
      (withMessagesAndChoice (payload fr) (currentMessages st) (Some autoChoice)) in
  match createStream (litellm fr) params s with
  | (inr e, s1) => enhanceError providerStartTime e s1
  | (inl streamResponse, s1) =>
      let (t1, s2) := now s1 in
      let (t2, s3) := now s2 in
      let (t3, s4) := now s3 in
      let (t4, s5) := now s4 in
      (Stream
         {| se_stream := streamResponse;
            se_success := true;
            se_output :=
              {| so_content := "";
                 so_model := model (request fr);
                 so_tokens := tokens st;
                 so_toolCalls :=
                   match toolCalls st with
                   | [] => None
                   | l => Some (l, length l)
                   end;
                 so_providerTiming :=
                   loopTiming providerStartTime (toISOString W t1)
                              (t2 - providerStartTime) firstResponseTime st;
                 so_cost := accumulatedCost |};
            se_metadata := (toISOString W providerStartTime, toISOString W t3,
                            t4 - providerStartTime) |},
       s5)
  end.

(** The buffered result. *)
Definition bufferedResponse (fr : Frame) (providerStartTime firstResponseTime : Z)
  (st : LoopState) (s : Sys) : Outcome * Sys :=
  let (providerEndTime, s1) := now s in
  (Response
     {| res_content := content st;
        res_model := model (request fr);
        res_tokens := tokens st;
        res_toolCalls := nonEmpty (toolCalls st);
        res_toolResults := nonEmpty (toolResults st);
        res_timing :=
          Some (loopTiming providerStartTime (toISOString W providerEndTime)
                           (providerEndTime - providerStartTime)
                           firstResponseTime st);
        res_cost := None |},
   s1).

Definition requestFrame (request : ProviderRequest) : Frame :=
  {| request := request;
     litellm := requestClient request;
     payload := buildPayload request;
     originalToolChoice := p_tool_choice (buildPayload request);
     forcedTools := forcedToolsOf request |}.

(** [executeRequest], started in system state [s]; [fuel] bounds the
    number of times the loop condition may be evaluated, and the result
    is [None] only if that bound is hit. *)
Definition executeRequestFrom (fuel : nat) (req : ProviderRequest) (s : Sys)
  : option (Outcome * Sys) :=
  if negb (truthy (requestBaseUrl req))
  then Some (Thrown {| err_message := "LITELLM_BASE_URL is required for LiteLLM provider";
                       err_timing := None;
                       err_litellmErrorType := None;
                       err_litellmErrorCode := None |}, s)
  else
    let fr := requestFrame req in
    let (providerStartTime, s1) := now s in
    if stream req
       && (match requestTools req with
           | None => true
           | Some [] => true
           | Some _ => negb (hasActiveTools req)
           end)
    then Some (streamWithoutTools req (litellm fr) (payload fr) providerStartTime s1)
    else
      let (initialCallTime, s2) := now s1 in
      match create (litellm fr) (payload fr) s2 with
      | (inr e, s3) => Some (enhanceError providerStartTime e s3)
      | (inl response, s3) =>
          let (t, s4) := now s3 in
          let firstResponseTime := t - initialCallTime in
          let st0 := initialState fr response initialCallTime firstResponseTime in
          match toolLoop fuel fr st0 s4 with
          | None => None
          | Some (Raised e s5) => Some (enhanceError providerStartTime e s5)
          | Some (Again st s5) | Some (Exit _ st s5) =>
              if stream req
              then Some (streamAfterTools fr providerStartTime firstResponseTime st s5)
              else Some (bufferedResponse fr providerStartTime firstResponseTime st s5)
          end
      end.

(** The loop condition is evaluated at most [MAX_TOOL_ITERATIONS + 1]
    times (see [toolLoop_terminates] below), so this much fuel is enough. *)
Definition executeRequest (req : ProviderRequest) : option (Outcome * Sys) :=
  executeRequestFrom (S (MAX_TOOL_ITERATIONS W)) req startSys.

End Provider.

Arguments World : clear implicits.
Arguments ProviderRequest : clear implicits.
Arguments Payload : clear implicits.

Unset Implicit Arguments.

Local Open Scope list_scope.

(* ===================================================================== *)
(** ** [executeRequest]: the completion callbacks of the two streams *)
(* ===================================================================== *)

(** The [usage] object a finished stream hands to its callback; its
    three counts are numbers. *)
Record StreamUsage := {
  su_prompt_tokens : Z;
  su_completion_tokens : Z;
  su_total_tokens : Z
}.

Section StreamCompletion.

Context {float : Type}.
Variable W : World float.

(** [a + b] on costs. *)
Variable float_add : float -> float -> float.

(** [cleanContent]: the streamed text, cleaned when it is not empty and
    a response format was requested. *)
Definition cleanStreamContent (request : ProviderRequest float) (content : string)
  : string :=
  if truthy content
  then match responseFormat request with
       | Some _ => cleanJsonFences content
       | None => content
       end
  else content.

(** [timeSegments[0].endTime = t; timeSegments[0].duration = d], when
    there is a first segment. *)
Definition closeFirstSegment (segments : list TimeSegment) (endTime duration : Z)
  : list TimeSegment :=
  match segments with
  | g :: rest =>
      {| seg_type := seg_type g;
         seg_name := seg_name g;
         seg_startTime := seg_startTime g;
         seg_endTime := endTime;
         seg_duration := duration |} :: rest
  | [] => []
  end.

(** The callback of the stream without tools: it overwrites content,
    tokens and cost of [execution.output] and closes the timing. *)
Definition completeStream (request : ProviderRequest float) (providerStartTime : Z)
  (out : @StreamingOutput float) (content : string) (usage : StreamUsage)
  (s : @Sys float) : @StreamingOutput float * @Sys float :=
  let costResult :=
    calculateCost W (model request) (su_prompt_tokens usage)
                  (su_completion_tokens usage) in
  let (streamEndTime, s1) := now W s in
  ({| so_content := cleanStreamContent request content;
      so_model := so_model out;
      so_tokens := {| tok_input := su_prompt_tokens usage;
                      tok_output := su_completion_tokens usage;
                      tok_total := su_total_tokens usage |};
      so_toolCalls := so_toolCalls out;
      so_providerTiming :=
        {| tm_startTime := tm_startTime (so_providerTiming out);
           tm_endTime := toISOString W streamEndTime;
           tm_duration := streamEndTime - providerStartTime;
           tm_modelTime := tm_modelTime (so_providerTiming out);
           tm_toolsTime := tm_toolsTime (so_providerTiming out);
           tm_firstResponseTime := tm_firstResponseTime (so_providerTiming out);
           tm_iterations := tm_iterations (so_providerTiming out);
           tm_timeSegments :=
             closeFirstSegment (tm_timeSegments (so_providerTiming out))
                               streamEndTime (streamEndTime - providerStartTime) |};
      so_cost := {| cost_input := cost_input costResult;
                    cost_output := cost_output costResult;
                    cost_total := cost_total costResult |} |},
   s1).

(** The callback of the stream that follows the tool loop: the stream's
    usage and cost are added to what the loop accumulated ([tokens] are
    the loop's totals); the timing is left alone. *)
Definition completeStreamAfterTools (request : ProviderRequest float)
  (tokens : Tokens) (out : @StreamingOutput float) (content : string)
  (usage : StreamUsage) : @StreamingOutput float :=
  let accumulatedCost :=
    calculateCost W (model request) (tok_input tokens) (tok_output tokens) in
  let streamCost :=
    calculateCost W (model request) (su_prompt_tokens usage)
                  (su_completion_tokens usage) in
  {| so_content := cleanStreamContent request content;
     so_model := so_model out;
     so_tokens := {| tok_input := tok_input tokens + su_prompt_tokens usage;
                     tok_output := tok_output tokens + su_completion_tokens usage;
                     tok_total := tok_total tokens + su_total_tokens usage |};
     so_toolCalls := so_toolCalls out;
     so_providerTiming := so_providerTiming out;
     so_cost :=
       {| cost_input := float_add (cost_input accumulatedCost) (cost_input streamCost);
          cost_output := float_add (cost_output accumulatedCost) (cost_output streamCost);
          cost_total := float_add (cost_total accumulatedCost) (cost_total streamCost) |} |}.

End StreamCompletion.

(* ===================================================================== *)
(** ** The model selector *)
(* ===================================================================== *)

(** An entry of the dropdown. *)
Record ModelOption := {
  opt_value : string;
  opt_label : string
}.

(** How [fetch('/api/providers/litellm/models')] followed by
    [response.json()] ends in the browser; [data_models] is
    [data.models] when it is an array. *)
Inductive RouteFetch : Type :=
| RouteThrows
| RouteResponse (ok : bool) (data_models : option (list string)).

Definition dynamicOption (id : string) : ModelOption :=
  {| opt_value := id; opt_label := id |}.

(** [fetchModels]: the [models] state after the effect has run. *)
Definition fetchModels (answer : RouteFetch) (models : list ModelOption)
  : list ModelOption :=
  match answer with
  | RouteThrows => models
  | RouteResponse ok data =>
      if ok
      then match data with
           | Some ids =>
               let dynamicModels := map dynamicOption ids in
               match dynamicModels with
               | _ :: _ => dynamicModels
               | [] => []
               end
           | None => models
           end
      else models
  end.

Definition getCollapsedModeLabel (models : list ModelOption)
  (selectedModel : string) : string :=
  match find (fun m => String.eqb (opt_value m) selectedModel) models with
  | Some m => opt_label m
  | None => selectedModel
  end.

(** [displayModels]; [MODEL_OPTIONS] is the static list of '../../constants'. *)
Definition displayModels (MODEL_OPTIONS models : list ModelOption)
  (selectedModel : string) : list ModelOption :=
  match models with
  | _ :: _ => models
  | [] =>
      match MODEL_OPTIONS with
      | _ :: _ => MODEL_OPTIONS
      | [] => [{| opt_value := selectedModel; opt_label := selectedModel |}]
      end
  end.

(** [handleSelect]: the value passed to [onModelSelect] and the new
    [open] state. *)
Definition handleSelect (modelValue : string) (open : bool) : string * bool :=
  (modelValue, false).

(** What the browser gets from the [/models] route of world [W]:
    [response.ok] holds for a status from 200 to 299. *)
Definition routeAnswer {float : Type} (W : World float) : RouteFetch :=
  RouteResponse ((200 <=? resp_status (GET W)) && (resp_status (GET W) <=? 299))
                (Some (resp_models_body (GET W))).

(* ===================================================================== *)
(** ** Reading results *)
(* ===================================================================== *)

(** The tool executions among settled results, in the order of the list. *)
Definition executions (rs : list (Settled (option ToolExecution)))
  : list ToolExecution :=
  flat_map (fun r => match r with
                     | fulfilled (Some v) => [v]
                     | _ => []
                     end) rs.

Definition isModelSegment (g : TimeSegment) : bool :=
  match seg_type g with SegModel => true | SegTool => false end.

Definition isToolSegment (g : TimeSegment) : bool :=
  match seg_type g with SegTool => true | SegModel => false end.

Definition modelSegments (l : list TimeSegment) : list TimeSegment :=
  filter isModelSegment l.

Definition toolSegments (l : list TimeSegment) : list TimeSegment :=
  filter isToolSegment l.

Definition isToolBatch (m : Message) : bool :=
  match m with AssistantToolCalls _ => true | _ => false end.

(** The assistant tool-call messages of a history: one per executed batch. *)
Definition toolBatches (l : list Message) : list Message := filter isToolBatch l.

Definition hasToolCalls (r : Completion) : bool :=
  match responseToolCalls r with
  | Some (_ :: _) => true
  | _ => false
  end.

(** The [tool_call_id]s of the tool-result messages of a history. *)
Definition toolMessageIds (l : list Message) : list string :=
  flat_map (fun m => match m with ToolMessage i _ => [i] | _ => [] end) l.

(** The token counts a completion reports ([0] for what it leaves out). *)
Definition reportedTokens (response : Completion) : Tokens :=
  addUsage zeroTokens (usage response).

(** The settled results of the batch that a pass of the loop runs for
    the tool calls [calls], and the system state after the batch. *)
Definition batchOf {float : Type} (W : World float) (fr : Frame) (st : LoopState)
  (s : Sys) (calls : list ToolCall)
  : list (Settled (option ToolExecution)) * Sys :=
  executeToolCalls W (request fr) (iterationCount st) calls (snd (now W s)).

(** The message history after that batch. *)
Definition messagesAfterBatch {float : Type} (W : World float) (fr : Frame)
  (st : LoopState) (s : Sys) (calls : list ToolCall) : list Message :=
  currentMessages st ++ [AssistantToolCalls calls]
  ++ map (toolMessage W) (executions (fst (batchOf W fr st s calls))).

(** The payload of the model call that follows that batch. *)
Definition nextPayloadOf {float : Type} (W : World float) (fr : Frame)
  (st : LoopState) (s : Sys) (calls : list ToolCall) : Payload float :=
  withMessagesAndChoice (payload fr) (messagesAfterBatch W fr st s calls)
                        (nextToolChoice fr (forced st)).

(** The upstream answer the [/models] route and [initialize] look at. *)
Definition upstreamModels {float : Type} (W : World float) : FetchOutcome :=
  fetch W (envBaseUrl W ++ "/v1/models")%string (discoveryHeaders W).

(** No base endpoint is configured: the variable is unset or empty. *)
Definition baseEndpointAbsent {float : Type} (W : World float) : Prop :=
  truthyOpt (env_LITELLM_BASE_URL W) = false.

(** The four situations in which the [/models] route has nothing to list. *)
Definition routeDegraded {float : Type} (W : World float) : Prop :=
  isProviderBlacklisted W "litellm" = true
  \/ baseEndpointAbsent W
  \/ (exists st txt body, upstreamModels W = FetchResponse false st txt body)
  \/ (exists e, upstreamModels W = FetchThrows e).

(** The error of the guard at the top of [executeRequest]. *)
Definition baseUrlRequired : ProviderError :=
  {| err_message := "LITELLM_BASE_URL is required for LiteLLM provider";
     err_timing := None;
     err_litellmErrorType := None;
     err_litellmErrorCode := None |}.

(** The loop variables after a pass that ran the batch for [calls] and
    whose model call returned [response]. *)
Definition stateAfterPass {float : Type} (W : World float) (fr : Frame)
  (st : LoopState) (s : Sys) (calls : list ToolCall) (response : Completion)
  : LoopState :=
  let vs := executions (fst (batchOf W fr st s calls)) in
  let t := ticks (snd (batchOf W fr st s calls)) in
  {| currentResponse := response;
     content := updatedContent fr response
                  (updatedContent fr (currentResponse st) (content st));
     tokens := addUsage (tokens st) (usage response);
     toolCalls := toolCalls st ++ map (toolCallRecord W) vs;
     toolResults :=
       toolResults st ++
       map (fun v => tr_output (te_result v))
           (filter (fun v => tr_success (te_result v)) vs);
     currentMessages := messagesAfterBatch W fr st s calls;
     iterationCount := S (iterationCount st);
     modelTime := modelTime st + (Date_now W (S (S t)) - Date_now W (S t));
     toolsTime := toolsTime st + (Date_now W t - Date_now W (ticks s));
     timeSegments :=
       timeSegments st ++ map toolSegment vs ++
       [modelSegment
          ("Model response (iteration "
           ++ natToString (S (iterationCount st)) ++ ")")%string
          (Date_now W (S t)) (Date_now W (S (S t)))];
     forced := checkForForcedToolUsage (forcedTools fr) (forced st) response
                 (nextToolChoice fr (forced st)) |}.

(** The system state after that pass; [k] is the number of clock
    readings taken after the batch. *)
Definition sysAfterPass {float : Type} (W : World float) (fr : Frame)
  (st : LoopState) (s : Sys) (calls : list ToolCall) (k : nat) : Sys :=
  {| ticks := k + ticks (snd (batchOf W fr st s calls));
     sent := sent s ++ [nextPayloadOf W fr st s calls] |}.

(** The running totals satisfy [total = input + output]. *)
Definition balanced (t : Tokens) : Prop :=
  tok_total t = tok_input t + tok_output t.

(** The usage a completion reports has a total equal to the sum of its
    prompt and completion counts (vacuous when it reports no usage). *)
Definition usageBalanced (r : Completion) : Prop :=
  match usage r with
  | Some u =>
      orZero (total_tokens u)
      = orZero (prompt_tokens u) + orZero (completion_tokens u)
  | None => True
  end.

(** The directive for the next call once the forced tools in [used] have
    been used: the first forced tool not among them, or automatic choice
    when none is left. *)
Definition rotation (forcedTools used : list string) : ToolChoice :=
  match filter (fun tool => negb (includes used tool)) forcedTools with
  | next :: _ => forceFunction next
  | [] => autoChoice
  end.

(** The system state a pass ends in. *)
Definition passSys {float : Type} (p : @Pass float) : Sys :=
  match p with
  | Exit _ _ s => s
  | Again _ s => s
  | Raised _ s => s
  end.

(** What becomes of a tool call before the tool invoker is reached: it
    is dropped (the callback returns [null]), it fails (something is
    thrown and caught, [msg] being the message when the thrown value is an
    [Error]), or the tool is invoked with the prepared parameters. *)
Inductive CallFate : Type :=
| Dropped
| FailsEarly (msg : option string)
| Invoked (toolParams executionParams : Json).

Definition callFate {float : Type} (W : World float) (req : ProviderRequest float)
  (tc : ToolCall) : CallFate :=
  match JSON_parse W (tc_arguments tc) with
  | inr syntaxError => FailsEarly (Some syntaxError)
  | inl toolArgs =>
      match findTool req (tc_name tc) with
      | None => Dropped
      | Some tool =>
          match prepareToolExecution W tool toolArgs req with
          | inr e => FailsEarly (thrown_message e)
          | inl (toolParams, executionParams) => Invoked toolParams executionParams
          end
      end
  end.

(** The call leaves a trace in the result (it is not dropped). *)
Definition recorded {float : Type} (W : World float) (req : ProviderRequest float)
  (tc : ToolCall) : bool :=
  match callFate W req tc with
  | Dropped => false
  | _ => true
  end.

(** The value the callback for the call at position [i] of batch [b]
    settles with, given the two clock readings it takes. *)
Definition settledValue {float : Type} (W : World float)
  (req : ProviderRequest float) (b i : nat) (tc : ToolCall)
  (startTime endTime : Z) : option ToolExecution :=
  match callFate W req tc with
  | Dropped => None
  | FailsEarly msg => Some (failedExecution tc msg startTime endTime)
  | Invoked toolParams executionParams =>
      match executeTool W b i (tc_name tc) executionParams true with
      | Resolves result =>
          Some {| te_toolCall := tc;
                  te_toolName := tc_name tc;
                  te_toolParams := toolParams;
                  te_result := result;
                  te_startTime := startTime;
                  te_endTime := endTime;
                  te_duration := endTime - startTime |}
      | Rejects e => Some (failedExecution tc (thrown_message e) startTime endTime)
      end
  end.

(** [vs] are the values the calls [tcs], at positions [j], [j+1], ... of
    batch [b], settle with. *)
Inductive SettledFrom {float : Type} (W : World float)
  (req : ProviderRequest float) (b : nat)
  : nat -> list ToolCall -> list (option ToolExecution) -> Prop :=
| SettledNil (j : nat) : SettledFrom W req b j [] []
| SettledCons (j : nat) (tc : ToolCall) (tcs : list ToolCall)
    (vs : list (option ToolExecution)) (startTime endTime : Z) :
    SettledFrom W req b (S j) tcs vs ->
    SettledFrom W req b j (tc :: tcs)
                (settledValue W req b j tc startTime endTime :: vs).

(** [vs] are the executions of batch number [b], run for the tool calls
    [calls] of [response]: the values the callbacks of its calls settle
    with, in the order of the calls, those of dropped calls left out. *)
Definition BatchOf {float : Type} (W : World float) (req : ProviderRequest float)
  (b : nat) (response : Completion) (calls : list ToolCall)
  (vs : list ToolExecution) : Prop :=
  responseToolCalls response = Some calls
  /\ exists ovs,
       SettledFrom W req b 0 calls ovs
       /\ vs = executions (map (@fulfilled _) ovs).

(** The batches numbered [b], [b + 1], ... are those run for the tool
    calls of the responses [r b], [r (b + 1)], ... *)
Fixpoint BatchesFrom {float : Type} (W : World float) (req : ProviderRequest float)
  (r : nat -> Completion) (b : nat)
  (batches : list (list ToolCall * list ToolExecution)) : Prop :=
  match batches with
  | [] => True
  | batch :: rest =>
      BatchOf W req b (r b) (fst batch) (snd batch)
      /\ BatchesFrom W req r (S b) rest
  end.

(** The messages a batch appends to the history: the assistant message
    listing its calls, then one tool message for each execution. *)
Definition batchMessages {float : Type} (W : World float)
  (batch : list ToolCall * list ToolExecution) : list Message :=
  AssistantToolCalls (fst batch) :: map (toolMessage W) (snd batch).

(** The number of clock readings the synchronous prefix of the callback
    for [tc] takes: one at its start and, when it fails before the tool
    is invoked, one more in the [catch] block. *)
Definition prefixReadings {float : Type} (W : World float)
  (req : ProviderRequest float) (tc : ToolCall) : nat :=
  match callFate W req tc with
  | FailsEarly _ => 2
  | _ => 1
  end.

(** The readings the prefixes of all the callbacks of a batch take. *)
Fixpoint batchPrefixReadings {float : Type} (W : World float)
  (req : ProviderRequest float) (calls : list ToolCall) : nat :=
  match calls with
  | [] => 0
  | tc :: rest => prefixReadings W req tc + batchPrefixReadings W req rest
  end.

(** The positions, counted from [i], of the calls that reach the tool
    invoker. *)
Fixpoint invokedFrom {float : Type} (W : World float)
  (req : ProviderRequest float) (i : nat) (calls : list ToolCall) : list nat :=
  match calls with
  | [] => []
  | tc :: rest =>
      match callFate W req tc with
      | Invoked _ _ => i :: invokedFrom W req (S i) rest
      | _ => invokedFrom W req (S i) rest
      end
  end.

(** The numbers of the two clock readings of each recorded call, in the
    order of the calls: the callback of the call at position [i] starts
    at reading [t]; a call that fails early ends at the next reading; a
    call that reaches the tool invoker ends when its invocation
    completes, at reading [t0] plus the number of invocations of the
    batch that complete before it. *)
Fixpoint stampsFrom {float : Type} (W : World float)
  (req : ProviderRequest float) (b : nat) (awaiting : list nat) (t0 t i : nat)
  (calls : list ToolCall) : list (nat * nat) :=
  match calls with
  | [] => []
  | tc :: rest =>
      match callFate W req tc with
      | Dropped => stampsFrom W req b awaiting t0 (S t) (S i) rest
      | FailsEarly _ =>
          (t, S t) :: stampsFrom W req b awaiting t0 (S (S t)) (S i) rest
      | Invoked _ _ =>
          (t, (t0 + settlePosition W b awaiting i)%nat)
          :: stampsFrom W req b awaiting t0 (S t) (S i) rest
      end
  end.

(** The same for batch [b], run for [calls] when [t] clock readings have
    been taken: the invocations complete after all the callbacks have
    started. *)
Definition batchStamps {float : Type} (W : World float)
  (req : ProviderRequest float) (b t : nat) (calls : list ToolCall)
  : list (nat * nat) :=
  stampsFrom W req b (invokedFrom W req 0 calls)
             (t + batchPrefixReadings W req calls) t 0 calls.

(** The clock values at a pair of readings, with their distance. *)
Definition stampTimes {float : Type} (W : World float) (se : nat * nat)
  : Z * Z * Z :=
  (Date_now W (fst se), Date_now W (snd se),
   Date_now W (snd se) - Date_now W (fst se)).

(** The forced-tool state before any response has been looked at. *)
Definition untracked : ForcedState :=
  {| fs_usedForcedTools := []; fs_hasUsedForcedTool := false |}.

(** The forced-tool state once the responses to the calls [l] have been
    looked at, the first of which is call number [i], starting from [fs]:
    each response is checked against the tool choice its call carried. *)
Fixpoint trackedFrom {float : Type} (W : World float) (c : ClientConfig)
  (forcedTools : list string) (i : nat) (l : list (Payload float))
  (fs : ForcedState) : ForcedState :=
  match l with
  | [] => fs
  | p :: rest =>
      match chat_create W c i p with
      | inl r =>
          trackedFrom W c forcedTools (S i) rest
            (checkForForcedToolUsage forcedTools fs r (p_tool_choice p))
      | inr _ => trackedFrom W c forcedTools (S i) rest fs
      end
  end.

(** The forced-tool state of a request after the calls [l]. *)
Definition trackedAfter {float : Type} (W : World float)
  (req : ProviderRequest float) (l : list (Payload float)) : ForcedState :=
  trackedFrom W (requestClient W req) (forcedToolsOf W req) 0 l untracked.

(** Every call of the list carries the tool choice the rotation gives
    for the responses to the calls before it. *)
Definition ChoicesFollow {float : Type} (W : World float)
  (req : ProviderRequest float) (l : list (Payload float)) : Prop :=
  forall before q after,
    l = before ++ q :: after ->
    p_tool_choice q
    = nextToolChoice (requestFrame W req) (trackedAfter W req before).

(** What the loop keeps true of the forced-tool state. *)
Definition Tracked {float : Type} (W : World float)
  (req : ProviderRequest float) (st : LoopState) (s : @Sys float) : Prop :=
  forced st = trackedAfter W req (sent s)
  /\ ChoicesFollow W req (sent s).

(** The tool definitions of a request ([request.tools], or none). *)
Definition requestToolList {float : Type} (req : ProviderRequest float)
  : list ProviderTool :=
  match tools req with
  | Some ts => ts
  | None => []
  end.

(** The structured result of a tool call whose processing threw; [msg] is
    the message of the thrown [Error], if the thrown value is one. *)
Definition failureResult (msg : option string) : ToolResult :=
  {| tr_success := false;
     tr_output := None;
     tr_error := Some (match msg with
                       | Some m => m
                       | None => "Tool execution failed"
                       end) |}.

(** The chat endpoint never fails and always asks for more tool calls. *)
Definition keepsAsking {float : Type} (W : World float) (fr : @Frame float)
  : Prop :=
  forall n p, exists r,
    chat_create W (litellm fr) n p = inl r /\ hasToolCalls r = true.

(** A pass result that ends the loop, with what it tells about the
    number of passes and of model calls made since [st], [s]. *)
Definition endsWithin {float : Type} (W : World float) (st : LoopState)
  (s : @Sys float) (p : @Pass float) : Prop :=
  match p with
  | Exit _ st' s' =>
      (iterationCount st' <= MAX_TOOL_ITERATIONS W)%nat
      /\ (length (sent s') + iterationCount st
          = length (sent s) + iterationCount st')%nat
  | Raised _ s' =>
      (length (sent s') + iterationCount st
       <= length (sent s) + MAX_TOOL_ITERATIONS W)%nat
  | Again _ _ => False
  end.

(** The condition of the streaming path without tools. *)
Definition takesFastPath {float : Type} (W : World float)
  (req : ProviderRequest float) : bool :=
  stream req
  && (match requestTools req with
      | None => true
      | Some [] => true
      | Some _ => negb (hasActiveTools W req)
      end).

(** The loop variables and the system state when [executeRequest]
    reaches the loop, after the first model call returned [response]. *)
Definition loopStart {float : Type} (W : World float)
  (req : ProviderRequest float) (response : Completion) : LoopState :=
  initialState (requestFrame W req) response (Date_now W 1)
               (Date_now W 2 - Date_now W 1).

Definition loopSys {float : Type} (W : World float)
  (req : ProviderRequest float) : Sys :=
  {| ticks := 3; sent := [buildPayload W req] |}.

(** The sum of the durations of a list of segments. *)
Fixpoint sumDurations (l : list TimeSegment) : Z :=
  match l with
  | [] => 0
  | g :: rest => seg_duration g + sumDurations rest
  end.

(** A segment whose duration is the distance between its end points. *)
Definition spansItsDuration (g : TimeSegment) : Prop :=
  seg_duration g = seg_endTime g - seg_startTime g.

(** Each payload of the list carries the messages of the one before it,
    followed by further messages. *)
Fixpoint historyGrows {float : Type} (l : list (Payload float)) : Prop :=
  match l with
  | p :: rest =>
      match rest with
      | q :: _ => (exists more, p_messages q = p_messages p ++ more)
                  /\ historyGrows rest
      | [] => True
      end
  | [] => True
  end.

(** Two payloads that differ at most in messages, tool choice and the
    streaming flags. *)
Definition sameSettings {float : Type} (p q : Payload float) : Prop :=
  p_model p = p_model q
  /\ p_temperature p = p_temperature q
  /\ p_max_tokens p = p_max_tokens q
  /\ p_response_format p = p_response_format q
  /\ p_tools p = p_tools q.

(** A payload that names a tool choice also offers tools. *)
Definition choiceHasTools {float : Type} (p : Payload float) : Prop :=
  p_tool_choice p <> None -> p_tools p <> None.

(** [s] ends in a slash. *)
Fixpoint endsWithSlash (s : string) : bool :=
  match s with
  | EmptyString => false
  | String c EmptyString => Ascii.eqb c "/"
  | String _ rest => endsWithSlash rest
  end.

(** [s] contains a backtick. *)
Fixpoint hasBacktick (s : string) : bool :=
  match s with
  | EmptyString => false
  | String c rest => Ascii.eqb c "`" || hasBacktick rest
  end.

(** The successful records of a list. *)
Definition successfulRecords (l : list ToolCallRecord) : list ToolCallRecord :=
  filter rec_success l.

(** [request.azureEndpoint || env.LITELLM_BASE_URL || ''], before the
    trailing slash is removed. *)
Definition rawEndpoint {float : Type} (W : World float)
  (req : ProviderRequest float) : string :=
  match azureEndpoint req with
  | Some e => if truthy e then e else orStr (env_LITELLM_BASE_URL W) ""
  | None => orStr (env_LITELLM_BASE_URL W) ""
  end.

(** The [models] state of the selector after the effect has run once
    for each of the answers, starting from the initial empty list. *)
Definition modelsAfter (answers : list RouteFetch) : list ModelOption :=
  fold_left (fun models answer => fetchModels answer models) answers [].

(** An optional list, read as a list. *)
Definition orNil {A : Type} (o : option (list A)) : list A :=
  match o with
  | Some l => l
  | None => []
  end.

(** The first model segment of every run of the loop. *)
Definition initialSegment (initialCallTime firstResponseTime : Z) : TimeSegment :=
  {| seg_type := SegModel;
     seg_name := "Initial response";
     seg_startTime := initialCallTime;
     seg_endTime := initialCallTime + firstResponseTime;
     seg_duration := firstResponseTime |}.

(** What holds of every payload a request sends. *)
Definition wellFormedCall {float : Type} (W : World float)
  (req : ProviderRequest float) (p : Payload float) : Prop :=
  sameSettings (buildPayload W req) p /\ choiceHasTools p.

(** What the loop keeps true of its counters: the passes made stay
    within the cap, and there is one model segment and one logged call
    more than passes made. *)
Definition Counted {float : Type} (W : World float) (st : LoopState)
  (s : @Sys float) : Prop :=
  (iterationCount st <= MAX_TOOL_ITERATIONS W)%nat
  /\ length (modelSegments (timeSegments st)) = S (iterationCount st)
  /\ length (sent s) = S (iterationCount st).

(** The timing the loop keeps: [modelTime] is the total duration of the
    model segments, every segment spans its duration, and the first
    segment is the one of the first call. *)
Definition Timed (t0 t1 : Z) (st : LoopState) : Prop :=
  modelTime st = sumDurations (modelSegments (timeSegments st))
  /\ Forall spansItsDuration (timeSegments st)
  /\ exists rest, timeSegments st = initialSegment t0 t1 :: rest.

(** The books the loop keeps on tool calls: records and tool segments
    pair up, and the raw results are those of the successful records. *)
Definition Booked (st : LoopState) : Prop :=
  map rec_name (toolCalls st) = map seg_name (toolSegments (timeSegments st))
  /\ map rec_duration (toolCalls st)
     = map seg_duration (toolSegments (timeSegments st))
  /\ toolResults st = map rec_result (successfulRecords (toolCalls st)).

(** What the loop keeps true of the calls logged so far: the last one
    carries the current history, each one extends the history of the one
    before, and each one is a well-formed, non-streaming call. *)
Definition Logged {float : Type} (W : World float) (req : ProviderRequest float)
  (st : LoopState) (s : @Sys float) : Prop :=
  (exists earlier p, sent s = earlier ++ [p]
                     /\ p_messages p = currentMessages st)
  /\ historyGrows (sent s)
  /\ Forall (fun p => wellFormedCall W req p /\ p_stream p = false) (sent s).

Definition LoggedCalls {float : Type} (W : World float)
  (req : ProviderRequest float) (s : @Sys float) : Prop :=
  historyGrows (sent s)
  /\ Forall (fun p => wellFormedCall W req p /\ p_stream p = false) (sent s).

(** From the state [st0], [s0] on, the forced-tool state has not moved
    and every call issued since carries the tool choice that follows
    from it. *)
Definition choiceSettled {float : Type} (fr : @Frame float) (st0 : LoopState)
  (s0 : @Sys float) (st : LoopState) (s : @Sys float) : Prop :=
  forced st = forced st0
  /\ exists new,
       sent s = sent s0 ++ new
       /\ Forall (fun p => p_tool_choice p = nextToolChoice fr (forced st0)) new.

(** The name of the model segment of pass [k]. *)
Definition iterationName (k : nat) : string :=
  ("Model response (iteration " ++ natToString k ++ ")")%string.

(** A record of a successful call names a tool the request defines. *)
Definition namesDefinedTool {float : Type} (req : ProviderRequest float)
  (c : ToolCallRecord) : Prop :=
  rec_success c = true -> In (rec_name c) (map tool_id (requestToolList req)).

(** The clock never runs backwards: a later reading is not smaller. *)
Definition monotoneClock {float : Type} (W : World float) : Prop :=
  forall m n, (m <= n)%nat -> Date_now W m <= Date_now W n.

(** The execution [v] started at a clock reading numbered [lo] or later
    and ended at a reading that is not earlier and is numbered at most
    [hi]; its duration is the difference of the two. *)
Definition readBetween {float : Type} (W : World float) (lo hi : nat)
  (v : ToolExecution) : Prop :=
  exists k k',
    (lo <= k)%nat /\ (k <= k')%nat /\ (k' <= hi)%nat
    /\ te_startTime v = Date_now W k
    /\ te_endTime v = Date_now W k'
    /\ te_duration v = Date_now W k' - Date_now W k.

(** The same for a callback after its synchronous prefix: one that is
    suspended has read its start time at a reading from [lo] up to, but
    not including, [hi]. *)
Definition startedBetween {float : Type} (W : World float) (lo hi : nat)
  (d : Started) : Prop :=
  match d with
  | Finished None => True
  | Finished (Some v) => readBetween W lo hi v
  | Awaiting _ _ _ t => exists k, (lo <= k)%nat /\ (k < hi)%nat /\ t = Date_now W k
  end.

Definition settledBetween {float : Type} (W : World float) (lo hi : nat)
  (o : option ToolExecution) : Prop :=
  match o with
  | Some v => readBetween W lo hi v
  | None => True
  end.

(** The duration of a segment is not negative and at most the total of
    its kind: [mt] for a model segment, [tt] for a tool segment. *)
Definition withinTotals (mt tt : Z) (g : TimeSegment) : Prop :=
  0 <= seg_duration g
  /\ seg_duration g <= match seg_type g with SegModel => mt | SegTool => tt end.

(** What the loop keeps true of its clocks when time does not run
    backwards; reading [0] is [providerStartTime]. *)
Definition OnTime {float : Type} (W : World float) (st : LoopState)
  (s : @Sys float) : Prop :=
  0 <= modelTime st
  /\ 0 <= toolsTime st
  /\ Date_now W 0 + modelTime st + toolsTime st <= Date_now W (ticks s)
  /\ Forall (withinTotals (modelTime st) (toolsTime st)) (timeSegments st).

(** The completions the chat endpoint returned to the calls [l], the
    first of which is call number [i]. *)
Fixpoint responsesFrom {float : Type} (W : World float) (c : ClientConfig)
  (i : nat) (l : list (Payload float)) : list Completion :=
  match l with
  | [] => []
  | p :: rest =>
      match chat_create W c i p with
      | inl r => r :: responsesFrom W c (S i) rest
      | inr _ => responsesFrom W c (S i) rest
      end
  end.

(** The text of a response, when it has one that is not empty. *)
Definition spokenText (r : Completion) : option string :=
  match responseContent r with
  | Some c => if truthy c then Some c else None
  | None => None
  end.

(** The text of the last response of the list that has one. *)
Fixpoint lastSpoken (rs : list Completion) : option string :=
  match rs with
  | [] => None
  | r :: rest =>
      match lastSpoken rest with
      | Some c => Some c
      | None => spokenText r
      end
  end.

(** A response text as a result reports it: cleaned when the request
    asks for a response format; the empty string when there is none. *)
Definition reportedContent {float : Type} (req : ProviderRequest float)
  (text : option string) : string :=
  match text with
  | Some c =>
      match responseFormat req with
      | Some _ => cleanJsonFences c
      | None => c
      end
  | None => ""
  end.

(** The usage the responses report, summed field by field. *)
Definition totalUsage (rs : list Completion) : Tokens :=
  fold_left (fun t r => addUsage t (usage r)) rs zeroTokens.

(** What the loop keeps true of the responses received so far: every
    call was answered, the current response is the last answer, and
    content and tokens account for all of them. *)
Definition Said {float : Type} (W : World float) (req : ProviderRequest float)
  (st : LoopState) (s : @Sys float) : Prop :=
  exists earlier,
    responsesFrom W (requestClient W req) 0 (sent s)
    = earlier ++ [currentResponse st]
    /\ length (sent s) = S (length earlier)
    /\ content st
       = reportedContent req (lastSpoken (earlier ++ [currentResponse st]))
    /\ tokens st = totalUsage (earlier ++ [currentResponse st]).

(* ===================================================================== *)
(** ** Concrete surroundings for the examples *)
(* ===================================================================== *)

Module Examples.

(** In the examples a number is an integer. *)
Definition num : Type := Z.

Definition quote : string := String (Ascii.ascii_of_nat 34) "".

(** [JSON.stringify] on values without escapes and negative numbers. *)
Fixpoint stringify (j : Json) : string :=
  match j with
  | JNull => "null"
  | JBool true => "true"
  | JBool false => "false"
  | JNum z => natToString (Z.to_nat z)
  | JStr s => quote ++ s ++ quote
  | JArr l =>
      "[" ++ (fix items (l : list Json) : string :=
                match l with
                | [] => ""
                | [x] => stringify x
                | x :: rest => stringify x ++ "," ++ items rest
                end) l ++ "]"
  | JObj fs =>
      "{" ++ (fix fields (fs : list (string * Json)) : string :=
                match fs with
                | [] => ""
                | [(k, x)] => quote ++ k ++ quote ++ ":" ++ stringify x
                | (k, x) :: rest =>
                    quote ++ k ++ quote ++ ":" ++ stringify x ++ "," ++ fields rest
                end) fs ++ "}"
  end%string.

(** [JSON.parse] on the three argument texts the examples use: the empty
    object, the empty array, and the truncated text of a single brace. *)
Definition parse (s : string) : Json + string :=
  if String.eqb s "{}" then inl (JObj [])
  else if String.eqb s "[]" then inl (JArr [])
  else inr "Unexpected end of JSON input".

(** A tool-preparation helper in the sense of the PreparedToolSet of the
    specification: every tool is offered, the tools marked [force] are the
    forced tools, and the directive forces the first of them, or is
    automatic when there is none. *)
Definition prepare (fts : list FunctionTool) (ts : list ProviderTool)
  : PreparedTools :=
  let forcedIds :=
    map tool_id
        (filter (fun t => match tool_usageControl t with
                          | Some u => String.eqb u "force"
                          | None => false
                          end) ts) in
  {| prep_tools := Some fts;
     prep_toolChoice := Some (match forcedIds with
                              | t :: _ => forceFunction t
                              | [] => autoChoice
                              end);
     prep_forcedTools := Some forcedIds |}.

(** A world: the base endpoint, the upstream's answer to the model
    listing, the chat endpoint's answer to its n-th call, the tool
    invoker's answer per batch and position, and the completion ranks.
    The clock advances by ten milliseconds per reading and the iteration
    cap is twenty. *)
Definition world (baseUrl : option string) (upstream : FetchOutcome)
  (chat : nat -> Completion + JsThrown)
  (invoke : nat -> nat -> string -> ToolRun)
  (rank : nat -> nat -> nat) : World num :=
  {| env_LITELLM_BASE_URL := baseUrl;
     env_LITELLM_API_KEY := None;
     onClient := false;
     Date_now := fun n => 1000 + 10 * Z.of_nat n;
     toISOString := fun t => ("T+" ++ natToString (Z.to_nat t))%string;
     JSON_parse := parse;
     JSON_stringify := stringify;
     float_of_Z := fun z => z;
     MAX_TOOL_ITERATIONS := 20;
     isProviderBlacklisted := fun _ => false;
     isModelBlacklisted := fun m => String.eqb m "litellm/blocked";
     prepareToolsWithUsageControl := prepare;
     prepareToolExecution := fun _ args _ => inl (args, args);
     calculateCost := fun _ i o =>
       {| cost_input := i; cost_output := o; cost_total := i + o |};
     fetch := fun _ _ => upstream;
     chat_create := fun _ n _ => chat n;
     chat_stream := fun _ n _ => inl n;
     executeTool := fun b i name _ _ => invoke b i name;
     settleRank := rank |}.

Definition endpoint : option string := Some "http://localhost:4000/".

Definition requestFor (m : string) (ts : option (list ProviderTool)) (streaming : bool)
  : ProviderRequest num :=
  {| model := m;
     systemPrompt := None;
     context := None;
     messages := Some [Msg "user" "hi"];
     tools := ts;
     temperature := None;
     maxTokens := None;
     responseFormat := None;
     stream := streaming;
     apiKey := None;
     azureEndpoint := None |}.

Definition tool (id : string) (control : option string) : ProviderTool :=
  {| tool_id := id;
     tool_description := "";
     tool_parameters := JObj [];
     tool_usageControl := control |}.

Definition usageOf (i o t : Z) : option Usage :=
  Some {| prompt_tokens := Some i; completion_tokens := Some o; total_tokens := Some t |}.

(** A completion that answers with text. *)
Definition says (text : string) (u : option Usage) : Completion :=
  {| choices := [{| cm_content := Some text; cm_tool_calls := None |}];
     usage := u |}.

(** A completion that asks for tool calls. *)
Definition asks (calls : list ToolCall) (u : option Usage) : Completion :=
  {| choices := [{| cm_content := None; cm_tool_calls := Some calls |}];
     usage := u |}.

Definition call (id name args : string) : ToolCall :=
  {| tc_id := id; tc_name := name; tc_arguments := args |}.

Definition succeeds (out : Json) : ToolRun :=
  Resolves {| tr_success := true; tr_output := Some out; tr_error := None |}.

Definition noUpstream : FetchOutcome := FetchThrows (plainError "fetch failed").

Definition fifo : nat -> nat -> nat := fun _ _ => 0%nat.

(** The upstream answers the model listing with HTTP 503. *)
Definition unavailableWorld : World num :=
  world endpoint (FetchResponse false 503 "Service Unavailable" None)
        (fun _ => inl (says "ok" None)) (fun _ _ _ => succeeds JNull) fifo.

(** The upstream lists three models, one of them blacklisted. *)
Definition listingWorld : World num :=
  world endpoint
        (FetchResponse true 200 "OK" (Some ["gpt-4"; "blocked"; "claude-3"]))
        (fun _ => inl (says "ok" None)) (fun _ _ _ => succeeds JNull) fifo.

(** No base endpoint is configured. *)
Definition unconfiguredWorld : World num :=
  world None noUpstream (fun _ => inl (says "ok" None))
        (fun _ _ _ => succeeds JNull) fifo.

(** The model asks for tool [a] on every turn. *)
Definition insistentWorld : World num :=
  world endpoint noUpstream
        (fun _ => inl (asks [call "call_a" "a" "{}"] (usageOf 1 1 2)))
        (fun _ _ _ => succeeds JNull) fifo.

Definition insistentFrame : Frame :=
  requestFrame insistentWorld (requestFor "litellm/gpt-4" (Some [tool "a" None]) false).

Definition insistentStart : LoopState :=
  initialState insistentFrame (asks [call "call_a" "a" "{}"] (usageOf 1 1 2)) 0 0.

(** The chat endpoint answers every call of the loop with plain text. *)
Definition plainWorld : World num :=
  world endpoint noUpstream (fun _ => inl (says "done" (usageOf 1 1 2)))
        (fun _ _ name => succeeds (JStr name)) fifo.

Definition plainFrame : Frame :=
  requestFrame plainWorld (requestFor "litellm/gpt-4" (Some [tool "a" None]) false).

(** A conversation in which only the first response asks for a tool. *)
Definition oneToolTurn (k : nat) : Completion :=
  match k with
  | O => asks [call "call_a" "a" "{}"] (usageOf 2 3 5)
  | S _ => says "done" (usageOf 1 1 2)
  end.

(** No tools are defined, yet the first response carries a tool call,
    with an argument text that is not JSON. *)
Definition strayCallWorld : World num :=
  world endpoint noUpstream
        (fun n => match n with
                  | O => inl (asks [call "call_x" "ghost" "{"] (usageOf 2 3 5))
                  | S _ => inl (says "done" (usageOf 1 1 2))
                  end)
        (fun _ _ name => succeeds (JStr name)) fifo.

Definition plainRequest : ProviderRequest num :=
  requestFor "litellm/gpt-4" None false.

(** The first response asks for tool [a] and reports a total equal to
    the sum of its parts; the second reports a larger total. *)
Definition miscountWorld : World num :=
  world endpoint noUpstream
        (fun n => match n with
                  | O => inl (asks [call "call_a" "a" "{}"] (usageOf 2 3 5))
                  | S _ => inl (says "done" (usageOf 1 1 7))
                  end)
        (fun _ _ name => succeeds (JStr name)) fifo.

Definition oneToolRequest : ProviderRequest num :=
  requestFor "litellm/gpt-4" (Some [tool "a" None]) false.

(** Two forced tools; the model calls the tool it is told to call, then
    answers in plain text. *)
Definition forcedRequest : ProviderRequest num :=
  requestFor "litellm/gpt-4"
             (Some [tool "a" (Some "force"); tool "b" (Some "force")]) false.

Definition obedientWorld : World num :=
  world endpoint noUpstream
        (fun n => match n with
                  | 0%nat => inl (asks [call "call_a" "a" "{}"] (usageOf 1 1 2))
                  | 1%nat => inl (asks [call "call_b" "b" "{}"] (usageOf 1 1 2))
                  | _ => inl (says "done" (usageOf 1 1 2))
                  end)
        (fun _ _ name => succeeds (JStr name)) fifo.

(** Two tools are called in one batch; the second call completes first. *)
Definition racingWorld : World num :=
  world endpoint noUpstream
        (fun n => match n with
                  | O => inl (asks [call "call_1" "a" "{}"; call "call_2" "b" "{}"]
                                   (usageOf 2 3 5))
                  | S _ => inl (says "done" (usageOf 1 1 2))
                  end)
        (fun _ _ name => succeeds (JStr name))
        (fun _ i => match i with O => 1%nat | S _ => 0%nat end).

Definition twoToolRequest : ProviderRequest num :=
  requestFor "litellm/gpt-4" (Some [tool "a" None; tool "b" None]) false.

Definition racingFrame : Frame := requestFrame racingWorld twoToolRequest.

Definition racingStart : LoopState :=
  initialState racingFrame
    (asks [call "call_1" "a" "{}"; call "call_2" "b" "{}"] (usageOf 2 3 5)) 0 0.

(** In one batch the call of [a] throws and the call of [b] succeeds. *)
Definition failingWorld : World num :=
  world endpoint noUpstream
        (fun n => match n with
                  | O => inl (asks [call "call_1" "a" "{}"; call "call_2" "b" "{}"]
                                   (usageOf 2 3 5))
                  | S _ => inl (says "done" (usageOf 1 1 2))
                  end)
        (fun _ i name => match i with
                         | O => Rejects (plainError "boom")
                         | S _ => succeeds (JStr name)
                         end)
        fifo.

Definition failingFrame : Frame := requestFrame failingWorld twoToolRequest.

Definition failingStart : LoopState :=
  initialState failingFrame
    (asks [call "call_1" "a" "{}"; call "call_2" "b" "{}"] (usageOf 2 3 5)) 0 0.

(** One tool is defined; the model calls it and a tool nobody defined. *)
Definition ghostWorld : World num :=
  world endpoint noUpstream
        (fun n => match n with
                  | O => inl (asks [call "call_1" "ghost" "{}"; call "call_2" "a" "{}"]
                                   (usageOf 2 3 5))
                  | S _ => inl (says "done" (usageOf 1 1 2))
                  end)
        (fun _ _ name => succeeds (JStr name)) fifo.

Definition ghostFrame : Frame := requestFrame ghostWorld oneToolRequest.

Definition ghostStart : LoopState :=
  initialState ghostFrame
    (asks [call "call_1" "ghost" "{}"; call "call_2" "a" "{}"] (usageOf 2 3 5)) 0 0.

(** A request for model [m] that brings its own endpoint. *)
Definition requestAt (m endpointOverride : string) : ProviderRequest num :=
  {| model := m;
     systemPrompt := None;
     context := None;
     messages := Some [Msg "user" "hi"];
     tools := None;
     temperature := None;
     maxTokens := None;
     responseFormat := None;
     stream := false;
     apiKey := None;
     azureEndpoint := Some endpointOverride |}.

(** The first response asks for tool [a]; the call that follows the tool
    batch fails with a plain [Error]. *)
Definition brokenWorld : World num :=
  world endpoint noUpstream
        (fun n => match n with
                  | O => inl (asks [call "call_a" "a" "{}"] (usageOf 2 3 5))
                  | S _ => inr (plainError "upstream down")
                  end)
        (fun _ _ _ => succeeds JNull) fifo.

(** The first response speaks and asks for tool [a]; the response after
    the tool batch has an empty content. *)
Definition quietWorld : World num :=
  world endpoint noUpstream
        (fun n => match n with
                  | O => inl {| choices :=
                                  [{| cm_content := Some "Let me check.";
                                      cm_tool_calls := Some [call "call_a" "a" "{}"] |}];
                                usage := usageOf 2 3 5 |}
                  | S _ => inl (says "" (usageOf 1 1 2))
                  end)
        (fun _ _ _ => succeeds JNull) fifo.

(** A tool-preparation helper that resolves a forced directive but names
    no forced tools. *)
Definition directiveOnly (fts : list FunctionTool) (ts : list ProviderTool)
  : PreparedTools :=
  {| prep_tools := Some fts;
     prep_toolChoice := Some (forceFunction "a");
     prep_forcedTools := None |}.

(** The world of that helper; the model calls tool [a] on its first two
    turns. *)
Definition directiveWorld : World num :=
  let w := world endpoint noUpstream
             (fun n => match n with
                       | 0%nat | 1%nat =>
                           inl (asks [call "call_a" "a" "{}"]
                                              (usageOf 1 1 2))
                       | _ => inl (says "done" (usageOf 1 1 2))
                       end)
             (fun _ _ name => succeeds (JStr name)) fifo in
  {| env_LITELLM_BASE_URL := env_LITELLM_BASE_URL w;
     env_LITELLM_API_KEY := env_LITELLM_API_KEY w;
     onClient := onClient w;
     Date_now := Date_now w;
     toISOString := toISOString w;
     JSON_parse := JSON_parse w;
     JSON_stringify := JSON_stringify w;
     float_of_Z := float_of_Z w;
     MAX_TOOL_ITERATIONS := MAX_TOOL_ITERATIONS w;
     isProviderBlacklisted := isProviderBlacklisted w;
     isModelBlacklisted := isModelBlacklisted w;
     prepareToolsWithUsageControl := directiveOnly;
     prepareToolExecution := prepareToolExecution w;
     calculateCost := calculateCost w;
     fetch := fetch w;
     chat_create := chat_create w;
     chat_stream := chat_stream w;
     executeTool := executeTool w;
     settleRank := settleRank w |}.

End Examples.

(* ===================================================================== *)
(** ** Properties: auxiliary facts *)
(* ===================================================================== *)

Section Facts.

Context {float : Type}.
Variable W : World float.

Lemma truthy_false_iff (s : string) : truthy s = false <-> s = "".
Proof. destruct s; simpl; split; congruence. Qed.

Lemma dropPrefix_app (p s : string) : dropPrefix p (p ++ s)%string = Some s.
Proof.
  induction p as [|a p IH]; simpl; [reflexivity|].
  rewrite Ascii.eqb_refl. exact IH.
Qed.

Lemma stripProviderPrefix_prefixed (m : string) :
  stripProviderPrefix ("litellm/" ++ m)%string = m.
Proof. unfold stripProviderPrefix. now rewrite dropPrefix_app. Qed.

Lemma envBaseUrl_absent :
  truthyOpt (env_LITELLM_BASE_URL W) = false -> envBaseUrl W = "".
Proof.
  unfold envBaseUrl, orStr, truthyOpt.
  destruct (env_LITELLM_BASE_URL W) as [u|]; [|reflexivity].
  intros H. now rewrite H.
Qed.

Lemma GET_degraded : routeDegraded W -> GET W = NextResponse_json [].
Proof.
  unfold GET, routeDegraded, upstreamModels.
  intros [Hb | [Ha | [(st & txt & body & Hf) | (e & Hf)]]].
  - now rewrite Hb.
  - destruct (isProviderBlacklisted W "litellm"); [reflexivity|].
    now rewrite (envBaseUrl_absent Ha).
  - destruct (isProviderBlacklisted W "litellm"); [reflexivity|].
    destruct (truthy (envBaseUrl W)); [|reflexivity]. cbn [negb].
    now rewrite Hf.
  - destruct (isProviderBlacklisted W "litellm"); [reflexivity|].
    destruct (truthy (envBaseUrl W)); [|reflexivity]. cbn [negb].
    now rewrite Hf.
Qed.

(** *** The clock and the call log *)

Lemma now_sent (s : Sys) : sent (snd (now W s)) = sent s.
Proof. reflexivity. Qed.

Lemma now_ticks (s : Sys) : ticks (snd (now W s)) = S (ticks s).
Proof. reflexivity. Qed.

Lemma startToolCall_sent (req : ProviderRequest float) (tc : ToolCall) (s : Sys) :
  sent (snd (startToolCall W req tc s)) = sent s.
Proof.
  unfold startToolCall. simpl.
  destruct (JSON_parse W (tc_arguments tc)); simpl; [|reflexivity].
  destruct (findTool req (tc_name tc)); simpl; [|reflexivity].
  destruct (prepareToolExecution W p j req) as [[tp ep]|e]; reflexivity.
Qed.

Lemma startToolCalls_sent (req : ProviderRequest float) (tcs : list ToolCall) (s : Sys) :
  sent (snd (startToolCalls W req tcs s)) = sent s.
Proof.
  revert s. induction tcs as [|tc tcs IH]; intros s; simpl; [reflexivity|].
  destruct (startToolCall W req tc s) as [d s1] eqn:E1.
  destruct (startToolCalls W req tcs s1) as [ds s2] eqn:E2. simpl.
  specialize (IH s1). rewrite E2 in IH. simpl in IH. rewrite IH.
  pose proof (startToolCall_sent req tc s) as H. now rewrite E1 in H.
Qed.

Lemma startToolCalls_length (req : ProviderRequest float) (tcs : list ToolCall) (s : Sys) :
  length (fst (startToolCalls W req tcs s)) = length tcs.
Proof.
  revert s. induction tcs as [|tc tcs IH]; intros s; simpl; [reflexivity|].
  destruct (startToolCall W req tc s) as [d s1].
  specialize (IH s1).
  destruct (startToolCalls W req tcs s1) as [ds s2]. simpl in *. now rewrite IH.
Qed.

Lemma finishFrom_length (b : nat) (aw : list nat) (t0 i : nat) (ds : list Started) :
  length (finishFrom W b aw t0 i ds) = length ds.
Proof.
  revert i. induction ds as [|d ds IH]; intros i; simpl; [reflexivity|].
  now rewrite IH.
Qed.

Lemma executeToolCalls_sent (req : ProviderRequest float) (b : nat)
  (tcs : list ToolCall) (s : Sys) :
  sent (snd (executeToolCalls W req b tcs s)) = sent s.
Proof.
  unfold executeToolCalls.
  pose proof (startToolCalls_sent req tcs s) as H.
  destruct (startToolCalls W req tcs s) as [ds s1]. simpl in *. exact H.
Qed.

Lemma executeToolCalls_length (req : ProviderRequest float) (b : nat)
  (tcs : list ToolCall) (s : Sys) :
  length (fst (executeToolCalls W req b tcs s)) = length tcs.
Proof.
  unfold executeToolCalls.
  pose proof (startToolCalls_length req tcs s) as H.
  destruct (startToolCalls W req tcs s) as [ds s1]. simpl in *.
  now rewrite length_map, finishFrom_length.
Qed.

(** *** The [for] loop over the settled results *)

Lemma executions_app (l1 l2 : list (Settled (option ToolExecution))) :
  executions (l1 ++ l2) = executions l1 ++ executions l2.
Proof. unfold executions. apply flat_map_app. Qed.

Lemma fold_pushSettled (rs : list (Settled (option ToolExecution))) (st : LoopState) :
  fold_left (pushSettled W) rs st =
  {| currentResponse := currentResponse st;
     content := content st;
     tokens := tokens st;
     toolCalls := toolCalls st ++ map (toolCallRecord W) (executions rs);
     toolResults :=
       toolResults st ++
       map (fun v => tr_output (te_result v))
           (filter (fun v => tr_success (te_result v)) (executions rs));
     currentMessages := currentMessages st ++ map (toolMessage W) (executions rs);
     iterationCount := iterationCount st;
     modelTime := modelTime st;
     toolsTime := toolsTime st;
     timeSegments := timeSegments st ++ map toolSegment (executions rs);
     forced := forced st |}.
Proof.
  revert st. induction rs as [|r rs IH]; intros st.
  - simpl. rewrite !app_nil_r. now destruct st.
  - change (fold_left (pushSettled W) (r :: rs) st)
      with (fold_left (pushSettled W) rs (pushSettled W st r)).
    rewrite IH. destruct r as [[v|]|e]; simpl; try reflexivity.
    destruct (tr_success (te_result v)); simpl; rewrite <- ?app_assoc; reflexivity.
Qed.

Lemma loopPass_cap (fr : Frame) (st : LoopState) (s : Sys) :
  (MAX_TOOL_ITERATIONS W <= iterationCount st)%nat ->
  loopPass W fr st s = Exit CapReached st s.
Proof.
  intros H. unfold loopPass. apply Nat.ltb_ge in H. now rewrite H.
Qed.

(** *** One pass of the loop, when the response carries tool calls *)

Lemma loopPass_calls (fr : Frame) (st : LoopState) (s : Sys) (tc : ToolCall)
  (tcs : list ToolCall) :
  (iterationCount st < MAX_TOOL_ITERATIONS W)%nat ->
  responseToolCalls (currentResponse st) = Some (tc :: tcs) ->
  loopPass W fr st s =
  match chat_create W (litellm fr) (length (sent s))
                    (nextPayloadOf W fr st s (tc :: tcs)) with
  | inr e => Raised e (sysAfterPass W fr st s (tc :: tcs) 2)
  | inl response =>
      Again (stateAfterPass W fr st s (tc :: tcs) response)
            (sysAfterPass W fr st s (tc :: tcs) 3)
  end.
Proof.
  intros Hlt Hcalls.
  unfold loopPass.
  apply Nat.ltb_lt in Hlt. rewrite Hlt, Hcalls.
  unfold stateAfterPass, sysAfterPass, nextPayloadOf, messagesAfterBatch, batchOf.
  pose proof (executeToolCalls_sent (request fr) (iterationCount st) (tc :: tcs)
                (snd (now W s))) as Hsent.
  cbn [now fst snd] in *.
  destruct (executeToolCalls W (request fr) (iterationCount st) (tc :: tcs) _)
    as [rs s2] eqn:Ers.
  cbn [fst snd sent ticks] in *.
  rewrite fold_pushSettled. cbn.
  unfold create. cbn. rewrite Hsent, <- !app_assoc. cbn.
  destruct (chat_create W (litellm fr) (length (sent s)) _) as [response|e];
    reflexivity.
Qed.

(** Whatever a pass that goes on has done, it is this. *)
Lemma loopPass_Again_inv (fr : Frame) (st : LoopState) (s : Sys)
  (st' : LoopState) (s' : Sys) :
  loopPass W fr st s = Again st' s' ->
  exists tc tcs response,
    (iterationCount st < MAX_TOOL_ITERATIONS W)%nat
    /\ responseToolCalls (currentResponse st) = Some (tc :: tcs)
    /\ chat_create W (litellm fr) (length (sent s))
                   (nextPayloadOf W fr st s (tc :: tcs)) = inl response
    /\ st' = stateAfterPass W fr st s (tc :: tcs) response
    /\ s' = sysAfterPass W fr st s (tc :: tcs) 3.
Proof.
  intros H.
  destruct (Nat.ltb_spec (iterationCount st) (MAX_TOOL_ITERATIONS W)) as [Hlt|Hge].
  - destruct (responseToolCalls (currentResponse st)) as [[|tc tcs]|] eqn:E.
    + unfold loopPass in H. apply Nat.ltb_lt in Hlt. rewrite Hlt, E in H.
      discriminate.
    + rewrite (loopPass_calls fr st s tc tcs Hlt E) in H.
      destruct (chat_create W (litellm fr) (length (sent s)) _)
        as [response|e] eqn:Ec; [|discriminate].
      injection H as <- <-. exists tc, tcs, response. repeat split; assumption.
    + unfold loopPass in H. apply Nat.ltb_lt in Hlt. rewrite Hlt, E in H.
      discriminate.
  - rewrite (loopPass_cap fr st s Hge) in H. discriminate.
Qed.

Lemma hasToolCalls_true (r : Completion) :
  hasToolCalls r = true ->
  exists tc tcs, responseToolCalls r = Some (tc :: tcs).
Proof.
  unfold hasToolCalls. destruct (responseToolCalls r) as [[|tc tcs]|];
    try discriminate. intros _. now exists tc, tcs.
Qed.

Lemma loopPass_no_calls (fr : Frame) (st : LoopState) (s : Sys) :
  (iterationCount st < MAX_TOOL_ITERATIONS W)%nat ->
  hasToolCalls (currentResponse st) = false ->
  exists st',
    loopPass W fr st s = Exit NoToolCalls st' s
    /\ currentResponse st' = currentResponse st
    /\ tokens st' = tokens st
    /\ toolCalls st' = toolCalls st
    /\ currentMessages st' = currentMessages st
    /\ iterationCount st' = iterationCount st
    /\ timeSegments st' = timeSegments st
    /\ content st' = updatedContent fr (currentResponse st) (content st).
Proof.
  intros Hlt Hno. unfold loopPass. apply Nat.ltb_lt in Hlt. rewrite Hlt.
  unfold hasToolCalls in Hno.
  destruct (responseToolCalls (currentResponse st)) as [[|tc tcs]|];
    try discriminate; eexists; (split; [reflexivity|]); cbn; repeat split.
Qed.

(** A pass that executes a batch issues exactly one model call, and goes
    on exactly when that call returns. *)
Lemma loopPass_step (fr : Frame) (st : LoopState) (s : Sys) :
  (iterationCount st < MAX_TOOL_ITERATIONS W)%nat ->
  hasToolCalls (currentResponse st) = true ->
  (exists e s', loopPass W fr st s = Raised e s'
                /\ length (sent s') = S (length (sent s)))
  \/ (exists st' s', loopPass W fr st s = Again st' s'
                     /\ iterationCount st' = S (iterationCount st)
                     /\ length (sent s') = S (length (sent s))
                     /\ exists p, chat_create W (litellm fr) (length (sent s)) p
                                  = inl (currentResponse st')).
Proof.
  intros Hlt Hcalls. destruct (hasToolCalls_true _ Hcalls) as (tc & tcs & E).
  rewrite (loopPass_calls fr st s tc tcs Hlt E). cbv zeta.
  destruct (chat_create W (litellm fr) (length (sent s)) _) as [r|e] eqn:Ec.
  - right. eexists. eexists. split; [reflexivity|]. cbn.
    rewrite length_app. cbn. repeat split; try lia.
    eexists. exact Ec.
  - left. eexists. eexists. split; [reflexivity|]. cbn.
    rewrite length_app. cbn. lia.
Qed.

(** The loop is left after at most [MAX_TOOL_ITERATIONS - iterationCount]
    passes; any larger amount of fuel gives the same result. *)
Lemma toolLoop_terminates (fr : Frame) (d : nat) :
  forall st s,
    (MAX_TOOL_ITERATIONS W - iterationCount st = d)%nat ->
    (iterationCount st <= MAX_TOOL_ITERATIONS W)%nat ->
    exists p,
      (forall fuel, (d < fuel)%nat -> toolLoop W fuel fr st s = Some p)
      /\ endsWithin W st s p.
Proof.
  induction d as [|d IH]; intros st s Hd Hle.
  - exists (Exit CapReached st s). split.
    + intros [|fuel] Hf; [lia|]. cbn [toolLoop].
      rewrite loopPass_cap by lia. reflexivity.
    + cbn. split; lia.
  - assert (Hlt : (iterationCount st < MAX_TOOL_ITERATIONS W)%nat) by lia.
    destruct (hasToolCalls (currentResponse st)) eqn:Hcalls.
    + destruct (loopPass_step fr st s Hlt Hcalls)
        as [(e & s' & Hp & Hs) | (st' & s' & Hp & Hc & Hs & _)].
      * exists (Raised e s'). split.
        -- intros [|fuel] Hf; [lia|]. cbn [toolLoop]. now rewrite Hp.
        -- cbn. lia.
      * destruct (IH st' s') as (p & Hfuel & Hend); [lia|lia|].
        exists p. split.
        -- intros [|fuel] Hf; [lia|]. cbn [toolLoop]. rewrite Hp.
           apply Hfuel. lia.
        -- destruct p as [why st2 s2|st2 s2|e s2]; cbn in *; lia.
    + destruct (loopPass_no_calls fr st s Hlt Hcalls) as (st' & Hp & Hrest).
      exists (Exit NoToolCalls st' s). split.
      * intros [|fuel] Hf; [lia|]. cbn [toolLoop]. now rewrite Hp.
      * cbn. destruct Hrest as (_ & _ & _ & _ & Hc & _). lia.
Qed.

(** When the model keeps asking for tools, the loop is left through the
    cap, with a response that still carries tool calls. *)
Lemma toolLoop_cap (fr : Frame) (d : nat) :
  keepsAsking W fr ->
  forall st s,
    (MAX_TOOL_ITERATIONS W - iterationCount st = d)%nat ->
    (iterationCount st <= MAX_TOOL_ITERATIONS W)%nat ->
    hasToolCalls (currentResponse st) = true ->
    exists st' s',
      (forall fuel, (d < fuel)%nat ->
                    toolLoop W fuel fr st s = Some (Exit CapReached st' s'))
      /\ iterationCount st' = MAX_TOOL_ITERATIONS W
      /\ hasToolCalls (currentResponse st') = true.
Proof.
  intros Hask. induction d as [|d IH]; intros st s Hd Hle Hcalls.
  - exists st, s. split; [|split; [lia|exact Hcalls]].
    intros [|fuel] Hf; [lia|]. cbn [toolLoop].
    rewrite loopPass_cap by lia. reflexivity.
  - assert (Hlt : (iterationCount st < MAX_TOOL_ITERATIONS W)%nat) by lia.
    destruct (loopPass_step fr st s Hlt Hcalls)
      as [(e & s' & Hp & _) | (st' & s' & Hp & Hc & _ & (p & Hr))].
    + exfalso. destruct (hasToolCalls_true _ Hcalls) as (tc & tcs & E).
      rewrite (loopPass_calls fr st s tc tcs Hlt E) in Hp. cbv zeta in Hp.
      destruct (Hask (length (sent s)) (nextPayloadOf W fr st s (tc :: tcs)))
        as (r & Hr & _).
      rewrite Hr in Hp. discriminate.
    + assert (Hcalls' : hasToolCalls (currentResponse st') = true).
      { destruct (Hask (length (sent s)) p) as (r & Hr' & Hh).
        rewrite Hr in Hr'. injection Hr' as ->. exact Hh. }
      destruct (IH st' s') as (st2 & s2 & Hfuel & Hrest); [lia|lia|exact Hcalls'|].
      exists st2, s2. split; [|exact Hrest].
      intros [|fuel] Hf; [lia|]. cbn [toolLoop]. rewrite Hp. apply Hfuel. lia.
Qed.

Lemma loopPass_Exit_inv (fr : Frame) (st : LoopState) (s : Sys)
  (why : ExitReason) (st' : LoopState) (s' : Sys) :
  loopPass W fr st s = Exit why st' s' ->
  s' = s
  /\ tokens st' = tokens st
  /\ toolCalls st' = toolCalls st
  /\ currentMessages st' = currentMessages st
  /\ iterationCount st' = iterationCount st
  /\ timeSegments st' = timeSegments st
  /\ forced st' = forced st.
Proof.
  intros H.
  destruct (Nat.ltb_spec (iterationCount st) (MAX_TOOL_ITERATIONS W)) as [Hlt|Hge].
  - destruct (responseToolCalls (currentResponse st)) as [[|tc tcs]|] eqn:E.
    + unfold loopPass in H. apply Nat.ltb_lt in Hlt. rewrite Hlt, E in H.
      injection H as _ <- <-. repeat split.
    + rewrite (loopPass_calls fr st s tc tcs Hlt E) in H.
      destruct (chat_create W (litellm fr) (length (sent s)) _); discriminate.
    + unfold loopPass in H. apply Nat.ltb_lt in Hlt. rewrite Hlt, E in H.
      injection H as _ <- <-. repeat split.
  - rewrite (loopPass_cap fr st s Hge) in H. injection H as _ <- <-.
    repeat split.
Qed.

(** A pass that runs a batch sends exactly the payload [nextPayloadOf],
    whether or not the call then returns. *)
Lemma loopPass_sends (fr : Frame) (st : LoopState) (s : Sys) (tc : ToolCall)
  (tcs : list ToolCall) :
  (iterationCount st < MAX_TOOL_ITERATIONS W)%nat ->
  responseToolCalls (currentResponse st) = Some (tc :: tcs) ->
  sent (passSys (loopPass W fr st s))
  = sent s ++ [nextPayloadOf W fr st s (tc :: tcs)].
Proof.
  intros Hlt E. rewrite (loopPass_calls fr st s tc tcs Hlt E).
  destruct (chat_create W (litellm fr) (length (sent s)) _); reflexivity.
Qed.

Lemma includes_In (l : list string) (x : string) :
  includes l x = true <-> In x l.
Proof.
  unfold includes. rewrite existsb_exists. split.
  - intros (y & Hy & E). apply String.eqb_eq in E. now subst.
  - intros H. exists x. split; [exact H|apply String.eqb_refl].
Qed.

(** *** The batch, call by call *)

Lemma startToolCall_fate (req : ProviderRequest float) (tc : ToolCall) (s : Sys) :
  fst (startToolCall W req tc s)
  = match callFate W req tc with
    | Dropped => Finished None
    | FailsEarly msg =>
        Finished (Some (failedExecution tc msg (Date_now W (ticks s))
                                        (Date_now W (S (ticks s)))))
    | Invoked toolParams executionParams =>
        Awaiting tc toolParams executionParams (Date_now W (ticks s))
    end.
Proof.
  unfold startToolCall, callFate. cbn [now].
  destruct (JSON_parse W (tc_arguments tc)) as [args|m]; [|reflexivity].
  destruct (findTool req (tc_name tc)) as [tool|]; [|reflexivity].
  destruct (prepareToolExecution W tool args req) as [[tp ep]|e]; reflexivity.
Qed.

Lemma finishFrom_settled (req : ProviderRequest float) (b : nat) (aw : list nat)
  (t0 : nat) (tcs : list ToolCall) :
  forall s j,
    SettledFrom W req b j tcs
      (finishFrom W b aw t0 j (fst (startToolCalls W req tcs s))).
Proof.
  induction tcs as [|tc tcs IH]; intros s j.
  - constructor.
  - cbn [startToolCalls].
    pose proof (startToolCall_fate req tc s) as Hd.
    destruct (startToolCall W req tc s) as [d s1]. cbn [fst] in Hd.
    specialize (IH s1 (S j)).
    destruct (startToolCalls W req tcs s1) as [ds s2]. cbn [fst] in *.
    cbn [finishFrom]. subst d.
    destruct (callFate W req tc) as [|msg|tp ep] eqn:Hfate.
    + replace (finishToolCall W b aw t0 j (Finished None))
        with (settledValue W req b j tc 0 0)
        by (unfold settledValue; now rewrite Hfate).
      now constructor.
    + replace (finishToolCall W b aw t0 j _)
        with (settledValue W req b j tc (Date_now W (ticks s))
                           (Date_now W (S (ticks s))))
        by (unfold settledValue; now rewrite Hfate).
      now constructor.
    + replace (finishToolCall W b aw t0 j _)
        with (settledValue W req b j tc (Date_now W (ticks s))
                           (Date_now W (t0 + settlePosition W b aw j)))
        by (unfold settledValue; rewrite Hfate; reflexivity).
      now constructor.
Qed.

(** The settled results of a batch are the values of its calls, position
    by position, each wrapped as a fulfilled promise. *)
Lemma executeToolCalls_settled (req : ProviderRequest float) (b : nat)
  (tcs : list ToolCall) (s : Sys) :
  exists vs,
    fst (executeToolCalls W req b tcs s) = map (@fulfilled _) vs
    /\ SettledFrom W req b 0 tcs vs.
Proof.
  unfold executeToolCalls.
  pose proof (fun aw t0 => finishFrom_settled req b aw t0 tcs s 0) as H.
  destruct (startToolCalls W req tcs s) as [ds s1]. cbn [fst] in *.
  eexists. split; [reflexivity|apply H].
Qed.

Lemma SettledFrom_length (req : ProviderRequest float) (b j : nat)
  (tcs : list ToolCall) (vs : list (option ToolExecution)) :
  SettledFrom W req b j tcs vs -> length vs = length tcs.
Proof. induction 1; cbn; congruence. Qed.

Lemma SettledFrom_nth (req : ProviderRequest float) (b j : nat)
  (tcs : list ToolCall) (vs : list (option ToolExecution)) :
  SettledFrom W req b j tcs vs ->
  forall i tc,
    nth_error tcs i = Some tc ->
    exists startTime endTime,
      nth_error vs i = Some (settledValue W req b (j + i) tc startTime endTime).
Proof.
  induction 1 as [j|j tc0 tcs vs st en H IH]; intros i tc Hi.
  - destruct i; discriminate.
  - destruct i as [|i]; cbn in Hi.
    + injection Hi as ->. exists st, en. now rewrite Nat.add_0_r.
    + destruct (IH i tc Hi) as (st' & en' & E).
      exists st', en'. cbn. rewrite E. f_equal. f_equal. lia.
Qed.

Lemma settledValue_call (req : ProviderRequest float) (b i : nat) (tc : ToolCall)
  (st en : Z) :
  match settledValue W req b i tc st en with
  | Some v => recorded W req tc = true /\ te_toolCall v = tc
              /\ te_toolName v = tc_name tc
  | None => recorded W req tc = false
  end.
Proof.
  unfold settledValue, recorded.
  destruct (callFate W req tc) as [|msg|tp ep]; cbn; auto.
  destruct (executeTool W b i (tc_name tc) ep true); cbn; auto.
Qed.

(** The executions of a batch are those of its recorded calls, in the
    order of the calls. *)
Lemma SettledFrom_order (req : ProviderRequest float) (b j : nat)
  (tcs : list ToolCall) (vs : list (option ToolExecution)) :
  SettledFrom W req b j tcs vs ->
  map te_toolCall (executions (map (@fulfilled _) vs))
  = filter (recorded W req) tcs.
Proof.
  induction 1 as [j|j tc tcs vs st en H IH]; [reflexivity|].
  cbn [map executions flat_map filter].
  pose proof (settledValue_call req b j tc st en) as Hv.
  destruct (settledValue W req b j tc st en) as [v|].
  - destruct Hv as (Hrec & Hcall & _). rewrite Hrec. cbn.
    rewrite Hcall. f_equal. exact IH.
  - rewrite Hv. exact IH.
Qed.

Lemma SettledFrom_names (req : ProviderRequest float) (b j : nat)
  (tcs : list ToolCall) (vs : list (option ToolExecution)) :
  SettledFrom W req b j tcs vs ->
  map te_toolName (executions (map (@fulfilled _) vs))
  = map tc_name (filter (recorded W req) tcs).
Proof.
  induction 1 as [j|j tc tcs vs st en H IH]; [reflexivity|].
  cbn [map executions flat_map filter].
  pose proof (settledValue_call req b j tc st en) as Hv.
  destruct (settledValue W req b j tc st en) as [v|].
  - destruct Hv as (Hrec & _ & Hname). rewrite Hrec. cbn.
    rewrite Hname. f_equal. exact IH.
  - rewrite Hv. exact IH.
Qed.

Lemma batchOf_settled (fr : Frame) (st : LoopState) (s : Sys)
  (calls : list ToolCall) :
  exists vs,
    fst (batchOf W fr st s calls) = map (@fulfilled _) vs
    /\ SettledFrom W (request fr) (iterationCount st) 0 calls vs.
Proof. unfold batchOf. apply executeToolCalls_settled. Qed.

Lemma findTool_unknown (req : ProviderRequest float) (name : string) :
  ~ In name (map tool_id (requestToolList req)) -> findTool req name = None.
Proof.
  unfold findTool, requestToolList. intros H.
  destruct (tools req) as [ts|]; [|reflexivity].
  destruct (find _ ts) as [t|] eqn:E; [|reflexivity].
  exfalso. apply H. apply find_some in E. destruct E as (Hin & Heq).
  apply String.eqb_eq in Heq. rewrite <- Heq. now apply in_map.
Qed.

Lemma executions_In (rs : list (Settled (option ToolExecution))) (i : nat)
  (v : ToolExecution) :
  nth_error rs i = Some (fulfilled (Some v)) -> In v (executions rs).
Proof.
  intros H. unfold executions. apply in_flat_map.
  exists (fulfilled (Some v)). split; [now apply nth_error_In with i|now left].
Qed.

Lemma executions_without (rs : list (Settled (option ToolExecution))) (i : nat) :
  nth_error rs i = Some (fulfilled None) ->
  executions rs = executions (firstn i rs) ++ executions (skipn (S i) rs).
Proof.
  revert i. induction rs as [|r rs IH]; intros i H.
  - destruct i; discriminate.
  - destruct i as [|i]; cbn in H.
    + injection H as ->. reflexivity.
    + cbn [firstn skipn]. change (r :: rs) with ([r] ++ rs).
      change (r :: firstn i rs) with ([r] ++ firstn i rs).
      rewrite !executions_app, (IH i H), app_assoc. reflexivity.
Qed.

(** In a frame built from a request, a directive the loop sends is an
    object only if the original directive is one. *)
Lemma nextToolChoice_object (fr : @Frame float) (fs : ForcedState) :
  originalToolChoice fr = p_tool_choice (payload fr) ->
  isObjectChoice (nextToolChoice fr fs) = true ->
  isObjectChoice (originalToolChoice fr) = true.
Proof.
  intros Horig. unfold nextToolChoice.
  destruct (isObjectChoice (originalToolChoice fr)) eqn:E; [reflexivity|].
  cbn [andb]. intros H. rewrite <- Horig, E in H. discriminate.
Qed.

(** *** Counting segments and batches *)

Lemma modelSegments_tools (vs : list ToolExecution) :
  modelSegments (map toolSegment vs) = [].
Proof. induction vs as [|v vs IH]; [reflexivity|exact IH]. Qed.

Lemma toolSegments_tools (vs : list ToolExecution) :
  toolSegments (map toolSegment vs) = map toolSegment vs.
Proof.
  induction vs as [|v vs IH]; [reflexivity|].
  cbn. unfold toolSegments in IH. now rewrite IH.
Qed.

Lemma toolBatches_toolMessages (vs : list ToolExecution) :
  toolBatches (map (toolMessage W) vs) = [].
Proof. induction vs as [|v vs IH]; [reflexivity|exact IH]. Qed.

Lemma toolMessageIds_toolMessages (vs : list ToolExecution) :
  toolMessageIds (map (toolMessage W) vs) = map (fun v => tc_id (te_toolCall v)) vs.
Proof.
  induction vs as [|v vs IH]; [reflexivity|]. cbn.
  unfold toolMessageIds in IH. now rewrite IH.
Qed.

Lemma toolMessageIds_app (l1 l2 : list Message) :
  toolMessageIds (l1 ++ l2) = toolMessageIds l1 ++ toolMessageIds l2.
Proof. unfold toolMessageIds. apply flat_map_app. Qed.

(** The loop under a model that asks for tools on its first [N] turns
    and answers plainly on the next: from a state that has made [i]
    passes, [N - i] more passes follow and the loop is left by [break]. *)
Lemma toolLoop_until_plain (fr : Frame) (r : nat -> Completion) (N c0 : nat) :
  (N < MAX_TOOL_ITERATIONS W)%nat ->
  (forall k, (k < N)%nat -> hasToolCalls (r k) = true) ->
  hasToolCalls (r N) = false ->
  (forall k p, (k < N)%nat ->
               chat_create W (litellm fr) (c0 + k) p = inl (r (S k))) ->
  forall d st s,
    (N - iterationCount st = d)%nat ->
    (iterationCount st <= N)%nat ->
    currentResponse st = r (iterationCount st) ->
    length (sent s) = (c0 + iterationCount st)%nat ->
    exists st' s',
      (forall fuel, (d < fuel)%nat ->
                    toolLoop W fuel fr st s = Some (Exit NoToolCalls st' s'))
      /\ iterationCount st' = N
      /\ currentResponse st' = r N
      /\ length (modelSegments (timeSegments st'))
         = (length (modelSegments (timeSegments st)) + d)%nat
      /\ length (toolBatches (currentMessages st'))
         = (length (toolBatches (currentMessages st)) + d)%nat
      /\ length (sent s') = (length (sent s) + d)%nat
      /\ exists batches,
           length batches = d
           /\ BatchesFrom W (request fr) r (iterationCount st) batches
           /\ currentMessages st'
              = currentMessages st ++ flat_map (batchMessages W) batches
           /\ toolCalls st'
              = toolCalls st ++ map (toolCallRecord W) (flat_map snd batches)
           /\ toolSegments (timeSegments st')
              = toolSegments (timeSegments st)
                ++ map toolSegment (flat_map snd batches).
Proof.
  intros HN Hasks Hplain Hchat.
  induction d as [|d IH]; intros st s Hd Hle Hr Hs.
  - assert (Hi : iterationCount st = N) by lia.
    assert (Hno : hasToolCalls (currentResponse st) = false)
      by (rewrite Hr, Hi; exact Hplain).
    destruct (loopPass_no_calls fr st s ltac:(lia) Hno)
      as (st' & Hp & Hcr & _ & Htc & Hm & Hc & Hts & _).
    exists st', s. split; [|repeat split].
    + intros [|fuel] Hf; [lia|]. cbn [toolLoop]. now rewrite Hp.
    + lia.
    + now rewrite Hcr, Hr, Hi.
    + rewrite Hts. lia.
    + rewrite Hm. lia.
    + lia.
    + exists []. cbn [length flat_map map BatchesFrom].
      rewrite Hm, Htc, Hts, !app_nil_r. repeat split.
  - assert (Hlt : (iterationCount st < N)%nat) by lia.
    assert (Hcalls : hasToolCalls (currentResponse st) = true)
      by (rewrite Hr; apply Hasks; exact Hlt).
    destruct (hasToolCalls_true _ Hcalls) as (tc & tcs & E).
    pose proof (loopPass_calls fr st s tc tcs ltac:(lia) E) as Hp.
    cbv zeta in Hp. rewrite Hs, (Hchat _ _ Hlt) in Hp.
    match type of Hp with _ = Again ?st1 ?s1 =>
      destruct (IH st1 s1)
        as (st' & s' & Hfuel & Hc' & Hr' & Hseg & Hbat & Hsent
            & batches & Hlen & Hfrom & Hmsgs & Hrecs & Htools)
    end.
    + cbn. lia.
    + cbn. lia.
    + reflexivity.
    + cbn. rewrite length_app. cbn. lia.
    + exists st', s'. split; [|repeat split].
      * intros [|fuel] Hf; [lia|]. cbn [toolLoop]. rewrite Hp. apply Hfuel. lia.
      * exact Hc'.
      * exact Hr'.
      * rewrite Hseg. unfold stateAfterPass. cbn [timeSegments].
        unfold modelSegments.
        rewrite !filter_app. fold (modelSegments (map toolSegment
          (executions (fst (batchOf W fr st s (tc :: tcs)))))).
        rewrite modelSegments_tools. cbn. rewrite !length_app. cbn. lia.
      * rewrite Hbat. unfold stateAfterPass. cbn [currentMessages].
        unfold messagesAfterBatch, toolBatches. rewrite !filter_app.
        fold (toolBatches (map (toolMessage W)
          (executions (fst (batchOf W fr st s (tc :: tcs)))))).
        rewrite toolBatches_toolMessages. cbn. rewrite !length_app. cbn. lia.
      * rewrite Hsent. cbn. rewrite length_app. cbn. lia.
      * exists ((tc :: tcs, executions (fst (batchOf W fr st s (tc :: tcs))))
                :: batches).
        unfold stateAfterPass in Hfrom, Hmsgs, Hrecs, Htools.
        cbn [iterationCount currentMessages toolCalls timeSegments]
          in Hfrom, Hmsgs, Hrecs, Htools.
        cbn [length BatchesFrom flat_map fst snd batchMessages].
        split; [now rewrite Hlen|]. split; [split; [|exact Hfrom]|].
        -- split; [rewrite <- Hr; exact E|].
           destruct (batchOf_settled fr st s (tc :: tcs)) as (ovs & Hrs & Hset).
           exists ovs. split; [exact Hset|now rewrite Hrs].
        -- split; [|split].
           ++ rewrite Hmsgs. unfold messagesAfterBatch.
              rewrite <- !app_assoc. reflexivity.
           ++ rewrite Hrecs, map_app, <- app_assoc. reflexivity.
           ++ rewrite Htools, map_app. unfold toolSegments at 1.
              rewrite !filter_app.
              fold (toolSegments (timeSegments st)).
              fold (toolSegments (map toolSegment
                (executions (fst (batchOf W fr st s (tc :: tcs)))))).
              rewrite toolSegments_tools. cbn [filter isToolSegment modelSegment
                seg_type]. rewrite app_nil_r, <- app_assoc. reflexivity.
Qed.

(** *** The buffered path of [executeRequest] *)

Lemma executeRequest_buffered (req : ProviderRequest float) (response : Completion)
  (why : ExitReason) (st : LoopState) (s : Sys) :
  truthy (requestBaseUrl W req) = true ->
  stream req = false ->
  chat_create W (requestClient W req) 0 (buildPayload W req) = inl response ->
  toolLoop W (S (MAX_TOOL_ITERATIONS W)) (requestFrame W req)
    (initialState (requestFrame W req) response (Date_now W 1)
                  (Date_now W 2 - Date_now W 1))
    {| ticks := 3; sent := [buildPayload W req] |}
  = Some (Exit why st s) ->
  executeRequest W req
  = Some (bufferedResponse W (requestFrame W req) (Date_now W 0)
            (Date_now W 2 - Date_now W 1) st s).
Proof.
  intros Hurl Hstream Hchat Hloop.
  unfold executeRequest, executeRequestFrom.
  rewrite Hurl, Hstream. cbn [negb andb now startSys ticks sent fst snd].
  unfold create. cbn [sent ticks length litellm payload requestFrame].
  rewrite Hchat. cbn [app now ticks sent].
  now rewrite Hloop.
Qed.

Lemma updatedContent_initial (fr : @Frame float) (response : Completion)
  (t0 t1 : Z) :
  updatedContent fr response (content (initialState fr response t0 t1))
  = content (initialState fr response t0 t1).
Proof.
  unfold updatedContent, initialState. cbn [content]. unfold orStr.
  destruct (responseContent response) as [c|]; [|reflexivity].
  destruct (truthy c) eqn:Hc; [|reflexivity]. now rewrite Hc.
Qed.

Lemma no_tools_payload (req : ProviderRequest float) :
  tools req = None \/ tools req = Some [] ->
  p_tools (buildPayload W req) = None
  /\ p_tool_choice (buildPayload W req) = None.
Proof.
  intros H. unfold buildPayload, activeTools, requestPreparedTools, requestTools.
  cbn [p_tools p_tool_choice]. destruct H as [-> | ->]; split; reflexivity.
Qed.

End Facts.

(* ===================================================================== *)
(** ** The [/models] route and configuration absence *)
(* ===================================================================== *)

(** C9.  The [/models] route always answers with status 200.  It answers
    [{models: []}] whenever the provider is blacklisted, the base endpoint
    is not configured, the upstream answers with a non-success status, or
    the upstream fetch throws.  When the upstream listing succeeds, the
    ids returned are exactly the upstream ids prefixed with [litellm/]
    that the blacklist filter lets through, in upstream order. *)
Theorem GET_empty_or_prefixed {float : Type} (W : World float) :
  resp_status (GET W) = 200
  /\ (routeDegraded W -> GET W = NextResponse_json [])
  /\ (forall st txt ids,
        isProviderBlacklisted W "litellm" = false ->
        truthy (envBaseUrl W) = true ->
        upstreamModels W = FetchResponse true st txt (Some ids) ->
        GET W = NextResponse_json (filterBlacklistedModels W (map prefixModel ids))
        /\ forall m, In m (resp_models_body (GET W)) <->
                     (exists id, In id ids /\ m = ("litellm/" ++ id)%string)
                     /\ isModelBlacklisted W m = false).
Proof.
  split; [|split].
  - unfold GET.
    destruct (isProviderBlacklisted W "litellm"); [reflexivity|].
    destruct (truthy (envBaseUrl W)); [|reflexivity]. cbn [negb].
    destruct (fetch W _ _) as [e|ok st txt body]; [reflexivity|].
    destruct ok; [|reflexivity]. destruct body; reflexivity.
  - apply GET_degraded.
  - intros st txt ids Hb Hu Hf.
    assert (Hget : GET W
                   = NextResponse_json (filterBlacklistedModels W (map prefixModel ids))).
    { unfold GET. unfold upstreamModels in Hf. now rewrite Hb, Hu, Hf. }
    split; [exact Hget|].
    intros m. rewrite Hget. cbn [resp_models_body NextResponse_json].
    unfold filterBlacklistedModels.
    rewrite filter_In, in_map_iff, negb_true_iff. unfold prefixModel.
    split.
    + intros [(id & Hid & Hin) Hok]. split; [|exact Hok].
      exists id. split; [exact Hin|]. now rewrite <- Hid.
    + intros [(id & Hin & Hid) Hok]. split; [|exact Hok].
      exists id. split; [|exact Hin]. now rewrite Hid.
Qed.

Lemma GET_empty_or_prefixed_witness :
  GET Examples.unavailableWorld = NextResponse_json []
  /\ GET Examples.listingWorld = NextResponse_json ["litellm/gpt-4"; "litellm/claude-3"].
Proof.
  split.
  - apply (proj1 (proj2 (GET_empty_or_prefixed Examples.unavailableWorld))).
    right; right; left.
    exists 503, "Service Unavailable", None. reflexivity.
  - apply (proj2 (proj2 (GET_empty_or_prefixed Examples.listingWorld))
             200 "OK" ["gpt-4"; "blocked"; "claude-3"]); reflexivity.
Defined.

(** The guard at the top of [executeRequest]. *)
Lemma executeRequest_guard {float : Type} (W : World float)
  (req : ProviderRequest float) :
  truthy (requestBaseUrl W req) = false ->
  executeRequest W req = Some (Thrown baseUrlRequired, startSys).
Proof.
  intros H. unfold executeRequest, executeRequestFrom. now rewrite H.
Qed.

(** C4 (as the code has it).  When no base endpoint is configured,
    discovery returns normally and leaves the registry as it found it, and
    the [/models] route answers [{models: []}] with status 200; request
    execution without an endpoint override, however, throws the error
    "LITELLM_BASE_URL is required for LiteLLM provider" before any call
    is issued. *)
Theorem configuration_absence {float : Type} (W : World float) :
  baseEndpointAbsent W ->
  (forall reg, initialize W reg = inl reg)
  /\ GET W = NextResponse_json []
  /\ (forall req : ProviderRequest float,
        truthyOpt (azureEndpoint req) = false ->
        executeRequest W req = Some (Thrown baseUrlRequired, startSys)).
Proof.
  intros Habs. pose proof (envBaseUrl_absent W Habs) as Hurl.
  split; [|split].
  - intros reg. unfold initialize. rewrite Hurl.
    destruct (onClient W); reflexivity.
  - apply GET_degraded. right; left. exact Habs.
  - intros req Hreq. apply executeRequest_guard.
    unfold requestBaseUrl. unfold envBaseUrl in Hurl.
    unfold truthyOpt in Hreq.
    destruct (azureEndpoint req) as [e|]; [rewrite Hreq|]; now rewrite Hurl.
Qed.

Lemma configuration_absence_witness :
  initialize Examples.unconfiguredWorld {| this_models := []; store_models := [] |}
  = inl {| this_models := []; store_models := [] |}
  /\ GET Examples.unconfiguredWorld = NextResponse_json []
  /\ executeRequest Examples.unconfiguredWorld
       (Examples.requestFor "litellm/gpt-4" None false)
     = Some (Thrown baseUrlRequired, startSys).
Proof.
  destruct (configuration_absence Examples.unconfiguredWorld) as (Hi & Hg & He);
    [reflexivity|].
  split; [apply Hi|]. split; [exact Hg|]. apply He. reflexivity.
Defined.

(** C4 (as stated) fails for request execution: with no base endpoint
    configured and no override in the request, [executeRequest] throws. *)
Lemma executeRequest_throws_when_unconfigured :
  baseEndpointAbsent Examples.unconfiguredWorld
  /\ azureEndpoint (Examples.requestFor "litellm/gpt-4" None false) = None
  /\ exists e,
       executeRequest Examples.unconfiguredWorld
         (Examples.requestFor "litellm/gpt-4" None false)
       = Some (Thrown e, startSys)
       /\ err_message e = "LITELLM_BASE_URL is required for LiteLLM provider".
Proof.
  split; [reflexivity|]. split; [reflexivity|].
  exists baseUrlRequired. split; reflexivity.
Qed.

(* ===================================================================== *)
(** ** Termination of the tool loop *)
(* ===================================================================== *)

(** C8.  Started with [iterationCount = 0], the tool loop is left after at
    most [MAX_TOOL_ITERATIONS] passes, each of which issues one model call:
    [MAX_TOOL_ITERATIONS + 1] evaluations of the loop condition always
    suffice, and more fuel changes nothing.  If the model asks for tool
    calls on every turn, the loop is left through the cap after exactly
    [MAX_TOOL_ITERATIONS] passes, with a last response that still carries
    tool calls. *)
Theorem toolLoop_bounded {float : Type} (W : World float) (fr : Frame)
  (st : LoopState) (s : Sys) :
  iterationCount st = 0%nat ->
  (exists p,
      (forall fuel, (MAX_TOOL_ITERATIONS W < fuel)%nat ->
                    toolLoop W fuel fr st s = Some p)
      /\ endsWithin W st s p)
  /\ (keepsAsking W fr ->
      hasToolCalls (currentResponse st) = true ->
      exists st' s',
        toolLoop W (S (MAX_TOOL_ITERATIONS W)) fr st s
        = Some (Exit CapReached st' s')
        /\ iterationCount st' = MAX_TOOL_ITERATIONS W
        /\ hasToolCalls (currentResponse st') = true).
Proof.
  intros H0. split.
  - apply (toolLoop_terminates W fr (MAX_TOOL_ITERATIONS W) st s); lia.
  - intros Hask Hcalls.
    destruct (toolLoop_cap W fr (MAX_TOOL_ITERATIONS W) Hask st s)
      as (st' & s' & Hfuel & Hrest); [lia|lia|exact Hcalls|].
    exists st', s'. split; [|exact Hrest]. apply Hfuel. lia.
Qed.

Lemma toolLoop_bounded_witness :
  exists st' s',
    toolLoop Examples.insistentWorld 21 Examples.insistentFrame
             Examples.insistentStart startSys
    = Some (Exit CapReached st' s')
    /\ iterationCount st' = 20%nat
    /\ hasToolCalls (currentResponse st') = true.
Proof.
  destruct (toolLoop_bounded Examples.insistentWorld Examples.insistentFrame
              Examples.insistentStart startSys eq_refl) as [_ H].
  apply H.
  - intros n p. eexists. split; reflexivity.
  - reflexivity.
Defined.

(** [executeRequest] always produces an outcome. *)
Lemma executeRequest_total {float : Type} (W : World float)
  (req : ProviderRequest float) :
  exists out, executeRequest W req = Some out.
Proof.
  unfold executeRequest, executeRequestFrom.
  destruct (negb (truthy (requestBaseUrl W req))); [eexists; reflexivity|].
  destruct (now W startSys) as [t0 s1].
  destruct (stream req && _)%bool; [eexists; reflexivity|].
  destruct (now W s1) as [t1 s2].
  destruct (create W _ _ s2) as [[r|e] s3]; [|eexists; reflexivity].
  destruct (now W s3) as [t2 s4].
  set (st0 := initialState _ _ _ _).
  destruct (toolLoop_terminates W (requestFrame W req) (MAX_TOOL_ITERATIONS W) st0 s4)
    as (p & Hfuel & _); [cbn; lia|cbn; lia|].
  rewrite (Hfuel (S (MAX_TOOL_ITERATIONS W))) by lia.
  destruct p; destruct (stream req); eexists; reflexivity.
Qed.

(* ===================================================================== *)
(** ** Batches and model segments *)
(* ===================================================================== *)



(** The same count, read off the buffered result of [executeRequest]:
    [N + 1] model calls are sent, the result reports [N + 1] iterations
    and carries [N + 1] model TimeSegments. *)
Lemma executeRequest_N_batches {float : Type} (W : World float)
  (req : ProviderRequest float) (r : nat -> Completion) (N : nat) :
  truthy (requestBaseUrl W req) = true ->
  stream req = false ->
  (N < MAX_TOOL_ITERATIONS W)%nat ->
  (forall k, (k < N)%nat -> hasToolCalls (r k) = true) ->
  hasToolCalls (r N) = false ->
  (forall k p, (k <= N)%nat ->
               chat_create W (requestClient W req) k p = inl (r k)) ->
  exists resp tm s,
    executeRequest W req = Some (Response resp, s)
    /\ res_timing resp = Some tm
    /\ tm_iterations tm = Some (S N)
    /\ length (modelSegments (tm_timeSegments tm)) = S N
    /\ length (sent s) = S N.
Proof.
  intros Hurl Hstream HN Hasks Hplain Hchat.
  set (fr := requestFrame W req).
  set (st0 := initialState fr (r 0%nat) (Date_now W 1) (Date_now W 2 - Date_now W 1)).
  set (s0 := {| ticks := 3; sent := [buildPayload W req] |}).
  destruct (toolLoop_until_plain W fr r N 1 HN Hasks Hplain) with (d := N)
    (st := st0) (s := s0)
    as (st' & s' & Hfuel & Hc & _ & Hseg & _ & Hsent & _).
  - intros k p Hk. apply (Hchat (S k) p). lia.
  - cbn. lia.
  - cbn. lia.
  - reflexivity.
  - reflexivity.
  - pose proof (executeRequest_buffered W req (r 0%nat) NoToolCalls st' s'
                  Hurl Hstream
                  (Hchat 0%nat (buildPayload W req) (Nat.le_0_l N))
                  (Hfuel (S (MAX_TOOL_ITERATIONS W)) ltac:(lia))) as Hrun.
    unfold bufferedResponse in Hrun. cbn [now] in Hrun.
    eexists. eexists. eexists. split; [exact Hrun|].
    split; [reflexivity|]. cbn [loopTiming tm_iterations tm_timeSegments sent].
    rewrite Hc, Hseg, Hsent. repeat split.
Qed.

(* ===================================================================== *)
(** ** Requests without tools *)
(* ===================================================================== *)

(** C3 (as the code has it).  For a request with zero tool definitions,
    streaming disabled and an endpoint configured, whose model call
    returns a response without tool calls: exactly one payload is sent,
    carrying the model id with a leading [litellm/] removed and no tools;
    the returned result carries the content, the reported tokens and the
    timing, has no cost field and no tool calls, reports [iterations = 1],
    and its only TimeSegment is the model segment of the first call. *)
Theorem no_tools_single_iteration {float : Type} (W : World float)
  (req : ProviderRequest float) (response : Completion) :
  tools req = None \/ tools req = Some [] ->
  stream req = false ->
  truthy (requestBaseUrl W req) = true ->
  chat_create W (requestClient W req) 0 (buildPayload W req) = inl response ->
  hasToolCalls response = false ->
  exists r tm s,
    executeRequest W req = Some (Response r, s)
    /\ sent s = [buildPayload W req]
    /\ p_model (buildPayload W req) = stripProviderPrefix (model req)
    /\ (forall m, model req = ("litellm/" ++ m)%string ->
                  p_model (buildPayload W req) = m)
    /\ p_tools (buildPayload W req) = None
    /\ res_content r
       = content (initialState (requestFrame W req) response 0 0)
    /\ res_model r = model req
    /\ res_tokens r = reportedTokens response
    /\ res_cost r = None
    /\ res_toolCalls r = None
    /\ res_timing r = Some tm
    /\ tm_iterations tm = Some 1%nat
    /\ tm_timeSegments tm
       = [modelSegment "Initial response" (Date_now W 1) (Date_now W 2)]
    /\ toolSegments (tm_timeSegments tm) = [].
Proof.
  intros Htools Hstream Hurl Hchat Hno.
  set (fr := requestFrame W req).
  set (st0 := initialState fr response (Date_now W 1) (Date_now W 2 - Date_now W 1)).
  set (s0 := {| ticks := 3; sent := [buildPayload W req] |}).
  assert (Hexit : exists why st,
             toolLoop W (S (MAX_TOOL_ITERATIONS W)) fr st0 s0 = Some (Exit why st s0)
             /\ tokens st = tokens st0
             /\ toolCalls st = toolCalls st0
             /\ iterationCount st = iterationCount st0
             /\ timeSegments st = timeSegments st0
             /\ content st = content st0).
  { cbn [toolLoop].
    destruct (Nat.ltb_spec (iterationCount st0) (MAX_TOOL_ITERATIONS W)) as [Hlt|Hge].
    - destruct (loopPass_no_calls W fr st0 s0 Hlt Hno)
        as (st & Hp & _ & Ht & Hc & _ & Hi & Hs & Hcont).
      exists NoToolCalls, st. rewrite Hp. repeat split; try assumption.
      rewrite Hcont. apply updatedContent_initial.
    - exists CapReached, st0. rewrite (loopPass_cap W fr st0 s0 Hge).
      repeat split. }
  destruct Hexit as (why & st & Hloop & Ht & Hc & Hi & Hs & Hcont).
  pose proof (executeRequest_buffered W req response why st s0
                Hurl Hstream Hchat Hloop) as Hrun.
  unfold bufferedResponse in Hrun. cbn [now] in Hrun.
  eexists. eexists. eexists. split; [exact Hrun|].
  cbn [res_content res_model res_tokens res_cost res_toolCalls res_timing
       tm_iterations tm_timeSegments loopTiming sent s0 snd].
  split; [reflexivity|].
  split; [reflexivity|].
  split.
  { intros m Hm. cbn [buildPayload p_model]. rewrite Hm.
    apply stripProviderPrefix_prefixed. }
  split; [apply (no_tools_payload W req Htools)|].
  split; [rewrite Hcont; reflexivity|].
  split; [reflexivity|].
  split.
  { rewrite Ht. unfold st0, initialState, reportedTokens, addUsage, zeroTokens.
    cbn [tokens]. destruct (usage response) as [u|]; reflexivity. }
  split; [reflexivity|].
  split; [rewrite Hc; reflexivity|].
  split; [reflexivity|].
  cbn [loopTiming tm_iterations tm_timeSegments]. rewrite Hi, Hs.
  split; [reflexivity|].
  split; [|reflexivity].
  unfold st0, initialState, modelSegment. cbn [timeSegments].
  repeat f_equal; lia.
Qed.

Lemma no_tools_single_iteration_witness :
  exists r s,
    executeRequest Examples.plainWorld Examples.plainRequest = Some (Response r, s)
    /\ map (@p_model _) (sent s) = ["gpt-4"]
    /\ res_cost r = None
    /\ option_map (@tm_iterations) (res_timing r) = Some (Some 1%nat).
Proof.
  destruct (no_tools_single_iteration Examples.plainWorld Examples.plainRequest
              (Examples.says "done" (Examples.usageOf 1 1 2)))
    as (r & tm & s & Hrun & Hsent & Hmodel & _ & _ & _ & _ & _ & Hcost & _ & Htm & Hit & _).
  - left. reflexivity.
  - reflexivity.
  - reflexivity.
  - reflexivity.
  - reflexivity.
  - exists r, s. split; [exact Hrun|]. rewrite Hsent, Htm.
    cbn [option_map map]. rewrite Hit, Hmodel.
    repeat split. exact Hcost.
Defined.

(** C3 (as stated) fails.  The buffered result has no cost field; and
    zero tool definitions alone do not give [iterations = 1] or the
    absence of tool segments: a response that carries a tool call all the
    same starts a pass of the loop, and a call whose arguments do not
    parse is recorded even though no tool is defined. *)
Lemma no_tools_result_without_cost :
  tools Examples.plainRequest = None
  /\ stream Examples.plainRequest = false
  /\ (exists r s,
        executeRequest Examples.plainWorld Examples.plainRequest
        = Some (Response r, s)
        /\ res_cost r = None)
  /\ (exists r tm s,
        executeRequest Examples.strayCallWorld Examples.plainRequest
        = Some (Response r, s)
        /\ res_timing r = Some tm
        /\ tm_iterations tm = Some 2%nat
        /\ map seg_name (toolSegments (tm_timeSegments tm)) = ["ghost"]).
Proof.
  split; [reflexivity|]. split; [reflexivity|]. split.
  - eexists. eexists. split; [vm_compute; reflexivity|reflexivity].
  - eexists. eexists. eexists. split; [vm_compute; reflexivity|].
    split; [reflexivity|]. split; reflexivity.
Qed.

(* ===================================================================== *)
(** ** Token accounting *)
(* ===================================================================== *)

(** C2 (as the code has it).  The running token totals are additive field
    by field: the first response initialises them with the counts it
    reports, every pass of the loop that goes on adds the counts the new
    response reports (nothing when it reports no usage), and a pass that
    leaves the loop does not touch them.  [total = input + output] holds
    after such a step whenever it held before and the response's reported
    total equals the sum of its reported prompt and completion counts.
    The loop keeps no running cost: the streaming result computes its cost
    once, from the summed input and output tokens and the model id. *)
Theorem tokens_additive {float : Type} (W : World float) (fr : Frame) :
  (forall response t0 t1,
      tokens (initialState fr response t0 t1) = reportedTokens response
      /\ (usageBalanced response ->
          balanced (tokens (initialState fr response t0 t1))))
  /\ (forall st s st' s',
        loopPass W fr st s = Again st' s' ->
        tokens st' = addUsage (tokens st) (usage (currentResponse st'))
        /\ (usageBalanced (currentResponse st') ->
            balanced (tokens st) -> balanced (tokens st')))
  /\ (forall st s why st' s',
        loopPass W fr st s = Exit why st' s' -> tokens st' = tokens st)
  /\ (forall t0 t1 st s x s',
        streamAfterTools W fr t0 t1 st s = (Stream x, s') ->
        so_tokens (se_output x) = tokens st
        /\ so_cost (se_output x)
           = calculateCost W (model (request fr)) (tok_input (tokens st))
                           (tok_output (tokens st))).
Proof.
  split; [|split; [|split]].
  - intros response t0 t1.
    assert (E : tokens (initialState fr response t0 t1) = reportedTokens response).
    { unfold initialState, reportedTokens, addUsage, zeroTokens. cbn [tokens].
      destruct (usage response); reflexivity. }
    split; [exact E|]. rewrite E.
    unfold usageBalanced, balanced, reportedTokens, addUsage, zeroTokens.
    destruct (usage response) as [u|]; cbn; lia.
  - intros st s st' s' H.
    destruct (loopPass_Again_inv W fr st s st' s' H)
      as (tc & tcs & response & _ & _ & _ & -> & _).
    unfold stateAfterPass. cbn [tokens currentResponse].
    split; [reflexivity|].
    unfold usageBalanced, balanced, addUsage.
    destruct (usage response) as [u|]; cbn; lia.
  - intros st s why st' s' H.
    apply (loopPass_Exit_inv W fr st s why st' s' H).
  - intros t0 t1 st s x s' H. unfold streamAfterTools in H.
    destruct (createStream W _ _ s) as [[h|e] s1].
    + cbn [now] in H. injection H as <- _. split; reflexivity.
    + unfold enhanceError in H. cbn [now] in H. discriminate.
Qed.

Lemma tokens_additive_witness :
  exists st' s',
    loopPass Examples.plainWorld Examples.plainFrame
             (initialState Examples.plainFrame (Examples.oneToolTurn 0) 0 0)
             startSys
    = Again st' s'
    /\ tokens st' = {| tok_input := 3; tok_output := 4; tok_total := 7 |}
    /\ balanced (tokens st').
Proof.
  destruct (tokens_additive Examples.plainWorld Examples.plainFrame)
    as (Hinit & Hpass & _).
  set (st0 := initialState Examples.plainFrame (Examples.oneToolTurn 0) 0 0).
  destruct (Hinit (Examples.oneToolTurn 0) 0 0) as (_ & Hb0).
  set (calls := [Examples.call "call_a" "a" "{}"]).
  set (st1 := stateAfterPass Examples.plainWorld Examples.plainFrame st0 startSys
                             calls (Examples.oneToolTurn 1)).
  set (s1 := sysAfterPass Examples.plainWorld Examples.plainFrame st0 startSys
                          calls 3).
  assert (Hp : loopPass Examples.plainWorld Examples.plainFrame st0 startSys
               = Again st1 s1) by (vm_compute; reflexivity).
  destruct (Hpass st0 startSys st1 s1 Hp) as (_ & Hbal).
  exists st1, s1. split; [exact Hp|]. split; [reflexivity|].
  apply Hbal; [reflexivity|]. apply Hb0. reflexivity.
Defined.

(** C2 (as stated) fails: the running total is the sum of the totals the
    responses report, not the sum of the running input and output.  After
    a response reporting (2, 3, 5) and one reporting (1, 1, 7) the totals
    are (3, 4, 12). *)
Lemma token_total_not_sum :
  exists r s,
    executeRequest Examples.miscountWorld Examples.oneToolRequest
    = Some (Response r, s)
    /\ res_tokens r = {| tok_input := 3; tok_output := 4; tok_total := 12 |}
    /\ ~ balanced (res_tokens r).
Proof.
  eexists. eexists. split; [vm_compute; reflexivity|].
  split; [reflexivity|]. unfold balanced. cbn. discriminate.
Qed.

(* ===================================================================== *)
(** ** Forced tools *)
(* ===================================================================== *)

(** A whole run with the forced tools [a] and [b]: the three model calls
    go out forcing [a], forcing [b], and with automatic choice. *)
Lemma forced_tools_run :
  exists r s,
    executeRequest Examples.obedientWorld Examples.forcedRequest
    = Some (Response r, s)
    /\ map (@p_tool_choice _) (sent s)
       = [Some (forceFunction "a"); Some (forceFunction "b"); Some autoChoice].
Proof.
  eexists. eexists. split; [vm_compute; reflexivity|reflexivity].
Qed.

(* ===================================================================== *)
(** ** The order of a batch *)
(* ===================================================================== *)

Section Stamps.

Context {float : Type}.
Variable W : World float.

Lemma startToolCall_ticks (req : ProviderRequest float) (tc : ToolCall) (s : Sys) :
  ticks (snd (startToolCall W req tc s)) = (ticks s + prefixReadings W req tc)%nat.
Proof.
  unfold startToolCall, prefixReadings, callFate. cbn [now].
  destruct (JSON_parse W (tc_arguments tc)) as [args|m]; [|cbn; lia].
  destruct (findTool req (tc_name tc)) as [tool|]; [|cbn; lia].
  destruct (prepareToolExecution W tool args req) as [[tp ep]|e]; cbn; lia.
Qed.

Lemma startToolCalls_stamps (req : ProviderRequest float) (b : nat)
  (aw : list nat) (t0 : nat) (calls : list ToolCall) :
  forall (s : Sys) (i : nat),
    ticks (snd (startToolCalls W req calls s))
    = (ticks s + batchPrefixReadings W req calls)%nat
    /\ awaitingFrom i (fst (startToolCalls W req calls s))
       = invokedFrom W req i calls
    /\ map (fun v => (te_startTime v, te_endTime v, te_duration v))
           (executions
              (map (@fulfilled _)
                   (finishFrom W b aw t0 i (fst (startToolCalls W req calls s)))))
       = map (stampTimes W) (stampsFrom W req b aw t0 (ticks s) i calls).
Proof.
  induction calls as [|tc calls IH]; intros s i.
  - cbn. repeat split. lia.
  - cbn [startToolCalls batchPrefixReadings invokedFrom stampsFrom].
    pose proof (startToolCall_fate W req tc s) as Hd.
    pose proof (startToolCall_ticks req tc s) as Ht.
    destruct (startToolCall W req tc s) as [d s1]. cbn [fst snd] in Hd, Ht.
    destruct (IH s1 (S i)) as (IHt & IHa & IHm).
    destruct (startToolCalls W req calls s1) as [ds s2]. cbn [fst snd] in *.
    subst d. unfold prefixReadings in *.
    destruct (callFate W req tc) as [|msg|tp ep].
    + cbn [awaitingFrom finishFrom finishToolCall map executions flat_map app].
      replace (S (ticks s)) with (ticks s1) by lia.
      split; [lia|]. split; [exact IHa|exact IHm].
    + cbn [awaitingFrom finishFrom finishToolCall map executions flat_map app].
      replace (S (S (ticks s))) with (ticks s1) by lia.
      split; [lia|]. split; [exact IHa|].
      fold (executions (map (@fulfilled _) (finishFrom W b aw t0 (S i) ds))).
      rewrite IHm. reflexivity.
    + cbn [awaitingFrom finishFrom finishToolCall map executions flat_map].
      replace (S (ticks s)) with (ticks s1) by lia.
      split; [lia|]. split; [now rewrite IHa|].
      fold (executions (map (@fulfilled _) (finishFrom W b aw t0 (S i) ds))).
      destruct (executeTool W b i (tc_name tc) ep true) as [result|e];
        cbn [app map]; rewrite IHm; reflexivity.
Qed.

(** The executions of a batch carry the clock values of their own two
    readings. *)
Lemma batch_stamps (fr : Frame) (st : LoopState) (s : Sys) (calls : list ToolCall) :
  map (fun v => (te_startTime v, te_endTime v, te_duration v))
      (executions (fst (batchOf W fr st s calls)))
  = map (stampTimes W)
        (batchStamps W (request fr) (iterationCount st) (S (ticks s)) calls).
Proof.
  unfold batchOf, executeToolCalls, batchStamps. cbn [now snd].
  set (s1 := {| ticks := S (ticks s); sent := sent s |}).
  pose proof (fun aw t0 =>
                startToolCalls_stamps (request fr) (iterationCount st) aw t0
                                      calls s1 0%nat) as H.
  destruct (startToolCalls W (request fr) calls s1) as [ds s2].
  cbn [fst snd] in *.
  destruct (H (awaitingFrom 0 ds) (ticks s2)) as (Ht & Ha & Hm).
  rewrite Hm, Ha, Ht. reflexivity.
Qed.

(** *** Completion order and end readings *)

Lemma settlesBefore_irrefl (b i : nat) : settlesBefore W b i i = false.
Proof.
  unfold settlesBefore. rewrite !Nat.ltb_irrefl, Bool.andb_false_r. reflexivity.
Qed.

Lemma settlesBefore_trans (b k j i : nat) :
  settlesBefore W b k j = true -> settlesBefore W b j i = true ->
  settlesBefore W b k i = true.
Proof.
  unfold settlesBefore. intros H1 H2.
  apply Bool.orb_true_iff in H1. apply Bool.orb_true_iff in H2.
  apply Bool.orb_true_iff.
  rewrite !Bool.andb_true_iff, !Nat.ltb_lt, !Nat.eqb_eq in *. lia.
Qed.

Lemma filter_length_lt {A : Type} (f g : A -> bool) (l : list A) (x : A) :
  (forall a, f a = true -> g a = true) ->
  In x l -> g x = true -> f x = false ->
  (length (filter f l) < length (filter g l))%nat.
Proof.
  intros Hfg. induction l as [|a l IH]; intros Hin Hg Hf; [destruct Hin|].
  assert (Hle : (length (filter f l) <= length (filter g l))%nat).
  { clear -Hfg. induction l as [|c l IH]; cbn; [lia|].
    destruct (f c) eqn:Ef.
    - rewrite (Hfg c Ef). cbn. lia.
    - destruct (g c); cbn; lia. }
  cbn [filter]. destruct Hin as [<- | Hin].
  - rewrite Hg, Hf. cbn. lia.
  - specialize (IH Hin Hg Hf). destruct (f a) eqn:Ef.
    + rewrite (Hfg a Ef). cbn. lia.
    + destruct (g a); cbn; lia.
Qed.

(** Of two invocations of a batch, the one that completes first takes
    the earlier end reading. *)
Lemma settlePosition_order (b : nat) (awaiting : list nat) (i j : nat) :
  In j awaiting ->
  settlesBefore W b j i = true ->
  (settlePosition W b awaiting j < settlePosition W b awaiting i)%nat.
Proof.
  intros Hin Hji. unfold settlePosition.
  apply (filter_length_lt _ _ awaiting j).
  - intros k Hkj. exact (settlesBefore_trans b k j i Hkj Hji).
  - exact Hin.
  - exact Hji.
  - apply settlesBefore_irrefl.
Qed.

End Stamps.

(** C1 (as the code has it).  In every pass of the loop that runs a batch
    and goes on, the ToolCallRecords, the tool TimeSegments and the
    tool-result messages appended for the batch are those of the calls
    that are not dropped, in the order in which the model's response
    lists the calls (the dispatch order), whatever the order in which the
    invocations complete: [Promise.allSettled] returns its results in the
    order of its argument.  Each record and segment carries the call's
    own time stamps: the clock value read when its callback started and
    the one read when it ended, which for a call that reached the tool
    invoker is the reading taken when its invocation completed; of two
    invocations the one that completes first has the earlier end
    reading. *)
Theorem batch_appends_in_dispatch_order {float : Type} (W : World float)
  (fr : Frame) (st : LoopState) (s : Sys) (st' : LoopState) (s' : Sys)
  (calls : list ToolCall) :
  responseToolCalls (currentResponse st) = Some calls ->
  loopPass W fr st s = Again st' s' ->
  exists (vs : list ToolExecution) (modelSeg : TimeSegment),
    map te_toolCall vs = filter (recorded W (request fr)) calls
    /\ toolCalls st' = toolCalls st ++ map (toolCallRecord W) vs
    /\ timeSegments st' = timeSegments st ++ map toolSegment vs ++ [modelSeg]
    /\ seg_type modelSeg = SegModel
    /\ currentMessages st'
       = currentMessages st ++ [AssistantToolCalls calls]
         ++ map (toolMessage W) vs
    /\ map rec_name (map (toolCallRecord W) vs)
       = map tc_name (filter (recorded W (request fr)) calls)
    /\ map seg_name (map toolSegment vs)
       = map tc_name (filter (recorded W (request fr)) calls)
    /\ toolMessageIds (map (toolMessage W) vs)
       = map tc_id (filter (recorded W (request fr)) calls)
    /\ map (fun g => (seg_startTime g, seg_endTime g, seg_duration g))
           (map toolSegment vs)
       = map (stampTimes W)
             (batchStamps W (request fr) (iterationCount st) (S (ticks s)) calls)
    /\ map (fun c => (rec_startTime c, rec_endTime c, rec_duration c))
           (map (toolCallRecord W) vs)
       = map (fun se => (toISOString W (Date_now W (fst se)),
                         toISOString W (Date_now W (snd se)),
                         Date_now W (snd se) - Date_now W (fst se)))
             (batchStamps W (request fr) (iterationCount st) (S (ticks s)) calls)
    /\ (forall i j,
          In j (invokedFrom W (request fr) 0 calls) ->
          settlesBefore W (iterationCount st) j i = true ->
          (settlePosition W (iterationCount st)
                          (invokedFrom W (request fr) 0 calls) j
           < settlePosition W (iterationCount st)
                            (invokedFrom W (request fr) 0 calls) i)%nat).
Proof.
  intros Hcalls Hpass.
  destruct (loopPass_Again_inv W fr st s st' s' Hpass)
    as (tc & tcs & response & _ & E & _ & -> & _).
  rewrite Hcalls in E. injection E as ->.
  destruct (batchOf_settled W fr st s (tc :: tcs)) as (ovs & Hrs & Hset).
  exists (executions (fst (batchOf W fr st s (tc :: tcs)))).
  eexists.
  split; [rewrite Hrs; apply (SettledFrom_order W _ _ _ _ _ Hset)|].
  split; [reflexivity|]. split; [reflexivity|]. split; [reflexivity|].
  split; [reflexivity|].
  pose proof (SettledFrom_names W _ _ _ _ _ Hset) as Hnames.
  pose proof (SettledFrom_order W _ _ _ _ _ Hset) as Horder.
  rewrite <- Hrs in Hnames, Horder.
  pose proof (batch_stamps W fr st s (tc :: tcs)) as Hstamps.
  split; [|split; [|split; [|split; [|split]]]].
  - rewrite map_map. cbn [toolCallRecord rec_name]. exact Hnames.
  - rewrite map_map. cbn [toolSegment seg_name]. exact Hnames.
  - rewrite toolMessageIds_toolMessages, <- Horder, map_map. reflexivity.
  - rewrite map_map. cbn [toolSegment seg_startTime seg_endTime seg_duration].
    exact Hstamps.
  - rewrite map_map.
    cbn [toolCallRecord rec_startTime rec_endTime rec_duration].
    transitivity
      (map (fun x : Z * Z * Z =>
              (toISOString W (fst (fst x)), toISOString W (snd (fst x)), snd x))
           (map (fun v => (te_startTime v, te_endTime v, te_duration v))
                (executions (fst (batchOf W fr st s (tc :: tcs)))))).
    + rewrite map_map. reflexivity.
    + rewrite Hstamps, map_map. reflexivity.
  - intros i j. apply settlePosition_order.
Qed.

Lemma batch_appends_in_dispatch_order_witness :
  exists st' s' vs,
    loopPass Examples.racingWorld Examples.racingFrame Examples.racingStart
             startSys
    = Again st' s'
    /\ settlesBefore Examples.racingWorld 0 1 0 = true
    /\ toolCalls st' = map (toolCallRecord Examples.racingWorld) vs
    /\ map rec_name (toolCalls st') = ["a"; "b"]
    /\ map (fun g => (seg_startTime g, seg_endTime g, seg_duration g))
           (map toolSegment vs)
       = [(1010, 1040, 30); (1020, 1030, 10)].
Proof.
  set (calls := [Examples.call "call_1" "a" "{}"; Examples.call "call_2" "b" "{}"]).
  set (st1 := stateAfterPass Examples.racingWorld Examples.racingFrame
                             Examples.racingStart startSys calls
                             (Examples.asks calls (Examples.usageOf 2 3 5))).
  set (s1 := sysAfterPass Examples.racingWorld Examples.racingFrame
                          Examples.racingStart startSys calls 3).
  assert (Hp : loopPass Examples.racingWorld Examples.racingFrame
                        Examples.racingStart startSys = Again st1 s1)
    by (vm_compute; reflexivity).
  destruct (batch_appends_in_dispatch_order Examples.racingWorld
              Examples.racingFrame Examples.racingStart startSys st1 s1 calls
              eq_refl Hp)
    as (vs & g & _ & Hrec & _ & _ & _ & Hnames & _ & _ & Hstamps & _).
  change (toolCalls Examples.racingStart) with (@nil ToolCallRecord) in Hrec.
  cbn [app] in Hrec.
  exists st1, s1, vs. split; [exact Hp|]. split; [reflexivity|].
  split; [exact Hrec|]. split; [rewrite Hrec, Hnames; reflexivity|].
  rewrite Hstamps. reflexivity.
Defined.

(** C1 (as stated) fails.  In a batch of two calls whose second call
    completes first, the first call is still appended first: its record,
    segment and message come before those of the call that completed
    earlier. *)
Lemma settle_order_not_followed :
  settlesBefore Examples.racingWorld 0 1 0 = true
  /\ exists r tm s,
       executeRequest Examples.racingWorld Examples.twoToolRequest
       = Some (Response r, s)
       /\ res_timing r = Some tm
       /\ map (fun g => (seg_name g, seg_endTime g))
              (toolSegments (tm_timeSegments tm))
          = [("a", 1070); ("b", 1060)]
       /\ option_map (map rec_name) (res_toolCalls r) = Some ["a"; "b"]
       /\ map (fun p => toolMessageIds (p_messages p)) (sent s)
          = [[]; ["call_1"; "call_2"]].
Proof.
  split; [reflexivity|].
  eexists. eexists. eexists. split; [vm_compute; reflexivity|].
  split; [reflexivity|]. split; [reflexivity|]. split; reflexivity.
Qed.

(* ===================================================================== *)
(** ** Failing and unknown tool calls *)
(* ===================================================================== *)

(** C6.  Let the call at position [i] of a batch reach the tool invoker
    and let the invocation throw.  Then that call settles, as a fulfilled
    promise, with the structured result [{success: false, error: message}]
    attached to the call (the message of the thrown [Error], or "Tool
    execution failed"); it is recorded as a failed tool call and answered
    by a tool message in the next payload.  Every sibling call of the
    batch settles as a fulfilled promise too, a sibling whose invocation
    returns a result settles with that result, and the pass goes on to
    issue the next model call, continuing the loop when that call returns. *)
Theorem thrown_tool_call_is_absorbed {float : Type} (W : World float)
  (fr : Frame) (st : LoopState) (s : Sys) (calls : list ToolCall) (i : nat)
  (tc : ToolCall) (toolParams executionParams : Json) (e : JsThrown) :
  (iterationCount st < MAX_TOOL_ITERATIONS W)%nat ->
  responseToolCalls (currentResponse st) = Some calls ->
  nth_error calls i = Some tc ->
  callFate W (request fr) tc = Invoked toolParams executionParams ->
  executeTool W (iterationCount st) i (tc_name tc) executionParams true
  = Rejects e ->
  (exists startTime endTime p,
      nth_error (fst (batchOf W fr st s calls)) i
      = Some (fulfilled
                (Some (failedExecution tc (thrown_message e) startTime endTime)))
      /\ te_result (failedExecution tc (thrown_message e) startTime endTime)
         = failureResult (thrown_message e)
      /\ te_toolCall (failedExecution tc (thrown_message e) startTime endTime)
         = tc
      /\ rec_success
           (toolCallRecord W
              (failedExecution tc (thrown_message e) startTime endTime))
         = false
      /\ sent (passSys (loopPass W fr st s)) = sent s ++ [p]
      /\ In (toolMessage W
               (failedExecution tc (thrown_message e) startTime endTime))
            (p_messages p))
  /\ length (fst (batchOf W fr st s calls)) = length calls
  /\ (forall j, (j < length calls)%nat ->
                exists o, nth_error (fst (batchOf W fr st s calls)) j
                          = Some (fulfilled o))
  /\ (forall j tc' toolParams' executionParams' result,
        nth_error calls j = Some tc' ->
        callFate W (request fr) tc' = Invoked toolParams' executionParams' ->
        executeTool W (iterationCount st) j (tc_name tc') executionParams' true
        = Resolves result ->
        exists v,
          nth_error (fst (batchOf W fr st s calls)) j = Some (fulfilled (Some v))
          /\ te_toolCall v = tc'
          /\ te_result v = result)
  /\ (forall response,
        chat_create W (litellm fr) (length (sent s))
                    (nextPayloadOf W fr st s calls) = inl response ->
        loopPass W fr st s
        = Again (stateAfterPass W fr st s calls response)
                (sysAfterPass W fr st s calls 3)).
Proof.
  intros Hlt Hcalls Hi Hfate Hthrows.
  destruct (batchOf_settled W fr st s calls) as (vs & Hrs & Hset).
  assert (Hne : exists c cs, calls = c :: cs).
  { destruct calls as [|c cs]; [destruct i; discriminate|now exists c, cs]. }
  destruct Hne as (c & cs & Hne).
  split; [|split; [|split; [|split]]].
  - destruct (SettledFrom_nth W _ _ _ _ _ Hset i tc Hi) as (st0 & en0 & Hv).
    cbn [Nat.add] in Hv. unfold settledValue in Hv.
    rewrite Hfate, Hthrows in Hv.
    exists st0, en0, (nextPayloadOf W fr st s calls).
    assert (Hnth : nth_error (fst (batchOf W fr st s calls)) i
                   = Some (fulfilled
                             (Some (failedExecution tc (thrown_message e) st0 en0)))).
    { rewrite Hrs, nth_error_map, Hv. reflexivity. }
    split; [exact Hnth|]. split; [reflexivity|]. split; [reflexivity|].
    split; [reflexivity|]. split.
    + subst calls.
      apply (loopPass_sends W fr st s c cs Hlt Hcalls).
    + unfold nextPayloadOf, withMessagesAndChoice, messagesAfterBatch.
      cbn [p_messages]. apply in_or_app. right. apply in_or_app. right.
      apply in_map. apply (executions_In _ i). exact Hnth.
  - rewrite Hrs, length_map. apply (SettledFrom_length W _ _ _ _ _ Hset).
  - intros j Hj. rewrite Hrs, nth_error_map.
    destruct (nth_error vs j) as [o|] eqn:E.
    + exists o. reflexivity.
    + exfalso. apply nth_error_None in E.
      rewrite (SettledFrom_length W _ _ _ _ _ Hset) in E. lia.
  - intros j tc' tp' ep' result Hj Hfate' Hres.
    destruct (SettledFrom_nth W _ _ _ _ _ Hset j tc' Hj) as (st0 & en0 & Hv).
    cbn [Nat.add] in Hv. unfold settledValue in Hv.
    rewrite Hfate', Hres in Hv.
    eexists. rewrite Hrs, nth_error_map, Hv. cbn [option_map].
    split; [reflexivity|]. split; reflexivity.
  - intros response Hchat. subst calls.
    rewrite (loopPass_calls W fr st s c cs Hlt Hcalls), Hchat. reflexivity.
Qed.

Lemma thrown_tool_call_is_absorbed_witness :
  exists st' s',
    loopPass Examples.failingWorld Examples.failingFrame Examples.failingStart
             startSys
    = Again st' s'
    /\ map (fun c => (rec_name c, rec_success c)) (toolCalls st')
       = [("a", false); ("b", true)].
Proof.
  set (calls := [Examples.call "call_1" "a" "{}"; Examples.call "call_2" "b" "{}"]).
  destruct (thrown_tool_call_is_absorbed Examples.failingWorld
              Examples.failingFrame Examples.failingStart startSys calls 0
              (Examples.call "call_1" "a" "{}") (JObj []) (JObj [])
              (plainError "boom"))
    as (_ & _ & _ & _ & Hgo).
  - cbn. lia.
  - reflexivity.
  - reflexivity.
  - reflexivity.
  - reflexivity.
  - eexists. eexists. split.
    + apply (Hgo (Examples.asks calls (Examples.usageOf 2 3 5))). reflexivity.
    + reflexivity.
Defined.

(** C10 (as the code has it).  Let the call at position [i] of a batch
    name a tool that is not among the request's tool definitions, and let
    its argument text parse as JSON.  Then the call settles with [null]
    and is skipped: the ToolCallRecords, tool TimeSegments and tool-result
    messages appended for the batch are those of the calls before and
    after it, the assistant message of the next payload still lists the
    call, and the pass raises no error of its own (only a failing model
    call can end it with an error). *)
Theorem unknown_tool_call_is_dropped {float : Type} (W : World float)
  (fr : Frame) (st : LoopState) (s : Sys) (calls : list ToolCall) (i : nat)
  (tc : ToolCall) (toolArgs : Json) :
  (iterationCount st < MAX_TOOL_ITERATIONS W)%nat ->
  responseToolCalls (currentResponse st) = Some calls ->
  nth_error calls i = Some tc ->
  ~ In (tc_name tc) (map tool_id (requestToolList (request fr))) ->
  JSON_parse W (tc_arguments tc) = inl toolArgs ->
  exists others : list ToolExecution,
    nth_error (fst (batchOf W fr st s calls)) i = Some (fulfilled None)
    /\ others = executions (firstn i (fst (batchOf W fr st s calls)))
                ++ executions (skipn (S i) (fst (batchOf W fr st s calls)))
    /\ executions (fst (batchOf W fr st s calls)) = others
    /\ (exists p,
          sent (passSys (loopPass W fr st s)) = sent s ++ [p]
          /\ p_messages p
             = currentMessages st ++ [AssistantToolCalls calls]
               ++ map (toolMessage W) others
          /\ In tc calls)
    /\ (forall e s',
          loopPass W fr st s = Raised e s' ->
          chat_create W (litellm fr) (length (sent s))
                      (nextPayloadOf W fr st s calls) = inr e)
    /\ (forall st' s',
          loopPass W fr st s = Again st' s' ->
          toolCalls st' = toolCalls st ++ map (toolCallRecord W) others
          /\ toolSegments (timeSegments st')
             = toolSegments (timeSegments st) ++ map toolSegment others
          /\ toolMessageIds (currentMessages st')
             = toolMessageIds (currentMessages st)
               ++ map (fun v => tc_id (te_toolCall v)) others).
Proof.
  intros Hlt Hcalls Hi Hunknown Hparse.
  destruct (batchOf_settled W fr st s calls) as (vs & Hrs & Hset).
  assert (Hfate : callFate W (request fr) tc = Dropped).
  { unfold callFate. rewrite Hparse, (findTool_unknown _ _ Hunknown). reflexivity. }
  assert (Hnth : nth_error (fst (batchOf W fr st s calls)) i
                 = Some (fulfilled None)).
  { destruct (SettledFrom_nth W _ _ _ _ _ Hset i tc Hi) as (st0 & en0 & Hv).
    unfold settledValue in Hv. rewrite Hfate in Hv.
    rewrite Hrs, nth_error_map, Hv. reflexivity. }
  pose proof (executions_without _ i Hnth) as Hwithout.
  destruct calls as [|c cs]; [destruct i; discriminate|].
  pose proof (loopPass_calls W fr st s c cs Hlt Hcalls) as Hpass.
  eexists. split; [exact Hnth|]. split; [reflexivity|].
  split; [exact Hwithout|]. rewrite <- Hwithout.
  split; [|split].
  - exists (nextPayloadOf W fr st s (c :: cs)). split.
    + apply (loopPass_sends W fr st s c cs Hlt Hcalls).
    + split; [reflexivity|]. now apply nth_error_In with i.
  - intros e s' H. rewrite Hpass in H.
    destruct (chat_create W (litellm fr) (length (sent s)) _) as [r|e'];
      [discriminate|]. injection H as -> _. reflexivity.
  - intros st' s' H. rewrite Hpass in H.
    destruct (chat_create W (litellm fr) (length (sent s)) _) as [r|e'];
      [|discriminate]. injection H as <- _.
    unfold stateAfterPass. cbn [toolCalls timeSegments currentMessages].
    split; [reflexivity|]. split.
    + unfold toolSegments. rewrite !filter_app.
      fold (toolSegments (map toolSegment
              (executions (fst (batchOf W fr st s (c :: cs)))))).
      rewrite toolSegments_tools. cbn. now rewrite app_nil_r.
    + unfold messagesAfterBatch.
      rewrite !toolMessageIds_app, toolMessageIds_toolMessages. reflexivity.
Qed.

Lemma unknown_tool_call_is_dropped_witness :
  exists p,
    sent (passSys (loopPass Examples.ghostWorld Examples.ghostFrame
                            Examples.ghostStart startSys))
    = [p]
    /\ toolMessageIds (p_messages p) = ["call_2"]
    /\ In (Examples.call "call_1" "ghost" "{}")
          [Examples.call "call_1" "ghost" "{}"; Examples.call "call_2" "a" "{}"].
Proof.
  destruct (unknown_tool_call_is_dropped Examples.ghostWorld Examples.ghostFrame
              Examples.ghostStart startSys
              [Examples.call "call_1" "ghost" "{}"; Examples.call "call_2" "a" "{}"]
              0 (Examples.call "call_1" "ghost" "{}") (JObj []))
    as (others & _ & Hothers & _ & (p & Hsent & Hmsgs & Hin) & _).
  - cbn. lia.
  - reflexivity.
  - reflexivity.
  - cbn. intros [H|[]]. discriminate.
  - reflexivity.
  - exists p. split; [exact Hsent|]. split; [|exact Hin].
    rewrite Hmsgs, Hothers. reflexivity.
Defined.

(** C10 (as stated) fails.  The argument text is parsed before the tool
    is looked up, so a call of an unknown tool whose arguments are not
    JSON takes the [catch] path: it gets a failed ToolCallRecord, a tool
    TimeSegment and a tool-result message. *)
Lemma unknown_tool_with_bad_arguments_is_recorded :
  ~ In "ghost" (map tool_id (requestToolList Examples.oneToolRequest))
  /\ exists r tm s,
       executeRequest Examples.strayCallWorld Examples.oneToolRequest
       = Some (Response r, s)
       /\ option_map (map (fun c => (rec_name c, rec_success c))) (res_toolCalls r)
          = Some [("ghost", false)]
       /\ res_timing r = Some tm
       /\ map seg_name (toolSegments (tm_timeSegments tm)) = ["ghost"]
       /\ map (fun p => toolMessageIds (p_messages p)) (sent s)
          = [[]; ["call_x"]].
Proof.
  split.
  - cbn. intros [H|[]]. discriminate.
  - eexists. eexists. eexists. split; [vm_compute; reflexivity|].
    split; [reflexivity|]. split; [reflexivity|]. split; reflexivity.
Qed.

(* ===================================================================== *)
(** ** Further properties: how a run unfolds *)
(* ===================================================================== *)

Lemma Some_eq_inv {A : Type} (a b : A) : Some a = Some b -> a = b.
Proof. intros H. now injection H. Qed.

Section Runs.

Context {float : Type}.
Variable W : World float.

Lemma loopPass_Raised_inv (fr : Frame) (st : LoopState) (s : Sys)
  (e : JsThrown) (s' : Sys) :
  loopPass W fr st s = Raised e s' ->
  exists tc tcs,
    (iterationCount st < MAX_TOOL_ITERATIONS W)%nat
    /\ responseToolCalls (currentResponse st) = Some (tc :: tcs)
    /\ chat_create W (litellm fr) (length (sent s))
                   (nextPayloadOf W fr st s (tc :: tcs)) = inr e
    /\ s' = sysAfterPass W fr st s (tc :: tcs) 2.
Proof.
  intros H.
  destruct (Nat.ltb_spec (iterationCount st) (MAX_TOOL_ITERATIONS W)) as [Hlt|Hge].
  - destruct (responseToolCalls (currentResponse st)) as [[|tc tcs]|] eqn:E.
    + unfold loopPass in H. apply Nat.ltb_lt in Hlt. rewrite Hlt, E in H.
      discriminate.
    + rewrite (loopPass_calls W fr st s tc tcs Hlt E) in H.
      destruct (chat_create W (litellm fr) (length (sent s)) _)
        as [response|e'] eqn:Ec; [discriminate|].
      injection H as <- <-. exists tc, tcs. repeat split; assumption.
    + unfold loopPass in H. apply Nat.ltb_lt in Hlt. rewrite Hlt, E in H.
      discriminate.
  - rewrite (loopPass_cap W fr st s Hge) in H. discriminate.
Qed.

(** A pass that leaves the loop changes nothing but, possibly, [content]. *)
Lemma loopPass_Exit_rest (fr : Frame) (st : LoopState) (s : Sys)
  (why : ExitReason) (st' : LoopState) (s' : Sys) :
  loopPass W fr st s = Exit why st' s' ->
  currentResponse st' = currentResponse st
  /\ toolResults st' = toolResults st
  /\ modelTime st' = modelTime st
  /\ toolsTime st' = toolsTime st.
Proof.
  intros H.
  destruct (Nat.ltb_spec (iterationCount st) (MAX_TOOL_ITERATIONS W)) as [Hlt|Hge].
  - destruct (responseToolCalls (currentResponse st)) as [[|tc tcs]|] eqn:E.
    + unfold loopPass in H. apply Nat.ltb_lt in Hlt. rewrite Hlt, E in H.
      injection H as _ <- <-. repeat split.
    + rewrite (loopPass_calls W fr st s tc tcs Hlt E) in H.
      destruct (chat_create W (litellm fr) (length (sent s)) _); discriminate.
    + unfold loopPass in H. apply Nat.ltb_lt in Hlt. rewrite Hlt, E in H.
      injection H as _ <- <-. repeat split.
  - rewrite (loopPass_cap W fr st s Hge) in H. injection H as _ <- <-.
    repeat split.
Qed.

(** The loop never ends in the middle of a pass. *)
Lemma toolLoop_not_Again (fuel : nat) (fr : Frame) :
  forall st s st' s', toolLoop W fuel fr st s <> Some (Again st' s').
Proof.
  induction fuel as [|fuel IH]; intros st s st' s' H; [discriminate|].
  cbn [toolLoop] in H.
  destruct (loopPass W fr st s) as [why st1 s1|st1 s1|e s1] eqn:E.
  - discriminate.
  - exact (IH _ _ _ _ H).
  - discriminate.
Qed.

(** Induction over the passes of the loop: a property of the loop
    variables and the system state that every pass keeps holds when the
    loop is left; [K] collects what is known when a model call fails. *)
Lemma toolLoop_invariant (fr : Frame) (I : LoopState -> @Sys float -> Prop)
  (K : @Sys float -> Prop) :
  (forall st s st' s', I st s -> loopPass W fr st s = Again st' s' -> I st' s') ->
  (forall st s why st' s',
      I st s -> loopPass W fr st s = Exit why st' s' -> I st' s') ->
  (forall st s e s', I st s -> loopPass W fr st s = Raised e s' -> K s') ->
  forall fuel st s p,
    I st s ->
    toolLoop W fuel fr st s = Some p ->
    match p with
    | Exit _ st' s' => I st' s'
    | Raised _ s' => K s'
    | Again _ _ => False
    end.
Proof.
  intros Hagain Hexit Hraised.
  induction fuel as [|fuel IH]; intros st s p HI H; [discriminate|].
  cbn [toolLoop] in H.
  destruct (loopPass W fr st s) as [why st1 s1|st1 s1|e s1] eqn:E.
  - injection H as <-. exact (Hexit _ _ _ _ _ HI E).
  - exact (IH _ _ _ (Hagain _ _ _ _ HI E) H).
  - injection H as <-. exact (Hraised _ _ _ _ HI E).
Qed.

(** The four ways a call of [executeRequest] can go. *)
Lemma executeRequest_cases (req : ProviderRequest float) (out : Outcome)
  (s : Sys) :
  executeRequest W req = Some (out, s) ->
  (truthy (requestBaseUrl W req) = false
   /\ out = Thrown baseUrlRequired /\ s = startSys)
  \/ (truthy (requestBaseUrl W req) = true
      /\ takesFastPath W req = true
      /\ (out, s) = streamWithoutTools W req (requestClient W req)
                      (buildPayload W req) (Date_now W 0)
                      {| ticks := 1; sent := [] |})
  \/ (truthy (requestBaseUrl W req) = true
      /\ takesFastPath W req = false
      /\ exists e,
           chat_create W (requestClient W req) 0 (buildPayload W req) = inr e
           /\ (out, s) = enhanceError W (Date_now W 0) e
                           {| ticks := 2; sent := [buildPayload W req] |})
  \/ (truthy (requestBaseUrl W req) = true
      /\ takesFastPath W req = false
      /\ exists response p,
           chat_create W (requestClient W req) 0 (buildPayload W req)
           = inl response
           /\ toolLoop W (S (MAX_TOOL_ITERATIONS W)) (requestFrame W req)
                       (loopStart W req response) (loopSys W req) = Some p
           /\ match p with
              | Raised e s5 => (out, s) = enhanceError W (Date_now W 0) e s5
              | Exit _ st s5 =>
                  (out, s)
                  = if stream req
                    then streamAfterTools W (requestFrame W req) (Date_now W 0)
                           (Date_now W 2 - Date_now W 1) st s5
                    else bufferedResponse W (requestFrame W req) (Date_now W 0)
                           (Date_now W 2 - Date_now W 1) st s5
              | Again _ _ => False
              end).
Proof.
  unfold executeRequest, executeRequestFrom, takesFastPath, loopStart, loopSys.
  destruct (truthy (requestBaseUrl W req)) eqn:Hurl; cbn [negb].
  2:{ intros H. injection H as <- <-. left. repeat split. }
  cbn [now startSys ticks sent].
  destruct (stream req && _)%bool eqn:Hfast.
  { intros H. apply Some_eq_inv in H. right. left. repeat split. symmetry. exact H. }
  unfold create. cbn [now ticks sent length app requestFrame litellm payload].
  destruct (chat_create W (requestClient W req) 0 (buildPayload W req))
    as [response|e] eqn:Hc.
  2:{ intros H. apply Some_eq_inv in H. right. right. left. repeat split.
      exists e. split; [reflexivity|]. symmetry. exact H. }
  destruct (toolLoop W (S (MAX_TOOL_ITERATIONS W)) _ _ _) as [p|] eqn:Hloop;
    [|discriminate].
  intros H. right. right. right. repeat split.
  exists response, p. split; [reflexivity|]. split; [exact Hloop|].
  destruct p as [why st1 s1|st1 s1|e s1].
  - destruct (stream req); apply Some_eq_inv in H; symmetry; exact H.
  - exfalso. exact (toolLoop_not_Again _ _ _ _ _ _ Hloop).
  - apply Some_eq_inv in H. symmetry. exact H.
Qed.

End Runs.

(* ===================================================================== *)
(** ** Further properties: endpoints, keys and model ids *)
(* ===================================================================== *)

Lemma stripTrailingSlash_app_slash (u : string) :
  stripTrailingSlash (u ++ "/")%string = u.
Proof.
  induction u as [|c u IH]; [reflexivity|].
  cbn [String.append stripTrailingSlash]. rewrite IH.
  destruct u; reflexivity.
Qed.

Lemma stripTrailingSlash_keeps (u : string) :
  endsWithSlash u = false -> stripTrailingSlash u = u.
Proof.
  induction u as [|c u IH]; [reflexivity|].
  cbn [endsWithSlash stripTrailingSlash].
  destruct u as [|d u'].
  - intros ->. reflexivity.
  - intros H. now rewrite (IH H).
Qed.

Lemma requestBaseUrl_raw {float : Type} (W : World float)
  (req : ProviderRequest float) :
  requestBaseUrl W req = stripTrailingSlash (rawEndpoint W req).
Proof. reflexivity. Qed.

(** X1.  An endpoint configured with one trailing slash and the same
    endpoint configured without it give the same client: the base URL of
    the chat client is the endpoint without that slash, followed by
    [/v1].  Only one slash is removed. *)
Theorem base_url_trailing_slash {float : Type} (W : World float)
  (req : ProviderRequest float) (u : string) :
  endsWithSlash u = false ->
  (rawEndpoint W req = u \/ rawEndpoint W req = (u ++ "/")%string ->
   requestBaseUrl W req = u
   /\ client_baseURL (requestClient W req) = (u ++ "/v1")%string)
  /\ (rawEndpoint W req = (u ++ "//")%string ->
      requestBaseUrl W req = (u ++ "/")%string).
Proof.
  intros Hu. split.
  - intros H.
    assert (E : requestBaseUrl W req = u).
    { rewrite requestBaseUrl_raw. destruct H as [-> | ->].
      - now apply stripTrailingSlash_keeps.
      - apply stripTrailingSlash_app_slash. }
    split; [exact E|]. unfold requestClient. cbn [client_baseURL]. now rewrite E.
  - intros H. rewrite requestBaseUrl_raw, H.
    replace (u ++ "//")%string with ((u ++ "/") ++ "/")%string.
    + apply stripTrailingSlash_app_slash.
    + clear. induction u as [|c u IH]; [reflexivity|].
      cbn [String.append]. f_equal. exact IH.
Qed.

Lemma base_url_trailing_slash_witness :
  client_baseURL (requestClient Examples.unconfiguredWorld
                    (Examples.requestAt "litellm/gpt-4" "http://proxy:4000/"))
  = "http://proxy:4000/v1"
  /\ client_baseURL (requestClient Examples.unconfiguredWorld
                       (Examples.requestAt "litellm/gpt-4" "http://proxy:4000"))
     = "http://proxy:4000/v1".
Proof.
  split.
  - apply (base_url_trailing_slash Examples.unconfiguredWorld
             (Examples.requestAt "litellm/gpt-4" "http://proxy:4000/")
             "http://proxy:4000" eq_refl).
    right. reflexivity.
  - apply (base_url_trailing_slash Examples.unconfiguredWorld
             (Examples.requestAt "litellm/gpt-4" "http://proxy:4000")
             "http://proxy:4000" eq_refl).
    left. reflexivity.
Defined.

(** X2.  The chat client is never built with an empty API key: the key
    of the request wins when it has one, else the key of the environment,
    else the literal [empty].  In the same way an endpoint given in the
    request wins over the one of the environment. *)
Theorem client_credentials {float : Type} (W : World float)
  (req : ProviderRequest float) :
  truthy (client_apiKey (requestClient W req)) = true
  /\ (forall k, apiKey req = Some k -> truthy k = true ->
                client_apiKey (requestClient W req) = k)
  /\ (truthyOpt (apiKey req) = false ->
      forall k, env_LITELLM_API_KEY W = Some k -> truthy k = true ->
                client_apiKey (requestClient W req) = k)
  /\ (truthyOpt (apiKey req) = false ->
      truthyOpt (env_LITELLM_API_KEY W) = false ->
      client_apiKey (requestClient W req) = "empty")
  /\ (forall e, azureEndpoint req = Some e -> truthy e = true ->
                requestBaseUrl W req = stripTrailingSlash e).
Proof.
  unfold requestClient, requestBaseUrl, orStr, truthyOpt. cbn [client_apiKey].
  split; [|split; [|split; [|split]]].
  - destruct (apiKey req) as [k|]; [destruct (truthy k) eqn:Hk; [exact Hk|]|];
      (destruct (env_LITELLM_API_KEY W) as [k'|];
       [destruct (truthy k') eqn:Hk'; [exact Hk'|reflexivity]|reflexivity]).
  - intros k -> Hk. now rewrite Hk.
  - intros Hreq k Henv Hk. rewrite Henv, Hk.
    destruct (apiKey req) as [k0|]; [now rewrite Hreq|reflexivity].
  - intros Hreq Henv.
    destruct (apiKey req) as [k0|]; [rewrite Hreq|];
      (destruct (env_LITELLM_API_KEY W) as [k'|]; [now rewrite Henv|reflexivity]).
  - intros e -> He. now rewrite He.
Qed.

Lemma client_credentials_witness :
  client_apiKey (requestClient Examples.plainWorld Examples.plainRequest) = "empty"
  /\ requestBaseUrl Examples.plainWorld
       (Examples.requestAt "litellm/gpt-4" "http://other:1/")
     = "http://other:1".
Proof.
  destruct (client_credentials Examples.plainWorld Examples.plainRequest)
    as (_ & _ & _ & Hempty & _).
  destruct (client_credentials Examples.plainWorld
              (Examples.requestAt "litellm/gpt-4" "http://other:1/"))
    as (_ & _ & _ & _ & Hurl).
  split.
  - apply Hempty; reflexivity.
  - apply (Hurl "http://other:1/"); reflexivity.
Defined.

(** X3.  Discovery and request execution are inverse on model ids: when
    the upstream listing succeeds on the server, [initialize] publishes
    the upstream ids prefixed with [litellm/], to the provider and to the
    store alike; stripping the prefix gives the upstream ids back, and a
    request for a published model sends the upstream id in its payload. *)
Theorem discovery_round_trip {float : Type} (W : World float) (reg : Registry)
  (st : Z) (txt : string) (ids : list string) :
  onClient W = false ->
  truthy (envBaseUrl W) = true ->
  upstreamModels W = FetchResponse true st txt (Some ids) ->
  initialize W reg = inl {| this_models := map prefixModel ids;
                            store_models := map prefixModel ids |}
  /\ map stripProviderPrefix (map prefixModel ids) = ids
  /\ (forall req : ProviderRequest float,
        In (model req) (map prefixModel ids) ->
        In (p_model (buildPayload W req)) ids).
Proof.
  intros Hc Hu Hf. split; [|split].
  - unfold initialize. unfold upstreamModels in Hf. now rewrite Hc, Hu, Hf.
  - rewrite map_map. rewrite <- (map_id ids) at 2. apply map_ext.
    intros id. apply stripProviderPrefix_prefixed.
  - intros req Hin. apply in_map_iff in Hin. destruct Hin as (id & E & Hid).
    cbn [buildPayload p_model]. rewrite <- E. unfold prefixModel.
    now rewrite stripProviderPrefix_prefixed.
Qed.

Lemma discovery_round_trip_witness :
  initialize Examples.listingWorld {| this_models := []; store_models := [] |}
  = inl {| this_models := ["litellm/gpt-4"; "litellm/blocked"; "litellm/claude-3"];
           store_models := ["litellm/gpt-4"; "litellm/blocked"; "litellm/claude-3"] |}.
Proof.
  apply (discovery_round_trip Examples.listingWorld
           {| this_models := []; store_models := [] |} 200 "OK"
           ["gpt-4"; "blocked"; "claude-3"]); reflexivity.
Defined.

(** X4.  Whatever the upstream does, [initialize] returns normally.  The
    provider's own model list changes only when the listing succeeds; the
    store entry is then the same list, it is emptied when the upstream
    answers with a non-success status, and it is left alone when nothing
    is fetched (client side, no endpoint) or the fetch or the reading of
    its body throws. *)
Theorem initialize_failure_modes {float : Type} (W : World float) (reg : Registry) :
  exists reg',
    initialize W reg = inl reg'
    /\ (this_models reg' = this_models reg
        \/ exists st txt ids,
             upstreamModels W = FetchResponse true st txt (Some ids)
             /\ this_models reg' = map prefixModel ids
             /\ store_models reg' = map prefixModel ids)
    /\ (onClient W = true \/ truthy (envBaseUrl W) = false
        \/ (exists e, upstreamModels W = FetchThrows e)
        \/ (exists st txt, upstreamModels W = FetchResponse true st txt None) ->
        reg' = reg)
    /\ (onClient W = false -> truthy (envBaseUrl W) = true ->
        (exists st txt body, upstreamModels W = FetchResponse false st txt body) ->
        this_models reg' = this_models reg /\ store_models reg' = []).
Proof.
  unfold initialize, upstreamModels.
  destruct (onClient W) eqn:Hc.
  { exists reg. split; [reflexivity|]. split; [now left|]. split; [reflexivity|].
    discriminate. }
  destruct (truthy (envBaseUrl W)) eqn:Hu; cbn [negb].
  2:{ exists reg. split; [reflexivity|]. split; [now left|]. split; [reflexivity|].
      discriminate. }
  destruct (fetch W _ _) as [e|ok st txt body] eqn:Hf.
  { exists reg. split; [reflexivity|]. split; [now left|]. split; [reflexivity|].
    intros _ _ (st & txt & body & H). discriminate. }
  destruct ok; cbn [negb].
  - destruct body as [ids|].
    + eexists. split; [reflexivity|]. split.
      * right. exists st, txt, ids. repeat split.
      * split.
        -- intros [H | [H | [(e & H) | (st' & txt' & H)]]]; discriminate.
        -- intros _ _ (st' & txt' & body' & H). discriminate.
    + exists reg. split; [reflexivity|]. split; [now left|]. split; [reflexivity|].
      intros _ _ (st' & txt' & body' & H). discriminate.
  - eexists. split; [reflexivity|]. split; [now left|]. split.
    + intros [H | [H | [(e & H) | (st' & txt' & H)]]]; discriminate.
    + intros _ _ _. split; reflexivity.
Qed.

Lemma initialize_failure_modes_witness :
  exists reg',
    initialize Examples.unavailableWorld
               {| this_models := ["litellm/old"]; store_models := ["litellm/old"] |}
    = inl reg'
    /\ this_models reg' = ["litellm/old"]
    /\ store_models reg' = [].
Proof.
  destruct (initialize_failure_modes Examples.unavailableWorld
              {| this_models := ["litellm/old"]; store_models := ["litellm/old"] |})
    as (reg' & Hrun & _ & _ & Hdown).
  exists reg'. split; [exact Hrun|].
  apply Hdown; [reflexivity|reflexivity|].
  exists 503, "Service Unavailable", None. reflexivity.
Defined.

(** X5.  Every model the [/models] route lists has also been published
    by discovery, when discovery ran on the server against the same
    upstream: the route applies the blacklist to the list discovery
    publishes unfiltered. *)
Theorem route_lists_only_discovered {float : Type} (W : World float)
  (reg reg' : Registry) (m : string) :
  onClient W = false ->
  initialize W reg = inl reg' ->
  In m (resp_models_body (GET W)) ->
  In m (this_models reg') /\ In m (store_models reg')
  /\ isModelBlacklisted W m = false.
Proof.
  intros Hc Hinit Hin. unfold GET in Hin. unfold initialize in Hinit.
  rewrite Hc in Hinit.
  destruct (isProviderBlacklisted W "litellm"); [destruct Hin|].
  destruct (truthy (envBaseUrl W)); cbn [negb] in *; [|destruct Hin].
  destruct (fetch W _ _) as [e|ok st txt body]; [destruct Hin|].
  destruct ok; cbn [negb] in *; [|destruct Hin].
  destruct body as [ids|]; [|destruct Hin].
  injection Hinit as <-. cbn in Hin |- *.
  unfold filterBlacklistedModels in Hin. apply filter_In in Hin.
  destruct Hin as (Hin & Hok). apply negb_true_iff in Hok. auto.
Qed.

Lemma route_lists_only_discovered_witness :
  In "litellm/gpt-4"
     ["litellm/gpt-4"; "litellm/blocked"; "litellm/claude-3"]
  /\ isModelBlacklisted Examples.listingWorld "litellm/gpt-4" = false.
Proof.
  destruct (route_lists_only_discovered Examples.listingWorld
              {| this_models := []; store_models := [] |}
              {| this_models := ["litellm/gpt-4"; "litellm/blocked"; "litellm/claude-3"];
                 store_models := ["litellm/gpt-4"; "litellm/blocked"; "litellm/claude-3"] |}
              "litellm/gpt-4")
    as (H1 & _ & H3).
  - reflexivity.
  - reflexivity.
  - left. reflexivity.
  - split; [exact H1|exact H3].
Defined.

(* ===================================================================== *)
(** ** Further properties: code fences *)
(* ===================================================================== *)

Lemma dropPrefix_other (p : string) (a c : ascii) (rest : string) :
  Ascii.eqb c a = false -> dropPrefix (String a p) (String c rest) = None.
Proof. intros H. cbn [dropPrefix]. rewrite Ascii.eqb_sym. now rewrite H. Qed.

Lemma stripFences_plain (body : string) :
  hasBacktick body = false -> stripFencesFrom 0 body = body.
Proof.
  induction body as [|c rest IH]; [reflexivity|].
  cbn [hasBacktick]. intros H. apply orb_false_iff in H. destruct H as [Hc Hr].
  cbn [stripFencesFrom].
  rewrite (dropPrefix_other _ _ _ _ Hc).
  replace (dropPrefix (String newline "```") (String c rest)) with (@None string).
  - rewrite (dropPrefix_other _ _ _ _ Hc). now rewrite (IH Hr).
  - cbn [dropPrefix]. destruct (Ascii.eqb newline c); [|reflexivity].
    destruct rest as [|d r]; [reflexivity|].
    cbn [hasBacktick] in Hr. apply orb_false_iff in Hr. destruct Hr as [Hd _].
    cbn [dropPrefix]. rewrite Ascii.eqb_sym, Hd. reflexivity.
Qed.

Lemma stripFences_closing (body : string) :
  hasBacktick body = false ->
  stripFencesFrom 0 (body ++ String newline "```")%string = body.
Proof.
  induction body as [|c rest IH]; [reflexivity|].
  cbn [hasBacktick]. intros H. apply orb_false_iff in H. destruct H as [Hc Hr].
  cbn [String.append stripFencesFrom].
  rewrite (dropPrefix_other _ _ _ _ Hc).
  replace (dropPrefix (String newline "```")
                      (String c (rest ++ String newline "```")))
    with (@None string).
  - rewrite (dropPrefix_other _ _ _ _ Hc). now rewrite (IH Hr).
  - cbn [dropPrefix]. destruct (Ascii.eqb newline c); [|reflexivity].
    destruct rest as [|d r]; [reflexivity|].
    cbn [hasBacktick] in Hr. apply orb_false_iff in Hr. destruct Hr as [Hd _].
    cbn [String.append dropPrefix]. rewrite Ascii.eqb_sym, Hd. reflexivity.
Qed.

(** X6.  The cleaning applied to the content under a response format
    unwraps a fenced JSON block: for a body without backticks, the text
    made of the opening fence with its [json] tag, a line break, the body,
    a line break and the closing fence is cleaned to the trimmed body; so
    is the body alone. *)
Theorem fenced_json_unwrapped (body : string) :
  hasBacktick body = false ->
  cleanJsonFences
    ("```json" ++ String newline (body ++ String newline "```"))%string
  = trim body
  /\ cleanJsonFences body = trim body.
Proof.
  intros H. unfold cleanJsonFences. split.
  - change (stripFencesFrom 0
              ("```json" ++ String newline (body ++ String newline "```"))%string)
      with (stripFencesFrom 0 (body ++ String newline "```")%string).
    now rewrite (stripFences_closing _ H).
  - now rewrite (stripFences_plain _ H).
Qed.

Lemma fenced_json_unwrapped_witness :
  cleanJsonFences
    ("```json" ++ String newline ("{}" ++ String newline "```"))%string
  = "{}".
Proof.
  apply (proj1 (fenced_json_unwrapped "{}" eq_refl)).
Defined.

(* ===================================================================== *)
(** ** Further properties: the model selector *)
(* ===================================================================== *)

Lemma fetchModels_labels (answer : RouteFetch) (models : list ModelOption) :
  Forall (fun o => opt_label o = opt_value o) models ->
  Forall (fun o => opt_label o = opt_value o) (fetchModels answer models).
Proof.
  intros H. destruct answer as [|ok [ids|]]; cbn; try assumption;
    destruct ok; try assumption.
  destruct ids as [|id ids]; [constructor|].
  apply Forall_forall. intros o Ho.
  change (In o (map dynamicOption (id :: ids))) in Ho.
  apply in_map_iff in Ho. destruct Ho as (x & <- & _). reflexivity.
Qed.

Lemma modelsAfter_labels (answers : list RouteFetch) :
  Forall (fun o => opt_label o = opt_value o) (modelsAfter answers).
Proof.
  unfold modelsAfter.
  assert (G : forall start,
             Forall (fun o => opt_label o = opt_value o) start ->
             Forall (fun o => opt_label o = opt_value o)
                    (fold_left (fun models answer => fetchModels answer models)
                               answers start)).
  { induction answers as [|a answers IH]; intros start H; [exact H|].
    cbn [fold_left]. apply IH. now apply fetchModels_labels. }
  apply G. constructor.
Qed.

(** X7.  Whatever the route has answered so far, the collapsed selector
    shows the id of the selected model: the options built from the
    route's answers carry their id as label, and a selected model that is
    not among them is shown by its id as well. *)
Theorem collapsed_label_is_selected_model (answers : list RouteFetch)
  (selectedModel : string) :
  getCollapsedModeLabel (modelsAfter answers) selectedModel = selectedModel.
Proof.
  unfold getCollapsedModeLabel.
  destruct (find _ (modelsAfter answers)) as [o|] eqn:E; [|reflexivity].
  apply find_some in E. destruct E as (Hin & Heq).
  apply String.eqb_eq in Heq.
  pose proof (modelsAfter_labels answers) as H.
  rewrite Forall_forall in H. rewrite (H o Hin). exact Heq.
Qed.

Lemma GET_status {float : Type} (W : World float) : resp_status (GET W) = 200.
Proof.
  unfold GET.
  destruct (isProviderBlacklisted W "litellm"); [reflexivity|].
  destruct (truthy (envBaseUrl W)); [|reflexivity]. cbn [negb].
  destruct (fetch W _ _) as [e|ok st txt body]; [reflexivity|].
  destruct ok; [|reflexivity]. destruct body; reflexivity.
Qed.

(** X8.  The selector in front of the [/models] route.  The route's
    answer always replaces the selector's list (the route never answers
    with an error status), each option carrying the listed id as value
    and as label.  The dropdown is never empty: when the route has
    nothing to list, the static options are offered, or the selected
    model alone when there are none. *)
Theorem selector_over_route {float : Type} (W : World float)
  (MODEL_OPTIONS before : list ModelOption) (selectedModel : string) :
  fetchModels (routeAnswer W) before
  = map dynamicOption (resp_models_body (GET W))
  /\ displayModels MODEL_OPTIONS (fetchModels (routeAnswer W) before) selectedModel
     <> []
  /\ (routeDegraded W ->
      displayModels MODEL_OPTIONS (fetchModels (routeAnswer W) before) selectedModel
      = match MODEL_OPTIONS with
        | [] => [dynamicOption selectedModel]
        | _ => MODEL_OPTIONS
        end).
Proof.
  assert (E : fetchModels (routeAnswer W) before
              = map dynamicOption (resp_models_body (GET W))).
  { unfold routeAnswer, fetchModels. rewrite GET_status. cbn.
    destruct (map dynamicOption (resp_models_body (GET W))); reflexivity. }
  split; [exact E|]. rewrite E. split.
  - unfold displayModels.
    destruct (map dynamicOption (resp_models_body (GET W))); [|discriminate].
    destruct MODEL_OPTIONS; discriminate.
  - intros Hd. rewrite (GET_degraded W Hd). cbn.
    destruct MODEL_OPTIONS; reflexivity.
Qed.

Lemma selector_over_route_witness :
  displayModels [] (fetchModels (routeAnswer Examples.unavailableWorld) [])
                "litellm/gpt-4"
  = [dynamicOption "litellm/gpt-4"].
Proof.
  apply (proj2 (proj2 (selector_over_route Examples.unavailableWorld [] []
                         "litellm/gpt-4"))).
  right; right; left. exists 503, "Service Unavailable", None. reflexivity.
Defined.

(* ===================================================================== *)
(** ** Further properties: what a run keeps invariant *)
(* ===================================================================== *)

Section Accounting.

Context {float : Type}.
Variable W : World float.

(** *** The calls logged by the pieces of [executeRequest] *)

Lemma enhanceError_inv (t0 : Z) (x : JsThrown) (s : Sys) :
  exists e,
    enhanceError W t0 x s = (Thrown e, snd (now W s))
    /\ err_timing e <> None
    /\ (thrown_error x = None ->
        err_message e = match thrown_message x with
                        | Some m => m
                        | None => thrown_string x
                        end).
Proof.
  unfold enhanceError. cbn [now]. eexists. split; [reflexivity|].
  cbn [err_timing err_message]. split; [discriminate|].
  intros ->. reflexivity.
Qed.

Lemma streamWithoutTools_inv (req : ProviderRequest float) (c : ClientConfig)
  (p : Payload float) (t0 : Z) (s : Sys) :
  sent (snd (streamWithoutTools W req c p t0 s)) = sent s ++ [streamingParams p]
  /\ ((exists x, fst (streamWithoutTools W req c p t0 s) = Stream x
                 /\ so_tokens (se_output x) = zeroTokens
                 /\ so_toolCalls (se_output x) = None
                 /\ tm_iterations (so_providerTiming (se_output x)) = None
                 /\ map seg_name (tm_timeSegments (so_providerTiming (se_output x)))
                    = ["Streaming response"])
      \/ (exists e x, fst (streamWithoutTools W req c p t0 s) = Thrown e
                      /\ chat_stream W c (length (sent s)) (streamingParams p) = inr x
                      /\ err_timing e <> None
                      /\ (thrown_error x = None ->
                          err_message e = match thrown_message x with
                                          | Some m => m
                                          | None => thrown_string x
                                          end))).
Proof.
  unfold streamWithoutTools, createStream.
  destruct (chat_stream W c (length (sent s)) (streamingParams p)) as [h|x] eqn:E.
  - cbn. split; [reflexivity|]. left. eexists. repeat split.
  - destruct (enhanceError_inv t0 x {| ticks := ticks s;
                                       sent := sent s ++ [streamingParams p] |})
      as (e & He & Ht & Hm).
    rewrite He. cbn. split; [reflexivity|]. right. exists e, x. repeat split; auto.
Qed.

Lemma streamAfterTools_inv (fr : Frame) (t0 t1 : Z) (st : LoopState) (s : Sys) :
  let last := streamingParams
                (withMessagesAndChoice (payload fr) (currentMessages st)
                                       (Some autoChoice)) in
  sent (snd (streamAfterTools W fr t0 t1 st s)) = sent s ++ [last]
  /\ ((exists x, fst (streamAfterTools W fr t0 t1 st s) = Stream x
                 /\ so_tokens (se_output x) = tokens st
                 /\ tm_iterations (so_providerTiming (se_output x))
                    = Some (S (iterationCount st))
                 /\ tm_timeSegments (so_providerTiming (se_output x))
                    = timeSegments st)
      \/ (exists e x, fst (streamAfterTools W fr t0 t1 st s) = Thrown e
                      /\ chat_stream W (litellm fr) (length (sent s)) last = inr x
                      /\ err_timing e <> None
                      /\ (thrown_error x = None ->
                          err_message e = match thrown_message x with
                                          | Some m => m
                                          | None => thrown_string x
                                          end))).
Proof.
  cbv zeta. unfold streamAfterTools, createStream.
  destruct (chat_stream W (litellm fr) (length (sent s)) _) as [h|x] eqn:E.
  - cbn. split; [reflexivity|]. left. eexists. repeat split.
  - match goal with |- context [enhanceError W t0 x ?s1] =>
      destruct (enhanceError_inv t0 x s1) as (e & He & Ht & Hm) end.
    rewrite He. cbn. split; [reflexivity|]. right. exists e, x. repeat split; auto.
Qed.

(** *** Counting model calls *)

Lemma modelSegments_after (l : list TimeSegment) (vs : list ToolExecution)
  (g : TimeSegment) :
  seg_type g = SegModel ->
  modelSegments (l ++ map toolSegment vs ++ [g]) = modelSegments l ++ [g].
Proof.
  intros Hg. unfold modelSegments. rewrite !filter_app.
  fold (modelSegments (map toolSegment vs)). rewrite modelSegments_tools.
  cbn. unfold isModelSegment. now rewrite Hg.
Qed.

Lemma toolSegments_after (l : list TimeSegment) (vs : list ToolExecution)
  (g : TimeSegment) :
  seg_type g = SegModel ->
  toolSegments (l ++ map toolSegment vs ++ [g])
  = toolSegments l ++ map toolSegment vs.
Proof.
  intros Hg. unfold toolSegments. rewrite !filter_app.
  fold (toolSegments (map toolSegment vs)). rewrite toolSegments_tools.
  cbn. unfold isToolSegment. rewrite Hg. now rewrite app_nil_r.
Qed.

Lemma Counted_loop (req : ProviderRequest float) (response : Completion)
  (p : Pass) :
  toolLoop W (S (MAX_TOOL_ITERATIONS W)) (requestFrame W req)
           (loopStart W req response) (loopSys W req) = Some p ->
  match p with
  | Exit _ st s => Counted W st s
  | Raised _ s => (length (sent s) <= S (MAX_TOOL_ITERATIONS W))%nat
  | Again _ _ => False
  end.
Proof.
  apply (toolLoop_invariant W (requestFrame W req) (Counted W)
           (fun s => (length (sent s) <= S (MAX_TOOL_ITERATIONS W))%nat)).
  - intros st s st' s' (Hle & Hseg & Hsent) H.
    destruct (loopPass_Again_inv W _ st s st' s' H)
      as (tc & tcs & r & Hlt & _ & _ & -> & ->).
    unfold Counted, stateAfterPass, sysAfterPass.
    cbn [iterationCount timeSegments sent].
    rewrite modelSegments_after by reflexivity.
    rewrite !length_app. cbn [length]. repeat split; lia.
  - intros st s why st' s' (Hle & Hseg & Hsent) H.
    destruct (loopPass_Exit_inv W _ st s why st' s' H)
      as (-> & _ & _ & _ & Hi & Hts & _).
    unfold Counted. rewrite Hi, Hts. repeat split; assumption.
  - intros st s e s' (Hle & Hseg & Hsent) H.
    destruct (loopPass_Raised_inv W _ st s e s' H) as (tc & tcs & Hlt & _ & _ & ->).
    unfold sysAfterPass. cbn [sent]. rewrite length_app. cbn [length]. lia.
  - unfold Counted, loopStart, loopSys, initialState. cbn. repeat split; lia.
Qed.

End Accounting.

(** X9.  A request issues at most [MAX_TOOL_ITERATIONS + 2] model calls,
    whatever the model, the tools and the network do.  In a buffered
    result the reported [iterations], the number of model TimeSegments
    and the number of model calls issued are one and the same number,
    between 1 and [MAX_TOOL_ITERATIONS + 1]. *)
Theorem iterations_count_model_calls {float : Type} (W : World float)
  (req : ProviderRequest float) (out : Outcome) (s : Sys) :
  executeRequest W req = Some (out, s) ->
  (length (sent s) <= MAX_TOOL_ITERATIONS W + 2)%nat
  /\ (forall r, out = Response r ->
        exists tm n,
          res_timing r = Some tm
          /\ tm_iterations tm = Some n
          /\ length (modelSegments (tm_timeSegments tm)) = n
          /\ length (sent s) = n
          /\ (1 <= n <= MAX_TOOL_ITERATIONS W + 1)%nat).
Proof.
  intros H.
  destruct (executeRequest_cases W req out s H)
    as [(_ & -> & ->) | [(_ & _ & E) | [(_ & _ & x & _ & E)
       | (_ & _ & response & p & _ & Hloop & E)]]].
  - split; [cbn; lia|]. discriminate.
  - destruct (streamWithoutTools_inv W req (requestClient W req)
                (buildPayload W req) (Date_now W 0) {| ticks := 1; sent := [] |})
      as (Hs & Ho).
    rewrite <- E in Hs, Ho. cbn [fst snd sent app] in *. split.
    + rewrite Hs. cbn. lia.
    + intros r ->. destruct Ho as [(x & Hx & _) | (e & x & Hx & _)]; discriminate.
  - destruct (enhanceError_inv W (Date_now W 0) x
                {| ticks := 2; sent := [buildPayload W req] |}) as (e & He & _).
    rewrite He in E. injection E as -> ->. split; [cbn; lia|]. discriminate.
  - pose proof (Counted_loop W req response p Hloop) as HC.
    destruct p as [why st s5|st s5|x s5]; [|destruct E|].
    + destruct HC as (Hle & Hseg & Hsent).
      destruct (stream req).
      * destruct (streamAfterTools_inv W (requestFrame W req) (Date_now W 0)
                    (Date_now W 2 - Date_now W 1) st s5) as (Hs & Ho).
        rewrite <- E in Hs, Ho. cbn [fst snd] in *. split.
        -- rewrite Hs, length_app. cbn [length]. lia.
        -- intros r ->.
           destruct Ho as [(x & Hx & _) | (e & x & Hx & _)]; discriminate.
      * unfold bufferedResponse in E. cbn [now] in E. injection E as -> ->.
        cbn [sent]. split; [lia|].
        intros r [= <-]. eexists. exists (S (iterationCount st)).
        cbn [res_timing loopTiming tm_iterations tm_timeSegments].
        repeat split; try assumption; lia.
    + destruct (enhanceError_inv W (Date_now W 0) x s5) as (e & He & _).
      rewrite He in E. injection E as -> ->. cbn [now snd sent].
      split; [lia|]. discriminate.
Qed.

Lemma iterations_count_model_calls_witness :
  exists r s tm,
    executeRequest Examples.insistentWorld
      (Examples.requestFor "litellm/gpt-4" (Some [Examples.tool "a" None]) false)
    = Some (Response r, s)
    /\ res_timing r = Some tm
    /\ tm_iterations tm = Some 21%nat
    /\ length (modelSegments (tm_timeSegments tm)) = 21%nat
    /\ length (sent s) = 21%nat.
Proof.
  destruct (executeRequest_total Examples.insistentWorld
              (Examples.requestFor "litellm/gpt-4"
                 (Some [Examples.tool "a" None]) false)) as ([out s] & Hrun).
  assert (Hout : exists r, out = Response r /\ length (sent s) = 21%nat).
  { revert Hrun. vm_compute. intros [= <- <-]. eexists. split; reflexivity. }
  destruct Hout as (r & -> & Hlen).
  destruct (proj2 (iterations_count_model_calls Examples.insistentWorld _ _ _ Hrun)
              r eq_refl) as (tm & n & Htm & Hit & Hseg & Hsent & _).
  exists r, s, tm. rewrite Hsent in Hlen. subst n. repeat split; assumption.
Defined.

(* ===================================================================== *)
(** ** Further properties: timing and tool bookkeeping *)
(* ===================================================================== *)

Section Bookkeeping.

Context {float : Type}.
Variable W : World float.

(** A buffered result comes from a loop that was left normally. *)
Lemma executeRequest_Response_inv (req : ProviderRequest float)
  (r : ProviderResponse) (s : Sys) :
  executeRequest W req = Some (Response r, s) ->
  exists response why st s5,
    stream req = false
    /\ toolLoop W (S (MAX_TOOL_ITERATIONS W)) (requestFrame W req)
                (loopStart W req response) (loopSys W req)
       = Some (Exit why st s5)
    /\ (Response r, s)
       = bufferedResponse W (requestFrame W req) (Date_now W 0)
                          (Date_now W 2 - Date_now W 1) st s5.
Proof.
  intros H.
  destruct (executeRequest_cases W req _ s H)
    as [(_ & E & _) | [(_ & _ & E) | [(_ & _ & x & _ & E)
       | (_ & _ & response & p & _ & Hloop & E)]]].
  - discriminate.
  - destruct (streamWithoutTools_inv W req (requestClient W req)
                (buildPayload W req) (Date_now W 0) {| ticks := 1; sent := [] |})
      as (_ & Ho).
    rewrite <- E in Ho. cbn [fst] in Ho.
    destruct Ho as [(x & Hx & _) | (e & x & Hx & _)]; discriminate.
  - destruct (enhanceError_inv W (Date_now W 0) x
                {| ticks := 2; sent := [buildPayload W req] |}) as (e & He & _).
    rewrite He in E. discriminate.
  - destruct p as [why st s5|st s5|x s5]; [|destruct E|].
    + destruct (stream req) eqn:Hs.
      * destruct (streamAfterTools_inv W (requestFrame W req) (Date_now W 0)
                    (Date_now W 2 - Date_now W 1) st s5) as (_ & Ho).
        rewrite <- E in Ho. cbn [fst] in Ho.
        destruct Ho as [(x & Hx & _) | (e & x & Hx & _)]; discriminate.
      * exists response, why, st, s5. repeat split; assumption.
    + destruct (enhanceError_inv W (Date_now W 0) x s5) as (e & He & _).
      rewrite He in E. discriminate.
Qed.

Lemma sumDurations_app (l1 l2 : list TimeSegment) :
  sumDurations (l1 ++ l2) = sumDurations l1 + sumDurations l2.
Proof. induction l1 as [|g l1 IH]; cbn; [reflexivity|]. rewrite IH. lia. Qed.

Lemma settledValue_spans (req : ProviderRequest float) (b i : nat)
  (tc : ToolCall) (st en : Z) (v : ToolExecution) :
  settledValue W req b i tc st en = Some v ->
  te_duration v = te_endTime v - te_startTime v.
Proof.
  unfold settledValue.
  destruct (callFate W req tc) as [|msg|tp ep]; [discriminate| |].
  - intros [= <-]. reflexivity.
  - destruct (executeTool W b i (tc_name tc) ep true); intros [= <-]; reflexivity.
Qed.

Lemma SettledFrom_spans (req : ProviderRequest float) (b j : nat)
  (tcs : list ToolCall) (vs : list (option ToolExecution)) :
  SettledFrom W req b j tcs vs ->
  Forall (fun v => te_duration v = te_endTime v - te_startTime v)
         (executions (map (@fulfilled _) vs)).
Proof.
  induction 1 as [j|j tc tcs vs st en H IH]; [constructor|].
  cbn [map executions flat_map].
  destruct (settledValue W req b j tc st en) as [v|] eqn:E; [|exact IH].
  cbn [app]. constructor; [|exact IH].
  exact (settledValue_spans _ _ _ _ _ _ _ E).
Qed.

Lemma batch_spans (fr : Frame) (st : LoopState) (s : Sys) (calls : list ToolCall) :
  Forall spansItsDuration
         (map toolSegment (executions (fst (batchOf W fr st s calls)))).
Proof.
  destruct (batchOf_settled W fr st s calls) as (vs & -> & Hset).
  apply Forall_map.
  exact (SettledFrom_spans _ _ _ _ _ Hset).
Qed.

Lemma Timed_loop (req : ProviderRequest float) (response : Completion)
  (why : ExitReason) (st : LoopState) (s : Sys) :
  toolLoop W (S (MAX_TOOL_ITERATIONS W)) (requestFrame W req)
           (loopStart W req response) (loopSys W req)
  = Some (Exit why st s) ->
  Timed (Date_now W 1) (Date_now W 2 - Date_now W 1) st.
Proof.
  intros H.
  apply (toolLoop_invariant W (requestFrame W req)
           (fun st _ => Timed (Date_now W 1) (Date_now W 2 - Date_now W 1) st)
           (fun _ => True)) in H.
  - exact H.
  - intros st0 s0 st' s' (Hm & Hall & (rest & Hhd)) Hp.
    destruct (loopPass_Again_inv W _ st0 s0 st' s' Hp)
      as (tc & tcs & r & _ & _ & _ & -> & _).
    unfold Timed, stateAfterPass. cbn [modelTime timeSegments].
    rewrite modelSegments_after by reflexivity.
    rewrite sumDurations_app, <- Hm. cbn [sumDurations modelSegment seg_duration].
    split; [lia|]. split.
    + apply Forall_app. split; [exact Hall|].
      apply Forall_app. split; [apply batch_spans|].
      constructor; [reflexivity|constructor].
    + rewrite Hhd. eexists. reflexivity.
  - intros st0 s0 why0 st' s' (Hm & Hall & Hhd) Hp.
    destruct (loopPass_Exit_inv W _ st0 s0 why0 st' s' Hp)
      as (_ & _ & _ & _ & _ & Hts & _).
    destruct (loopPass_Exit_rest W _ st0 s0 why0 st' s' Hp) as (_ & _ & Hmt & _).
    unfold Timed. rewrite Hts, Hmt. repeat split; assumption.
  - trivial.
  - unfold Timed, loopStart, initialState, initialSegment.
    cbn [modelTime timeSegments requestFrame request]. split; [cbn; lia|]. split.
    + constructor; [|constructor]. unfold spansItsDuration. cbn. lia.
    + eexists. reflexivity.
Qed.

Lemma records_match_segments (vs : list ToolExecution) :
  map rec_name (map (toolCallRecord W) vs) = map seg_name (map toolSegment vs)
  /\ map rec_duration (map (toolCallRecord W) vs)
     = map seg_duration (map toolSegment vs).
Proof. rewrite !map_map. split; reflexivity. Qed.

Lemma successful_results (vs : list ToolExecution) :
  map rec_result (successfulRecords (map (toolCallRecord W) vs))
  = map (fun v => tr_output (te_result v))
        (filter (fun v => tr_success (te_result v)) vs).
Proof.
  induction vs as [|v vs IH]; [reflexivity|].
  cbn [map successfulRecords filter toolCallRecord rec_success].
  unfold successfulRecords in IH.
  destruct (tr_success (te_result v)) eqn:E.
  - cbn [map]. f_equal; [|exact IH].
    cbn [toolCallRecord rec_result]. unfold resultContent. now rewrite E.
  - exact IH.
Qed.

Lemma Booked_loop (req : ProviderRequest float) (response : Completion)
  (why : ExitReason) (st : LoopState) (s : Sys) :
  toolLoop W (S (MAX_TOOL_ITERATIONS W)) (requestFrame W req)
           (loopStart W req response) (loopSys W req)
  = Some (Exit why st s) ->
  Booked st.
Proof.
  intros H.
  apply (toolLoop_invariant W (requestFrame W req) (fun st _ => Booked st)
           (fun _ => True)) in H.
  - exact H.
  - intros st0 s0 st' s' (Hn & Hd & Hr) Hp.
    destruct (loopPass_Again_inv W _ st0 s0 st' s' Hp)
      as (tc & tcs & r & _ & _ & _ & -> & _).
    unfold Booked, stateAfterPass. cbn [toolCalls timeSegments toolResults].
    rewrite toolSegments_after by reflexivity.
    rewrite !map_app, Hn, Hd, Hr.
    destruct (records_match_segments
                (executions (fst (batchOf W (requestFrame W req) st0 s0 (tc :: tcs)))))
      as (En & Ed).
    rewrite En, Ed. split; [reflexivity|]. split; [reflexivity|].
    unfold successfulRecords at 2. rewrite filter_app, map_app.
    fold (successfulRecords (toolCalls st0)).
    fold (successfulRecords
            (map (toolCallRecord W)
                 (executions (fst (batchOf W (requestFrame W req) st0 s0 (tc :: tcs)))))).
    now rewrite successful_results.
  - intros st0 s0 why0 st' s' (Hn & Hd & Hr) Hp.
    destruct (loopPass_Exit_inv W _ st0 s0 why0 st' s' Hp)
      as (_ & _ & Htc & _ & _ & Hts & _).
    destruct (loopPass_Exit_rest W _ st0 s0 why0 st' s' Hp) as (_ & Htr & _ & _).
    unfold Booked. rewrite Hts, Htc, Htr. repeat split; assumption.
  - trivial.
  - unfold Booked, loopStart, initialState. cbn. repeat split.
Qed.

Lemma orNil_nonEmpty {A : Type} (l : list A) : orNil (nonEmpty l) = l.
Proof. destruct l; reflexivity. Qed.

End Bookkeeping.

(** X10.  In a buffered result the reported [modelTime] is the sum of
    the durations of the model TimeSegments, every TimeSegment has a
    duration equal to its end time minus its start time, and the first
    TimeSegment is the model segment of the first call, whose duration is
    the reported [firstResponseTime]. *)
Theorem model_time_is_sum_of_segments {float : Type} (W : World float)
  (req : ProviderRequest float) (r : ProviderResponse) (s : Sys) :
  executeRequest W req = Some (Response r, s) ->
  exists tm first rest,
    res_timing r = Some tm
    /\ tm_modelTime tm = Some (sumDurations (modelSegments (tm_timeSegments tm)))
    /\ Forall spansItsDuration (tm_timeSegments tm)
    /\ tm_timeSegments tm = first :: rest
    /\ seg_type first = SegModel
    /\ seg_name first = "Initial response"
    /\ tm_firstResponseTime tm = Some (seg_duration first).
Proof.
  intros H.
  destruct (executeRequest_Response_inv W req r s H)
    as (response & why & st & s5 & _ & Hloop & E).
  destruct (Timed_loop W req response why st s5 Hloop) as (Hm & Hall & (rest & Hhd)).
  unfold bufferedResponse in E. cbn [now] in E. injection E as -> _.
  eexists. exists (initialSegment (Date_now W 1) (Date_now W 2 - Date_now W 1)), rest.
  split; [reflexivity|].
  cbn [loopTiming tm_modelTime tm_timeSegments tm_firstResponseTime].
  rewrite <- Hm. repeat split; assumption.
Qed.

Lemma model_time_is_sum_of_segments_witness :
  exists r s tm,
    executeRequest Examples.racingWorld Examples.twoToolRequest
    = Some (Response r, s)
    /\ res_timing r = Some tm
    /\ tm_modelTime tm = Some 20
    /\ sumDurations (modelSegments (tm_timeSegments tm)) = 20.
Proof.
  destruct (executeRequest_total Examples.racingWorld Examples.twoToolRequest)
    as ([out s] & Hrun).
  assert (Hout : exists r, out = Response r
                           /\ option_map (@tm_modelTime) (res_timing r)
                              = Some (Some 20)).
  { revert Hrun. vm_compute. intros [= <- <-]. eexists. split; reflexivity. }
  destruct Hout as (r & -> & Hmt).
  destruct (model_time_is_sum_of_segments Examples.racingWorld _ _ _ Hrun)
    as (tm & first & rest & Htm & Hsum & _).
  exists r, s, tm. rewrite Htm in Hmt. cbn [option_map] in Hmt.
  injection Hmt as Hmt. rewrite Hmt in Hsum. injection Hsum as Hsum.
  repeat split; auto.
Defined.

(** X11.  In a buffered result the tool call records and the tool
    TimeSegments pair up, in order, with the same names and the same
    durations; and the list of raw tool results is exactly the list of
    the results of the successful records, in order (a failed call leaves
    a record and a segment but no raw result). *)
Theorem records_segments_and_results_agree {float : Type} (W : World float)
  (req : ProviderRequest float) (r : ProviderResponse) (s : Sys) :
  executeRequest W req = Some (Response r, s) ->
  exists tm,
    res_timing r = Some tm
    /\ map rec_name (orNil (res_toolCalls r))
       = map seg_name (toolSegments (tm_timeSegments tm))
    /\ map rec_duration (orNil (res_toolCalls r))
       = map seg_duration (toolSegments (tm_timeSegments tm))
    /\ orNil (res_toolResults r)
       = map rec_result (successfulRecords (orNil (res_toolCalls r))).
Proof.
  intros H.
  destruct (executeRequest_Response_inv W req r s H)
    as (response & why & st & s5 & _ & Hloop & E).
  destruct (Booked_loop W req response why st s5 Hloop) as (Hn & Hd & Hr).
  unfold bufferedResponse in E. cbn [now] in E. injection E as -> _.
  eexists. split; [reflexivity|].
  cbn [res_toolCalls res_toolResults loopTiming tm_timeSegments].
  rewrite !orNil_nonEmpty. repeat split; assumption.
Qed.

Lemma records_segments_and_results_agree_witness :
  exists r s,
    executeRequest Examples.failingWorld Examples.twoToolRequest
    = Some (Response r, s)
    /\ map rec_success (orNil (res_toolCalls r)) = [false; true]
    /\ orNil (res_toolResults r) = [Some (JStr "b")]
    /\ orNil (res_toolResults r)
       = map rec_result (successfulRecords (orNil (res_toolCalls r))).
Proof.
  destruct (executeRequest_total Examples.failingWorld Examples.twoToolRequest)
    as ([out s] & Hrun).
  assert (Hout : exists r, out = Response r
                           /\ map rec_success (orNil (res_toolCalls r)) = [false; true]
                           /\ orNil (res_toolResults r) = [Some (JStr "b")]).
  { revert Hrun. vm_compute. intros [= <- <-]. eexists. repeat split. }
  destruct Hout as (r & -> & Hs & Hr).
  destruct (records_segments_and_results_agree Examples.failingWorld _ _ _ Hrun)
    as (tm & _ & _ & _ & Hres).
  exists r, s. repeat split; assumption.
Defined.

(* ===================================================================== *)
(** ** Further properties: the payloads of a run *)
(* ===================================================================== *)

Section Calls.

Context {float : Type}.
Variable W : World float.

Lemma historyGrows_snoc (l : list (Payload float)) (p q : Payload float) :
  historyGrows (l ++ [p]) ->
  (exists more, p_messages q = p_messages p ++ more) ->
  historyGrows ((l ++ [p]) ++ [q]).
Proof.
  intros Hl Hq. induction l as [|a l IH].
  - cbn. split; [exact Hq|exact I].
  - cbn [app] in *. destruct (l ++ [p]) as [|b rest] eqn:E.
    + destruct l; discriminate.
    + cbn [app historyGrows] in *. destruct Hl as (Hab & Hrest).
      split; [exact Hab|]. apply IH. exact Hrest.
Qed.

Lemma buildPayload_choice_tools (req : ProviderRequest float) :
  p_tool_choice (buildPayload W req) <> None ->
  p_tools (buildPayload W req) <> None.
Proof.
  cbn [buildPayload p_tool_choice p_tools].
  destruct (activeTools W req); cbn; [discriminate|congruence].
Qed.

Lemma sameSettings_refl (p : Payload float) : sameSettings p p.
Proof. repeat split. Qed.

Lemma nextPayloadOf_wellFormed (req : ProviderRequest float) (st : LoopState)
  (s : Sys) (calls : list ToolCall) :
  wellFormedCall W req (nextPayloadOf W (requestFrame W req) st s calls)
  /\ p_stream (nextPayloadOf W (requestFrame W req) st s calls) = false.
Proof.
  unfold wellFormedCall, nextPayloadOf, withMessagesAndChoice, sameSettings,
    choiceHasTools.
  cbn [p_model p_temperature p_max_tokens p_response_format p_tools p_tool_choice
       p_stream requestFrame payload].
  split; [|reflexivity]. split; [repeat split|].
  unfold nextToolChoice. cbn [requestFrame originalToolChoice payload forcedTools].
  destruct (isObjectChoice (p_tool_choice (buildPayload W req))) eqn:Hobj; cbn [andb].
  - intros _. apply buildPayload_choice_tools.
    destruct (p_tool_choice (buildPayload W req)); [discriminate|discriminate].
  - apply buildPayload_choice_tools.
Qed.

Lemma messagesAfterBatch_extends (fr : Frame) (st : LoopState) (s : Sys)
  (calls : list ToolCall) :
  exists more, messagesAfterBatch W fr st s calls = currentMessages st ++ more.
Proof. unfold messagesAfterBatch. eexists. reflexivity. Qed.

Lemma Logged_loop (req : ProviderRequest float) (response : Completion) (p : Pass) :
  toolLoop W (S (MAX_TOOL_ITERATIONS W)) (requestFrame W req)
           (loopStart W req response) (loopSys W req) = Some p ->
  match p with
  | Exit _ st s => Logged W req st s
  | Raised _ s => LoggedCalls W req s
  | Again _ _ => False
  end.
Proof.
  apply (toolLoop_invariant W (requestFrame W req) (Logged W req)
           (LoggedCalls W req)).
  - intros st s st' s' ((earlier & p0 & Hs & Hm) & Hg & Hall) H.
    destruct (loopPass_Again_inv W _ st s st' s' H)
      as (tc & tcs & r & _ & _ & _ & -> & ->).
    unfold Logged, stateAfterPass, sysAfterPass. cbn [sent currentMessages].
    split; [|split].
    + eexists. eexists. split; [reflexivity|]. reflexivity.
    + rewrite Hs in *. apply historyGrows_snoc; [exact Hg|].
      rewrite Hm. cbn [nextPayloadOf withMessagesAndChoice p_messages].
      apply messagesAfterBatch_extends.
    + apply Forall_app. split; [exact Hall|].
      constructor; [|constructor]. apply nextPayloadOf_wellFormed.
  - intros st s why st' s' ((earlier & p0 & Hs & Hm) & Hg & Hall) H.
    destruct (loopPass_Exit_inv W _ st s why st' s' H)
      as (-> & _ & _ & Hcm & _).
    unfold Logged. rewrite Hcm. split; [|split; assumption].
    exists earlier, p0. split; assumption.
  - intros st s e s' ((earlier & p0 & Hs & Hm) & Hg & Hall) H.
    destruct (loopPass_Raised_inv W _ st s e s' H) as (tc & tcs & _ & _ & _ & ->).
    unfold LoggedCalls, sysAfterPass. cbn [sent]. split.
    + rewrite Hs in *. apply historyGrows_snoc; [exact Hg|].
      rewrite Hm. cbn [nextPayloadOf withMessagesAndChoice p_messages].
      apply messagesAfterBatch_extends.
    + apply Forall_app. split; [exact Hall|].
      constructor; [|constructor]. apply nextPayloadOf_wellFormed.
  - unfold Logged, loopStart, loopSys, initialState.
    cbn [sent currentMessages requestFrame request]. split; [|split].
    + exists [], (buildPayload W req). split; reflexivity.
    + exact I.
    + constructor; [|constructor]. split; [|reflexivity].
      split; [apply sameSettings_refl|]. unfold choiceHasTools.
      apply buildPayload_choice_tools.
Qed.

Lemma slowPath_has_tools (req : ProviderRequest float) :
  takesFastPath W req = false -> stream req = true ->
  p_tools (buildPayload W req) <> None.
Proof.
  unfold takesFastPath, hasActiveTools. intros H Hs. rewrite Hs in H.
  cbn [andb] in H. cbn [buildPayload p_tools].
  destruct (requestTools req) as [[|t ts]|]; try discriminate.
  destruct (activeTools W req); [discriminate|discriminate].
Qed.

(** The calls of a whole run. *)
Lemma run_calls (req : ProviderRequest float) (out : Outcome) (s : Sys) :
  executeRequest W req = Some (out, s) ->
  historyGrows (sent s) /\ Forall (wellFormedCall W req) (sent s).
Proof.
  intros H.
  destruct (executeRequest_cases W req out s H)
    as [(_ & -> & ->) | [(_ & _ & E) | [(_ & _ & x & _ & E)
       | (_ & Hslow & response & p & _ & Hloop & E)]]].
  - split; [exact I|constructor].
  - destruct (streamWithoutTools_inv W req (requestClient W req)
                (buildPayload W req) (Date_now W 0) {| ticks := 1; sent := [] |})
      as (Hs & _).
    rewrite <- E in Hs. cbn [snd sent app] in Hs. rewrite Hs.
    split; [exact I|]. constructor; [|constructor].
    split; [repeat split|]. unfold choiceHasTools.
    cbn [streamingParams p_tool_choice p_tools]. apply buildPayload_choice_tools.
  - destruct (enhanceError_inv W (Date_now W 0) x
                {| ticks := 2; sent := [buildPayload W req] |}) as (e & He & _).
    rewrite He in E. injection E as _ ->. cbn [now snd sent].
    split; [exact I|]. constructor; [|constructor].
    split; [apply sameSettings_refl|]. unfold choiceHasTools.
    apply buildPayload_choice_tools.
  - pose proof (Logged_loop req response p Hloop) as HL.
    assert (Hweak : forall l : list (Payload float),
               Forall (fun p => wellFormedCall W req p /\ p_stream p = false) l ->
               Forall (wellFormedCall W req) l).
    { intros l Hl. eapply Forall_impl; [|exact Hl]. intros a Ha. apply Ha. }
    destruct p as [why st s5|st s5|x s5]; [|destruct E|].
    + destruct HL as ((earlier & p0 & Hs & Hm) & Hg & Hall).
      destruct (stream req) eqn:Hstream.
      * destruct (streamAfterTools_inv W (requestFrame W req) (Date_now W 0)
                    (Date_now W 2 - Date_now W 1) st s5) as (Hs' & _).
        rewrite <- E in Hs'. cbn [snd] in Hs'. rewrite Hs'. split.
        -- rewrite Hs in *. apply historyGrows_snoc; [exact Hg|].
           exists []. cbn [streamingParams withMessagesAndChoice p_messages].
           now rewrite Hm, app_nil_r.
        -- apply Forall_app. split; [apply Hweak; exact Hall|].
           constructor; [|constructor]. split; [repeat split|].
           unfold choiceHasTools. intros _.
           cbn [streamingParams withMessagesAndChoice p_tools requestFrame payload].
           exact (slowPath_has_tools req Hslow Hstream).
      * unfold bufferedResponse in E. cbn [now] in E. injection E as _ ->.
        cbn [sent]. split; [exact Hg|apply Hweak; exact Hall].
    + destruct HL as (Hg & Hall).
      destruct (enhanceError_inv W (Date_now W 0) x s5) as (e & He & _).
      rewrite He in E. injection E as _ ->. cbn [now snd sent].
      split; [exact Hg|apply Hweak; exact Hall].
Qed.

End Calls.

(** X12.  Every model call of a request is made with the same model id
    (the request's, without the provider prefix), temperature, token
    limit, response format and tools; only the messages, the tool choice
    and the streaming flags differ between the calls of a run. *)
Theorem calls_share_settings {float : Type} (W : World float)
  (req : ProviderRequest float) (out : Outcome) (s : Sys) :
  executeRequest W req = Some (out, s) ->
  Forall (fun p =>
            p_model p = stripProviderPrefix (model req)
            /\ p_temperature p = temperature req
            /\ p_max_tokens p = maxTokens req
            /\ p_response_format p
               = option_map responseFormatBlock (responseFormat req)
            /\ p_tools p = p_tools (buildPayload W req))
         (sent s).
Proof.
  intros H. destruct (run_calls W req out s H) as (_ & Hall).
  eapply Forall_impl; [|exact Hall].
  intros p ((Hm & Ht & Hx & Hf & Htl) & _).
  cbn [buildPayload p_model p_temperature p_max_tokens p_response_format] in *.
  repeat split; congruence.
Qed.

Lemma calls_share_settings_witness :
  exists out s,
    executeRequest Examples.obedientWorld Examples.forcedRequest = Some (out, s)
    /\ map (@p_model _) (sent s) = ["gpt-4"; "gpt-4"; "gpt-4"].
Proof.
  destruct (executeRequest_total Examples.obedientWorld Examples.forcedRequest)
    as ([out s] & Hrun).
  pose proof (calls_share_settings Examples.obedientWorld _ _ _ Hrun) as Hall.
  exists out, s. split; [exact Hrun|].
  assert (Hlen : length (sent s) = 3%nat).
  { revert Hrun. vm_compute. intros [= _ <-]. reflexivity. }
  destruct (sent s) as [|p1 [|p2 [|p3 [|p4 l]]]]; try discriminate.
  inversion Hall as [|? ? (H1 & _) Hall2]; subst.
  inversion Hall2 as [|? ? (H2 & _) Hall3]; subst.
  inversion Hall3 as [|? ? (H3 & _) _]; subst.
  cbn [map]. rewrite H1, H2, H3. reflexivity.
Defined.

(** X13.  The message history of a run only grows: the first model call
    carries the system prompt, the context and the caller's messages, in
    that order, and every later call carries the messages of the call
    before it followed by further ones. *)
Theorem history_is_append_only {float : Type} (W : World float)
  (req : ProviderRequest float) (out : Outcome) (s : Sys) :
  executeRequest W req = Some (out, s) ->
  historyGrows (sent s)
  /\ (forall p rest, sent s = p :: rest -> p_messages p = allMessages req).
Proof.
  intros H. split; [apply (run_calls W req out s H)|].
  intros p rest Hs.
  destruct (executeRequest_cases W req out s H)
    as [(_ & -> & ->) | [(_ & _ & E) | [(_ & _ & x & _ & E)
       | (_ & _ & response & q & _ & Hloop & E)]]].
  - discriminate.
  - destruct (streamWithoutTools_inv W req (requestClient W req)
                (buildPayload W req) (Date_now W 0) {| ticks := 1; sent := [] |})
      as (Hs' & _).
    rewrite <- E in Hs'. cbn [snd sent app] in Hs'. rewrite Hs' in Hs.
    injection Hs as <- _. reflexivity.
  - destruct (enhanceError_inv W (Date_now W 0) x
                {| ticks := 2; sent := [buildPayload W req] |}) as (e & He & _).
    rewrite He in E. injection E as _ ->. cbn [now snd sent] in Hs.
    injection Hs as <- _. reflexivity.
  - assert (Hfirst : forall s5 : Sys,
               (exists tail, sent s5 = buildPayload W req :: tail) ->
               sent s = sent s5 \/ (exists q', sent s = sent s5 ++ [q']) ->
               p_messages p = allMessages req).
    { intros s5 (tail & Ht) [Heq | (q' & Heq)]; rewrite Heq, Ht in Hs;
        injection Hs as <- _; reflexivity. }
    assert (Hhead : match q with
                    | Exit _ _ s5 | Raised _ s5 =>
                        exists tail, sent s5 = buildPayload W req :: tail
                    | Again _ _ => False
                    end).
    { revert Hloop.
      apply (toolLoop_invariant W (requestFrame W req)
               (fun _ s5 => exists tail, sent s5 = buildPayload W req :: tail)
               (fun s5 => exists tail, sent s5 = buildPayload W req :: tail)).
      - intros st0 s0 st' s' (tail & Ht) Hp.
        destruct (loopPass_Again_inv W _ st0 s0 st' s' Hp)
          as (tc & tcs & r & _ & _ & _ & _ & ->).
        unfold sysAfterPass. cbn [sent]. rewrite Ht. eexists. reflexivity.
      - intros st0 s0 why st' s' Ht Hp.
        destruct (loopPass_Exit_inv W _ st0 s0 why st' s' Hp) as (-> & _).
        exact Ht.
      - intros st0 s0 e s' (tail & Ht) Hp.
        destruct (loopPass_Raised_inv W _ st0 s0 e s' Hp) as (tc & tcs & _ & _ & _ & ->).
        unfold sysAfterPass. cbn [sent]. rewrite Ht. eexists. reflexivity.
      - exists []. reflexivity. }
    destruct q as [why st s5|st s5|x s5]; [|destruct E|].
    + apply (Hfirst s5 Hhead). destruct (stream req).
      * destruct (streamAfterTools_inv W (requestFrame W req) (Date_now W 0)
                    (Date_now W 2 - Date_now W 1) st s5) as (Hs' & _).
        rewrite <- E in Hs'. cbn [snd] in Hs'. right. eexists. exact Hs'.
      * unfold bufferedResponse in E. cbn [now] in E. injection E as _ ->.
        left. reflexivity.
    + apply (Hfirst s5 Hhead).
      destruct (enhanceError_inv W (Date_now W 0) x s5) as (e & He & _).
      rewrite He in E. injection E as _ ->. left. reflexivity.
Qed.

Lemma history_is_append_only_witness :
  exists out s,
    executeRequest Examples.racingWorld Examples.twoToolRequest = Some (out, s)
    /\ historyGrows (sent s)
    /\ map (fun p => length (p_messages p)) (sent s) = [1%nat; 4%nat].
Proof.
  destruct (executeRequest_total Examples.racingWorld Examples.twoToolRequest)
    as ([out s] & Hrun).
  destruct (history_is_append_only Examples.racingWorld _ _ _ Hrun) as (Hg & _).
  exists out, s. split; [exact Hrun|]. split; [exact Hg|].
  revert Hrun. vm_compute. intros [= _ <-]. reflexivity.
Defined.

(** X14.  No model call names a tool choice without offering tools: a
    payload carries [tool_choice] only together with [tools]. *)
Theorem tool_choice_only_with_tools {float : Type} (W : World float)
  (req : ProviderRequest float) (out : Outcome) (s : Sys) :
  executeRequest W req = Some (out, s) ->
  Forall choiceHasTools (sent s).
Proof.
  intros H. destruct (run_calls W req out s H) as (_ & Hall).
  eapply Forall_impl; [|exact Hall]. intros p (_ & Hp). exact Hp.
Qed.

Lemma tool_choice_only_with_tools_witness :
  exists out s,
    executeRequest Examples.plainWorld Examples.plainRequest = Some (out, s)
    /\ Forall choiceHasTools (sent s)
    /\ map (@p_tool_choice _) (sent s) = [None].
Proof.
  destruct (executeRequest_total Examples.plainWorld Examples.plainRequest)
    as ([out s] & Hrun).
  exists out, s. split; [exact Hrun|].
  split; [exact (tool_choice_only_with_tools Examples.plainWorld _ _ _ Hrun)|].
  revert Hrun. vm_compute. intros [= _ <-]. reflexivity.
Defined.

(* ===================================================================== *)
(** ** Further properties: streaming, errors and the tool choice *)
(* ===================================================================== *)

Section Outcomes.

Context {float : Type}.
Variable W : World float.

Lemma toolLoop_Raised_inv (fr : Frame) (fuel : nat) :
  forall st s e s',
    toolLoop W fuel fr st s = Some (Raised e s') ->
    exists earlier p,
      sent s' = earlier ++ [p]
      /\ chat_create W (litellm fr) (length earlier) p = inr e.
Proof.
  induction fuel as [|fuel IH]; intros st s e s' H; [discriminate|].
  cbn [toolLoop] in H.
  destruct (loopPass W fr st s) as [why st1 s1|st1 s1|e1 s1] eqn:E.
  - discriminate.
  - exact (IH _ _ _ _ H).
  - injection H as -> ->.
    destruct (loopPass_Raised_inv W fr st s e s' E) as (tc & tcs & _ & _ & Hc & ->).
    exists (sent s), (nextPayloadOf W fr st s (tc :: tcs)). split; [reflexivity|].
    exact Hc.
Qed.

(** Where a thrown error comes from. *)
Lemma Thrown_inv (req : ProviderRequest float) (e : ProviderError) (s : Sys) :
  executeRequest W req = Some (Thrown e, s) ->
  (truthy (requestBaseUrl W req) = false /\ e = baseUrlRequired /\ sent s = [])
  \/ (truthy (requestBaseUrl W req) = true
      /\ err_timing e <> None
      /\ exists earlier p x,
           sent s = earlier ++ [p]
           /\ (chat_create W (requestClient W req) (length earlier) p = inr x
               \/ chat_stream W (requestClient W req) (length earlier) p = inr x)
           /\ (thrown_error x = None ->
               err_message e = match thrown_message x with
                               | Some m => m
                               | None => thrown_string x
                               end)).
Proof.
  intros H.
  destruct (executeRequest_cases W req _ s H)
    as [(Hu & E & ->) | [(Hu & _ & E) | [(Hu & _ & x & Hx & E)
       | (Hu & _ & response & p & _ & Hloop & E)]]].
  - left. injection E as ->. repeat split. exact Hu.
  - right. split; [exact Hu|].
    destruct (streamWithoutTools_inv W req (requestClient W req)
                (buildPayload W req) (Date_now W 0) {| ticks := 1; sent := [] |})
      as (Hs & Ho).
    rewrite <- E in Hs, Ho. cbn [fst snd sent app length] in *.
    destruct Ho as [(x & Hx & _) | (e' & x & He & Hc & Ht & Hm)]; [discriminate|].
    injection He as <-. split; [exact Ht|].
    exists [], (streamingParams (buildPayload W req)), x.
    split; [exact Hs|]. split; [right; exact Hc|exact Hm].
  - right. split; [exact Hu|].
    destruct (enhanceError_inv W (Date_now W 0) x
                {| ticks := 2; sent := [buildPayload W req] |}) as (e' & He & Ht & Hm).
    rewrite He in E. injection E as <- ->. split; [exact Ht|].
    exists [], (buildPayload W req), x. split; [reflexivity|].
    split; [left; exact Hx|exact Hm].
  - right. split; [exact Hu|].
    destruct p as [why st s5|st s5|x s5]; [|destruct E|].
    + destruct (stream req).
      * destruct (streamAfterTools_inv W (requestFrame W req) (Date_now W 0)
                    (Date_now W 2 - Date_now W 1) st s5) as (Hs & Ho).
        rewrite <- E in Hs, Ho. cbn [fst snd] in *.
        destruct Ho as [(x & Hx & _) | (e' & x & He & Hc & Ht & Hm)]; [discriminate|].
        injection He as <-. split; [exact Ht|].
        eexists. eexists. exists x. split; [exact Hs|].
        split; [right; exact Hc|exact Hm].
      * unfold bufferedResponse in E. cbn [now] in E. discriminate.
    + destruct (toolLoop_Raised_inv _ _ _ _ _ _ Hloop) as (earlier & q & Hs & Hc).
      destruct (enhanceError_inv W (Date_now W 0) x s5) as (e' & He & Ht & Hm).
      rewrite He in E. injection E as <- ->. split; [exact Ht|].
      exists earlier, q, x. cbn [now snd sent]. split; [exact Hs|].
      split; [left; exact Hc|exact Hm].
Qed.

Lemma nonStreaming_loop (req : ProviderRequest float) (response : Completion)
  (why : ExitReason) (st : LoopState) (s : Sys) :
  toolLoop W (S (MAX_TOOL_ITERATIONS W)) (requestFrame W req)
           (loopStart W req response) (loopSys W req)
  = Some (Exit why st s) ->
  Forall (fun p => p_stream p = false) (sent s).
Proof.
  intros H. destruct (Logged_loop W req response _ H) as (_ & _ & Hall).
  eapply Forall_impl; [|exact Hall]. intros p (_ & Hp). exact Hp.
Qed.

Lemma check_keeps_forced (forcedTools : list string) (fs : ForcedState)
  (response : Completion) (choice : option ToolChoice) :
  isObjectChoice choice = false ->
  checkForForcedToolUsage forcedTools fs response choice = fs.
Proof.
  unfold checkForForcedToolUsage, isObjectChoice.
  destruct choice as [[str|ty fn nm]|]; try discriminate; reflexivity.
Qed.

End Outcomes.

(** X15.  The kind of outcome follows the streaming flag, and a
    streaming call is always the last call of a run.  A buffered result
    is returned only for a request without [stream], and none of its
    calls streams.  A streaming result is returned only for a request
    with [stream]; exactly its last call streams (with usage reporting
    on).  On the path without active tools that call is the only one; on
    the path through the tool loop it carries automatic tool choice and
    is not counted in the reported [iterations], which is the number of
    calls before it. *)
Theorem streaming_call_is_last {float : Type} (W : World float)
  (req : ProviderRequest float) (out : Outcome) (s : Sys) :
  executeRequest W req = Some (out, s) ->
  (forall r, out = Response r ->
             stream req = false /\ Forall (fun p => p_stream p = false) (sent s))
  /\ (forall x, out = Stream x ->
        stream req = true
        /\ exists earlier last,
             sent s = earlier ++ [last]
             /\ p_stream last = true
             /\ p_include_usage last = true
             /\ Forall (fun p => p_stream p = false) earlier
             /\ (takesFastPath W req = true ->
                 earlier = []
                 /\ so_tokens (se_output x) = zeroTokens
                 /\ tm_iterations (so_providerTiming (se_output x)) = None)
             /\ (takesFastPath W req = false ->
                 p_tool_choice last = Some autoChoice
                 /\ tm_iterations (so_providerTiming (se_output x))
                    = Some (length earlier))).
Proof.
  intros H. split.
  - intros r ->.
    destruct (executeRequest_Response_inv W req r s H)
      as (response & why & st & s5 & Hs & Hloop & E).
    split; [exact Hs|].
    unfold bufferedResponse in E. cbn [now] in E. injection E as _ ->.
    cbn [sent]. exact (nonStreaming_loop W req response why st s5 Hloop).
  - intros x ->.
    destruct (executeRequest_cases W req _ s H)
      as [(_ & E & _) | [(_ & Hfast & E) | [(_ & _ & y & _ & E)
         | (_ & Hslow & response & p & _ & Hloop & E)]]].
    + discriminate.
    + split.
      { unfold takesFastPath in Hfast. apply andb_true_iff in Hfast. apply Hfast. }
      destruct (streamWithoutTools_inv W req (requestClient W req)
                  (buildPayload W req) (Date_now W 0) {| ticks := 1; sent := [] |})
        as (Hs & Ho).
      rewrite <- E in Hs, Ho. cbn [fst snd sent app] in *.
      destruct Ho as [(x' & Hx & Htok & _ & Hit & _) | (e & y & He & _)];
        [|discriminate].
      injection Hx as <-.
      exists [], (streamingParams (buildPayload W req)).
      split; [exact Hs|]. split; [reflexivity|]. split; [reflexivity|].
      split; [constructor|]. split.
      * intros _. repeat split; assumption.
      * rewrite Hfast. discriminate.
    + destruct (enhanceError_inv W (Date_now W 0) y
                  {| ticks := 2; sent := [buildPayload W req] |}) as (e & He & _).
      rewrite He in E. discriminate.
    + destruct p as [why st s5|st s5|y s5]; [|destruct E|].
      * destruct (stream req) eqn:Hstream.
        -- split; [reflexivity|].
           destruct (streamAfterTools_inv W (requestFrame W req) (Date_now W 0)
                       (Date_now W 2 - Date_now W 1) st s5) as (Hs & Ho).
           rewrite <- E in Hs, Ho. cbn [fst snd] in *.
           destruct Ho as [(x' & Hx & _ & Hit & _) | (e & y & He & _)];
             [|discriminate].
           injection Hx as <-.
           eexists. eexists. split; [exact Hs|].
           split; [reflexivity|]. split; [reflexivity|].
           split; [exact (nonStreaming_loop W req response why st s5 Hloop)|].
           split.
           ++ rewrite Hslow. discriminate.
           ++ intros _. split; [reflexivity|]. rewrite Hit.
              destruct (Counted_loop W req response _ Hloop) as (_ & _ & Hlen).
              now rewrite Hlen.
        -- unfold bufferedResponse in E. cbn [now] in E. discriminate.
      * destruct (enhanceError_inv W (Date_now W 0) y s5) as (e & He & _).
        rewrite He in E. discriminate.
Qed.

Lemma streaming_call_is_last_witness :
  exists x s,
    executeRequest Examples.racingWorld
      (Examples.requestFor "litellm/gpt-4"
         (Some [Examples.tool "a" None; Examples.tool "b" None]) true)
    = Some (Stream x, s)
    /\ map (@p_stream _) (sent s) = [false; false; true]
    /\ tm_iterations (so_providerTiming (se_output x)) = Some 2%nat.
Proof.
  set (req := Examples.requestFor "litellm/gpt-4"
                (Some [Examples.tool "a" None; Examples.tool "b" None]) true).
  destruct (executeRequest_total Examples.racingWorld req) as ([out s] & Hrun).
  assert (Hout : exists x, out = Stream x
                           /\ map (@p_stream _) (sent s) = [false; false; true]).
  { revert Hrun. vm_compute. intros [= <- <-]. eexists. split; reflexivity. }
  destruct Hout as (x & -> & Hflags).
  destruct (proj2 (streaming_call_is_last Examples.racingWorld req _ _ Hrun) x eq_refl)
    as (_ & earlier & last & Hs & _ & _ & _ & _ & Hslow).
  destruct (Hslow eq_refl) as (_ & Hit).
  exists x, s. split; [exact Hrun|]. split; [exact Hflags|].
  rewrite Hit. f_equal.
  assert (Hlen : length (sent s) = 3%nat)
    by (rewrite <- (length_map (@p_stream _)), Hflags; reflexivity).
  rewrite Hs, length_app in Hlen. cbn [length] in Hlen. lia.
Defined.

(** X16.  An error thrown by [executeRequest] is either the guard's (no
    endpoint: no call was issued and the error carries no timing) or that
    of a failed model call: the failed call is the last one issued, the
    error carries the request's timing, and, when the failure has no
    structured provider error attached, its message is the message of the
    thrown [Error] (or the thrown value as a string). *)
Theorem thrown_errors_come_from_model_calls {float : Type} (W : World float)
  (req : ProviderRequest float) (e : ProviderError) (s : Sys) :
  executeRequest W req = Some (Thrown e, s) ->
  (truthy (requestBaseUrl W req) = false /\ e = baseUrlRequired /\ sent s = [])
  \/ (truthy (requestBaseUrl W req) = true
      /\ err_timing e <> None
      /\ exists earlier p x,
           sent s = earlier ++ [p]
           /\ (chat_create W (requestClient W req) (length earlier) p = inr x
               \/ chat_stream W (requestClient W req) (length earlier) p = inr x)
           /\ (thrown_error x = None ->
               err_message e = match thrown_message x with
                               | Some m => m
                               | None => thrown_string x
                               end)).
Proof. apply Thrown_inv. Qed.

Lemma thrown_errors_come_from_model_calls_witness :
  exists e s,
    executeRequest Examples.brokenWorld Examples.oneToolRequest
    = Some (Thrown e, s)
    /\ length (sent s) = 2%nat
    /\ err_message e = "upstream down"
    /\ err_timing e <> None.
Proof.
  destruct (executeRequest_total Examples.brokenWorld Examples.oneToolRequest)
    as ([out s] & Hrun).
  assert (Hout : exists e, out = Thrown e /\ length (sent s) = 2%nat)
    by (revert Hrun; vm_compute; intros [= <- <-]; eexists; split; reflexivity).
  destruct Hout as (e & -> & Hlen).
  exists e, s. split; [exact Hrun|]. split; [exact Hlen|].
  destruct (thrown_errors_come_from_model_calls
              Examples.brokenWorld Examples.oneToolRequest e s Hrun)
    as [(Hu & _) | (_ & Htime & earlier & p & x & Hs & Hfail & Hmsg)];
    [discriminate Hu|].
  split; [|exact Htime].
  assert (Hn : length earlier = 1%nat)
    by (rewrite Hs, length_app in Hlen; cbn [length] in Hlen; lia).
  rewrite Hn in Hfail.
  assert (Hx : x = plainError "upstream down")
    by (destruct Hfail as [H | H]; [now injection H | discriminate H]).
  subst x. now rewrite Hmsg.
Defined.

(** X17.  Tool failures are never thrown: with an endpoint configured
    and a chat endpoint that answers every call, [executeRequest] returns
    a result, whatever [executeTool], [JSON.parse] and
    [prepareToolExecution] do (resolve, reject or throw). *)
Theorem tool_failures_are_never_thrown {float : Type} (W : World float)
  (req : ProviderRequest float) :
  truthy (requestBaseUrl W req) = true ->
  (forall c n p, exists r, chat_create W c n p = inl r) ->
  (forall c n p, exists h, chat_stream W c n p = inl h) ->
  exists out s,
    executeRequest W req = Some (out, s)
    /\ forall e, out <> Thrown e.
Proof.
  intros Hu Hchat Hstream.
  destruct (executeRequest_total W req) as ([out s] & Hrun).
  exists out, s. split; [exact Hrun|].
  intros e ->.
  destruct (Thrown_inv W req e s Hrun)
    as [(Hu' & _) | (_ & _ & earlier & p & x & _ & [Hc | Hc] & _)].
  - rewrite Hu in Hu'. discriminate.
  - destruct (Hchat (requestClient W req) (length earlier) p) as (r & Hr).
    rewrite Hr in Hc. discriminate.
  - destruct (Hstream (requestClient W req) (length earlier) p) as (h & Hh).
    rewrite Hh in Hc. discriminate.
Qed.

Lemma tool_failures_are_never_thrown_witness :
  exists out s,
    executeRequest Examples.failingWorld Examples.twoToolRequest = Some (out, s)
    /\ forall e, out <> Thrown e.
Proof.
  apply (tool_failures_are_never_thrown Examples.failingWorld
           Examples.twoToolRequest).
  - reflexivity.
  - intros c n p. destruct n; eexists; reflexivity.
  - intros c n p. eexists. reflexivity.
Defined.

(** X18.  A tool choice that is not a forced directive stays: once the
    choice to send in the next call is a plain string (automatic choice
    after the last forced tool was used, or the request's own choice when
    nothing is forced) or absent, the forced-tool state no longer moves
    and every further call of the loop carries that same choice. *)
Theorem plain_tool_choice_is_kept {float : Type} (W : World float) (fr : Frame)
  (fuel : nat) (st : LoopState) (s : Sys) (p : Pass) :
  isObjectChoice (nextToolChoice fr (forced st)) = false ->
  toolLoop W fuel fr st s = Some p ->
  exists new,
    sent (passSys p) = sent s ++ new
    /\ Forall (fun q => p_tool_choice q = nextToolChoice fr (forced st)) new.
Proof.
  intros Hplain Hloop.
  assert (G : match p with
              | Exit _ st' s' => choiceSettled fr st s st' s'
              | Raised _ s' =>
                  exists new,
                    sent s' = sent s ++ new
                    /\ Forall (fun q => p_tool_choice q
                                        = nextToolChoice fr (forced st)) new
              | Again _ _ => False
              end).
  { revert Hloop.
    apply (toolLoop_invariant W fr (choiceSettled fr st s)
             (fun s' => exists new,
                  sent s' = sent s ++ new
                  /\ Forall (fun q => p_tool_choice q
                                      = nextToolChoice fr (forced st)) new)).
    - intros st1 s1 st' s' (Hf & new & Hs & Hall) Hp.
      destruct (loopPass_Again_inv W fr st1 s1 st' s' Hp)
        as (tc & tcs & r & _ & _ & _ & -> & ->).
      unfold choiceSettled, stateAfterPass, sysAfterPass. cbn [forced sent].
      rewrite Hf. split.
      + apply check_keeps_forced. exact Hplain.
      + exists (new ++ [nextPayloadOf W fr st1 s1 (tc :: tcs)]).
        split; [now rewrite Hs, app_assoc|].
        apply Forall_app. split; [exact Hall|].
        constructor; [|constructor].
        cbn [nextPayloadOf withMessagesAndChoice p_tool_choice]. now rewrite Hf.
    - intros st1 s1 why st' s' (Hf & Hnew) Hp.
      destruct (loopPass_Exit_inv W fr st1 s1 why st' s' Hp)
        as (-> & _ & _ & _ & _ & _ & Hfo).
      unfold choiceSettled. rewrite Hfo. split; assumption.
    - intros st1 s1 e s' (Hf & new & Hs & Hall) Hp.
      destruct (loopPass_Raised_inv W fr st1 s1 e s' Hp) as (tc & tcs & _ & _ & _ & ->).
      unfold sysAfterPass. cbn [sent].
      exists (new ++ [nextPayloadOf W fr st1 s1 (tc :: tcs)]).
      split; [now rewrite Hs, app_assoc|].
      apply Forall_app. split; [exact Hall|].
      constructor; [|constructor].
      cbn [nextPayloadOf withMessagesAndChoice p_tool_choice]. now rewrite Hf.
    - split; [reflexivity|]. exists []. split; [now rewrite app_nil_r|constructor]. }
  destruct p as [why st' s'|st' s'|e s']; cbn [passSys].
  - apply G.
  - destruct G.
  - exact G.
Qed.

Lemma plain_tool_choice_is_kept_witness :
  exists new,
    sent (passSys (Exit NoToolCalls
                     (stateAfterPass Examples.plainWorld Examples.plainFrame
                        (initialState Examples.plainFrame (Examples.oneToolTurn 0) 0 0)
                        startSys [Examples.call "call_a" "a" "{}"]
                        (Examples.oneToolTurn 1))
                     (sysAfterPass Examples.plainWorld Examples.plainFrame
                        (initialState Examples.plainFrame (Examples.oneToolTurn 0) 0 0)
                        startSys [Examples.call "call_a" "a" "{}"] 3)))
    = sent startSys ++ new
    /\ Forall (fun q => p_tool_choice q = Some autoChoice) new.
Proof.
  apply (plain_tool_choice_is_kept Examples.plainWorld Examples.plainFrame 21
           (initialState Examples.plainFrame (Examples.oneToolTurn 0) 0 0)
           startSys).
  - reflexivity.
  - vm_compute. reflexivity.
Defined.

(* ===================================================================== *)
(** ** Further properties: the completion of a stream *)
(* ===================================================================== *)

(** X19.  When the stream without tools completes, its callback closes
    the timing: the single TimeSegment then runs from the start of the
    request to the reading of the clock taken at completion, with a
    duration equal to the distance between the two, which is also the
    reported total duration; the token counts are the ones the stream
    reported, taken as they are, and the cost is computed from them and
    the request's model id. *)
Theorem completed_stream_closes_timing {float : Type} (W : World float)
  (req : ProviderRequest float) (c : ClientConfig) (p : Payload float)
  (providerStartTime : Z) (s : Sys) (x : StreamingExecution) (s1 : Sys)
  (content : string) (usage : StreamUsage) :
  streamWithoutTools W req c p providerStartTime s = (Stream x, s1) ->
  exists out' streamEndTime,
    completeStream W req providerStartTime (se_output x) content usage s1
    = (out', snd (now W s1))
    /\ streamEndTime = Date_now W (ticks s1)
    /\ tm_timeSegments (so_providerTiming out')
       = [{| seg_type := SegModel;
             seg_name := "Streaming response";
             seg_startTime := providerStartTime;
             seg_endTime := streamEndTime;
             seg_duration := streamEndTime - providerStartTime |}]
    /\ Forall spansItsDuration (tm_timeSegments (so_providerTiming out'))
    /\ tm_duration (so_providerTiming out') = streamEndTime - providerStartTime
    /\ so_tokens out' = {| tok_input := su_prompt_tokens usage;
                           tok_output := su_completion_tokens usage;
                           tok_total := su_total_tokens usage |}
    /\ so_cost out' = calculateCost W (model req) (su_prompt_tokens usage)
                                    (su_completion_tokens usage)
    /\ so_content out' = cleanStreamContent req content.
Proof.
  intros H. unfold streamWithoutTools in H.
  destruct (createStream W c (streamingParams p) s) as [[h|e] s0].
  - cbn [now] in H. injection H as <- <-.
    unfold completeStream. cbn [now]. eexists. eexists.
    split; [reflexivity|]. split; [reflexivity|].
    cbn [so_providerTiming tm_timeSegments se_output closeFirstSegment
         seg_type seg_name seg_startTime tm_duration so_tokens so_cost so_content].
    split; [reflexivity|]. split.
    + constructor; [reflexivity|constructor].
    + repeat split.
      destruct (calculateCost W (model req) (su_prompt_tokens usage)
                              (su_completion_tokens usage)); reflexivity.
  - unfold enhanceError in H. cbn [now] in H. discriminate.
Qed.

Lemma completed_stream_closes_timing_witness :
  exists x s1 out',
    streamWithoutTools Examples.plainWorld
      (Examples.requestFor "litellm/gpt-4" None true)
      (requestClient Examples.plainWorld
         (Examples.requestFor "litellm/gpt-4" None true))
      (buildPayload Examples.plainWorld
         (Examples.requestFor "litellm/gpt-4" None true))
      1000 {| ticks := 1; sent := [] |}
    = (Stream x, s1)
    /\ fst (completeStream Examples.plainWorld
              (Examples.requestFor "litellm/gpt-4" None true) 1000
              (se_output x) "hello"
              {| su_prompt_tokens := 4; su_completion_tokens := 2;
                 su_total_tokens := 6 |} s1)
       = out'
    /\ Forall spansItsDuration (tm_timeSegments (so_providerTiming out'))
    /\ so_tokens out' = {| tok_input := 4; tok_output := 2; tok_total := 6 |}.
Proof.
  set (req := Examples.requestFor "litellm/gpt-4" None true).
  set (usage := {| su_prompt_tokens := 4; su_completion_tokens := 2;
                   su_total_tokens := 6 |}).
  destruct (streamWithoutTools Examples.plainWorld req
              (requestClient Examples.plainWorld req)
              (buildPayload Examples.plainWorld req) 1000
              {| ticks := 1; sent := [] |}) as [out s1] eqn:E.
  assert (Hx : exists x, out = Stream x).
  { revert E. vm_compute. intros [= <- _]. eexists. reflexivity. }
  destruct Hx as (x & ->).
  destruct (completed_stream_closes_timing Examples.plainWorld req _ _ 1000 _
              x s1 "hello" usage E)
    as (out' & tEnd & Hrun & _ & _ & Hspans & _ & Htok & _).
  exists x, s1, out'. split; [reflexivity|].
  split; [now rewrite Hrun|]. split; [exact Hspans|exact Htok].
Defined.

(** X20.  When the stream that follows the tool loop completes, its
    callback adds the stream's usage to the loop's totals, field by
    field, and the stream's cost to the cost computed from the loop's
    totals; the timing summary (iterations, time segments) and the tool
    call records are left as they were.  [total = input + output] holds
    afterwards when it held for the loop's totals and the stream reports
    a total equal to the sum of its parts. *)
Theorem completed_stream_adds_usage {float : Type} (W : World float)
  (float_add : float -> float -> float) (fr : Frame) (t0 t1 : Z)
  (st : LoopState) (s : Sys) (x : StreamingExecution) (s' : Sys)
  (content : string) (usage : StreamUsage) :
  streamAfterTools W fr t0 t1 st s = (Stream x, s') ->
  let out' := completeStreamAfterTools W float_add (request fr) (tokens st)
                                       (se_output x) content usage in
  so_tokens out'
  = {| tok_input := tok_input (so_tokens (se_output x)) + su_prompt_tokens usage;
       tok_output := tok_output (so_tokens (se_output x)) + su_completion_tokens usage;
       tok_total := tok_total (so_tokens (se_output x)) + su_total_tokens usage |}
  /\ so_providerTiming out' = so_providerTiming (se_output x)
  /\ so_toolCalls out' = so_toolCalls (se_output x)
  /\ cost_total (so_cost out')
     = float_add (cost_total (so_cost (se_output x)))
                 (cost_total (calculateCost W (model (request fr))
                                (su_prompt_tokens usage)
                                (su_completion_tokens usage)))
  /\ (balanced (tokens st) ->
      su_total_tokens usage = su_prompt_tokens usage + su_completion_tokens usage ->
      balanced (so_tokens out')).
Proof.
  intros H. unfold streamAfterTools in H.
  destruct (createStream W _ _ s) as [[h|e] s0].
  - cbn [now] in H. injection H as <- _. cbv zeta.
    unfold completeStreamAfterTools.
    cbn [so_tokens so_providerTiming so_toolCalls so_cost se_output cost_total].
    repeat split.
    unfold balanced. cbn [tok_input tok_output tok_total]. lia.
  - unfold enhanceError in H. cbn [now] in H. discriminate.
Qed.

Lemma completed_stream_adds_usage_witness :
  exists x s',
    streamAfterTools Examples.plainWorld Examples.plainFrame 1000 10
      (initialState Examples.plainFrame (Examples.oneToolTurn 1) 1010 10) startSys
    = (Stream x, s')
    /\ so_tokens
         (completeStreamAfterTools Examples.plainWorld Z.add
            (request Examples.plainFrame)
            (tokens (initialState Examples.plainFrame (Examples.oneToolTurn 1)
                       1010 10))
            (se_output x) "done"
            {| su_prompt_tokens := 4; su_completion_tokens := 2;
               su_total_tokens := 6 |})
       = {| tok_input := 5; tok_output := 3; tok_total := 8 |}.
Proof.
  eexists. eexists. split; [reflexivity|].
  match goal with |- so_tokens (completeStreamAfterTools _ _ _ _ (se_output ?x) _ ?u)
                     = _ =>
    rewrite (proj1 (completed_stream_adds_usage Examples.plainWorld Z.add
                      Examples.plainFrame 1000 10
                      (initialState Examples.plainFrame (Examples.oneToolTurn 1)
                         1010 10)
                      startSys x _ "done" u eq_refl))
  end.
  reflexivity.
Defined.

(* ===================================================================== *)
(** ** Further properties: which tools run, and how passes are named *)
(* ===================================================================== *)

Section Tools.

Context {float : Type}.
Variable W : World float.

Lemma findTool_defined (req : ProviderRequest float) (name : string)
  (tool : ProviderTool) :
  findTool req name = Some tool ->
  In name (map tool_id (requestToolList req)).
Proof.
  unfold findTool, requestToolList.
  destruct (tools req) as [ts|]; [|discriminate].
  intros H. apply find_some in H. destruct H as (Hin & Heq).
  apply String.eqb_eq in Heq. rewrite <- Heq. now apply in_map.
Qed.

Lemma settledValue_defined (req : ProviderRequest float) (b i : nat)
  (tc : ToolCall) (st en : Z) (v : ToolExecution) :
  settledValue W req b i tc st en = Some v ->
  namesDefinedTool req (toolCallRecord W v).
Proof.
  unfold settledValue, callFate, namesDefinedTool.
  destruct (JSON_parse W (tc_arguments tc)) as [args|m].
  - destruct (findTool req (tc_name tc)) as [tool|] eqn:Hfind; [|discriminate].
    destruct (prepareToolExecution W tool args req) as [[tp ep]|e].
    + destruct (executeTool W b i (tc_name tc) ep true); intros [= <-]; cbn.
      * intros _. exact (findTool_defined _ _ _ Hfind).
      * discriminate.
    + intros [= <-]. cbn. discriminate.
  - intros [= <-]. cbn. discriminate.
Qed.

Lemma SettledFrom_defined (req : ProviderRequest float) (b j : nat)
  (tcs : list ToolCall) (vs : list (option ToolExecution)) :
  SettledFrom W req b j tcs vs ->
  Forall (namesDefinedTool req)
         (map (toolCallRecord W) (executions (map (@fulfilled _) vs))).
Proof.
  induction 1 as [j|j tc tcs vs st en H IH]; [constructor|].
  cbn [map executions flat_map].
  destruct (settledValue W req b j tc st en) as [v|] eqn:E; [|exact IH].
  cbn [app map]. constructor; [|exact IH].
  exact (settledValue_defined _ _ _ _ _ _ _ E).
Qed.

Lemma defined_loop (req : ProviderRequest float) (response : Completion)
  (why : ExitReason) (st : LoopState) (s : Sys) :
  toolLoop W (S (MAX_TOOL_ITERATIONS W)) (requestFrame W req)
           (loopStart W req response) (loopSys W req)
  = Some (Exit why st s) ->
  Forall (namesDefinedTool req) (toolCalls st).
Proof.
  intros H.
  apply (toolLoop_invariant W (requestFrame W req)
           (fun st _ => Forall (namesDefinedTool req) (toolCalls st))
           (fun _ => True)) in H.
  - exact H.
  - intros st0 s0 st' s' Hall Hp.
    destruct (loopPass_Again_inv W _ st0 s0 st' s' Hp)
      as (tc & tcs & r & _ & _ & _ & -> & _).
    unfold stateAfterPass. cbn [toolCalls].
    apply Forall_app. split; [exact Hall|].
    destruct (batchOf_settled W (requestFrame W req) st0 s0 (tc :: tcs))
      as (vs & -> & Hset).
    exact (SettledFrom_defined _ _ _ _ _ Hset).
  - intros st0 s0 why0 st' s' Hall Hp.
    destruct (loopPass_Exit_inv W _ st0 s0 why0 st' s' Hp) as (_ & _ & -> & _).
    exact Hall.
  - trivial.
  - constructor.
Qed.

Lemma named_loop (req : ProviderRequest float) (response : Completion)
  (why : ExitReason) (st : LoopState) (s : Sys) :
  toolLoop W (S (MAX_TOOL_ITERATIONS W)) (requestFrame W req)
           (loopStart W req response) (loopSys W req)
  = Some (Exit why st s) ->
  map seg_name (modelSegments (timeSegments st))
  = "Initial response" :: map iterationName (seq 1 (iterationCount st)).
Proof.
  intros H.
  apply (toolLoop_invariant W (requestFrame W req)
           (fun st _ =>
              map seg_name (modelSegments (timeSegments st))
              = "Initial response" :: map iterationName (seq 1 (iterationCount st)))
           (fun _ => True)) in H.
  - exact H.
  - intros st0 s0 st' s' Hn Hp.
    destruct (loopPass_Again_inv W _ st0 s0 st' s' Hp)
      as (tc & tcs & r & _ & _ & _ & -> & _).
    unfold stateAfterPass. cbn [timeSegments iterationCount].
    rewrite modelSegments_after by reflexivity.
    rewrite map_app, Hn, seq_S, map_app. reflexivity.
  - intros st0 s0 why0 st' s' Hn Hp.
    destruct (loopPass_Exit_inv W _ st0 s0 why0 st' s' Hp)
      as (_ & _ & _ & _ & -> & -> & _).
    exact Hn.
  - trivial.
  - reflexivity.
Qed.

End Tools.

(** X21.  A buffered result never reports the successful execution of a
    tool the request does not define: every tool call record marked
    successful names one of the request's tool definitions (a call of an
    undefined tool is dropped, or recorded as failed when its arguments
    do not parse). *)
Theorem successful_records_name_defined_tools {float : Type} (W : World float)
  (req : ProviderRequest float) (r : ProviderResponse) (s : Sys) :
  executeRequest W req = Some (Response r, s) ->
  Forall (namesDefinedTool req) (orNil (res_toolCalls r)).
Proof.
  intros H.
  destruct (executeRequest_Response_inv W req r s H)
    as (response & why & st & s5 & _ & Hloop & E).
  unfold bufferedResponse in E. cbn [now] in E. injection E as -> _.
  cbn [res_toolCalls]. rewrite orNil_nonEmpty.
  exact (defined_loop W req response why st s5 Hloop).
Qed.

Lemma successful_records_name_defined_tools_witness :
  exists r s,
    executeRequest Examples.ghostWorld Examples.oneToolRequest
    = Some (Response r, s)
    /\ Forall (namesDefinedTool Examples.oneToolRequest) (orNil (res_toolCalls r))
    /\ map rec_name (orNil (res_toolCalls r)) = ["a"].
Proof.
  destruct (executeRequest_total Examples.ghostWorld Examples.oneToolRequest)
    as ([out s] & Hrun).
  assert (Hout : exists r, out = Response r
                           /\ map rec_name (orNil (res_toolCalls r)) = ["a"]).
  { revert Hrun. vm_compute. intros [= <- <-]. eexists. split; reflexivity. }
  destruct Hout as (r & -> & Hnames).
  exists r, s. split; [exact Hrun|]. split; [|exact Hnames].
  exact (successful_records_name_defined_tools Examples.ghostWorld _ _ _ Hrun).
Defined.

(** X22.  The model TimeSegments of a buffered result are, in order, the
    segment "Initial response" followed by the segments "Model response
    (iteration k)" for k = 1, 2, ... up to the number of passes made,
    which is the reported [iterations] minus one. *)
Theorem model_segments_are_numbered {float : Type} (W : World float)
  (req : ProviderRequest float) (r : ProviderResponse) (s : Sys) :
  executeRequest W req = Some (Response r, s) ->
  exists tm n,
    res_timing r = Some tm
    /\ tm_iterations tm = Some (S n)
    /\ map seg_name (modelSegments (tm_timeSegments tm))
       = "Initial response" :: map iterationName (seq 1 n).
Proof.
  intros H.
  destruct (executeRequest_Response_inv W req r s H)
    as (response & why & st & s5 & _ & Hloop & E).
  unfold bufferedResponse in E. cbn [now] in E. injection E as -> _.
  eexists. exists (iterationCount st). split; [reflexivity|].
  cbn [loopTiming tm_iterations tm_timeSegments]. split; [reflexivity|].
  exact (named_loop W req response why st s5 Hloop).
Qed.

Lemma model_segments_are_numbered_witness :
  exists r s tm,
    executeRequest Examples.obedientWorld Examples.forcedRequest
    = Some (Response r, s)
    /\ res_timing r = Some tm
    /\ map seg_name (modelSegments (tm_timeSegments tm))
       = ["Initial response"; "Model response (iteration 1)";
          "Model response (iteration 2)"].
Proof.
  destruct (executeRequest_total Examples.obedientWorld Examples.forcedRequest)
    as ([out s] & Hrun).
  assert (Hout : exists r, out = Response r
                           /\ option_map (@tm_iterations) (res_timing r)
                              = Some (Some 3%nat)).
  { revert Hrun. vm_compute. intros [= <- <-]. eexists. split; reflexivity. }
  destruct Hout as (r & -> & Hit).
  destruct (model_segments_are_numbered Examples.obedientWorld _ _ _ Hrun)
    as (tm & n & Htm & Hn & Hnames).
  exists r, s, tm. split; [exact Hrun|]. split; [exact Htm|].
  rewrite Htm in Hit. cbn [option_map] in Hit. rewrite Hn in Hit.
  injection Hit as ->. exact Hnames.
Defined.

(* ===================================================================== *)
(** ** The timeline of a run *)
(* ===================================================================== *)

Section Timeline.

Context {float : Type}.
Variable W : World float.

Lemma readBetween_wider (lo hi lo' hi' : nat) (v : ToolExecution) :
  (lo' <= lo)%nat -> (hi <= hi')%nat ->
  readBetween W lo hi v -> readBetween W lo' hi' v.
Proof.
  intros Hlo Hhi (k & k' & H1 & H2 & H3 & H).
  exists k, k'. repeat split; try lia; apply H.
Qed.

Lemma startedBetween_wider (lo hi lo' hi' : nat) (d : Started) :
  (lo' <= lo)%nat -> (hi <= hi')%nat ->
  startedBetween W lo hi d -> startedBetween W lo' hi' d.
Proof.
  intros Hlo Hhi. destruct d as [[v|]|tc tp ep t]; cbn.
  - now apply readBetween_wider.
  - trivial.
  - intros (k & H1 & H2 & H). exists k. repeat split; try lia; exact H.
Qed.

Lemma failedExecution_readBetween (tc : ToolCall) (msg : option string) (k k' : nat) :
  (k <= k')%nat ->
  readBetween W k k' (failedExecution tc msg (Date_now W k) (Date_now W k')).
Proof. intros H. exists k, k'. repeat split; try lia. Qed.

Lemma startToolCall_clock (req : ProviderRequest float) (tc : ToolCall)
  (s : Sys) (d : Started) (s' : Sys) :
  startToolCall W req tc s = (d, s') ->
  (ticks s < ticks s')%nat /\ startedBetween W (ticks s) (ticks s') d.
Proof.
  unfold startToolCall. cbn [now].
  destruct (JSON_parse W (tc_arguments tc)) as [args|syntaxError].
  - destruct (findTool req (tc_name tc)) as [tool|].
    + destruct (prepareToolExecution W tool args req) as [[tp ep]|e].
      * intros [= <- <-]. cbn. split; [lia|]. exists (ticks s). repeat split; lia.
      * intros [= <- <-]. cbn. split; [lia|].
        apply (readBetween_wider (ticks s) (S (ticks s))); try lia.
        apply failedExecution_readBetween. lia.
    + intros [= <- <-]. cbn. split; [lia|trivial].
  - intros [= <- <-]. cbn. split; [lia|].
    apply (readBetween_wider (ticks s) (S (ticks s))); try lia.
    apply failedExecution_readBetween. lia.
Qed.

Lemma startToolCalls_clock (req : ProviderRequest float) (tcs : list ToolCall) :
  forall (s : Sys) (ds : list Started) (s' : Sys),
    startToolCalls W req tcs s = (ds, s') ->
    (ticks s <= ticks s')%nat
    /\ Forall (startedBetween W (ticks s) (ticks s')) ds.
Proof.
  induction tcs as [|tc tcs IH]; intros s ds s'; cbn [startToolCalls].
  - intros [= <- <-]. split; [lia|constructor].
  - destruct (startToolCall W req tc s) as [d s1] eqn:E1.
    destruct (startToolCalls W req tcs s1) as [ds1 s2] eqn:E2.
    intros [= <- <-].
    destruct (startToolCall_clock _ _ _ _ _ E1) as (H1 & Hd).
    destruct (IH _ _ _ E2) as (H2 & Hds).
    split; [lia|]. constructor.
    + apply (startedBetween_wider (ticks s) (ticks s1)); [lia|lia|exact Hd].
    + eapply Forall_impl; [|exact Hds].
      intros d0. apply startedBetween_wider; lia.
Qed.

Lemma settlePosition_le (b : nat) (awaiting : list nat) (i : nat) :
  (settlePosition W b awaiting i <= length awaiting)%nat.
Proof. unfold settlePosition. apply filter_length_le. Qed.

Lemma finishFrom_clock (b : nat) (awaiting : list nat) (lo t0 : nat)
  (ds : list Started) :
  Forall (startedBetween W lo t0) ds ->
  forall i,
    Forall (settledBetween W lo (t0 + length awaiting))
           (finishFrom W b awaiting t0 i ds).
Proof.
  induction 1 as [|d ds Hd _ IH]; intros i; cbn [finishFrom]; constructor;
    [|apply IH].
  pose proof (settlePosition_le b awaiting i) as Hp.
  destruct d as [[v|]|tc tp ep t]; cbn [finishToolCall settledBetween].
  - apply (readBetween_wider lo t0); [lia|lia|exact Hd].
  - trivial.
  - destruct Hd as (k & H1 & H2 & ->).
    destruct (executeTool W b i (tc_name tc) ep true) as [result|e].
    + exists k, (t0 + settlePosition W b awaiting i)%nat.
      repeat split; lia.
    + apply (readBetween_wider k (t0 + settlePosition W b awaiting i)); try lia.
      apply failedExecution_readBetween. lia.
Qed.

Lemma executions_settled (lo hi : nat) (vs : list (option ToolExecution)) :
  Forall (settledBetween W lo hi) vs ->
  Forall (readBetween W lo hi) (executions (map (@fulfilled _) vs)).
Proof.
  induction 1 as [|[v|] vs Hv _ IH]; cbn; [constructor| |exact IH].
  constructor; assumption.
Qed.

Lemma batch_clock (fr : Frame) (st : LoopState) (s : Sys) (calls : list ToolCall) :
  (S (ticks s) <= ticks (snd (batchOf W fr st s calls)))%nat
  /\ Forall (readBetween W (S (ticks s)) (ticks (snd (batchOf W fr st s calls))))
            (executions (fst (batchOf W fr st s calls))).
Proof.
  unfold batchOf, executeToolCalls. cbn [now snd].
  destruct (startToolCalls W (request fr) calls _) as [ds s1] eqn:E.
  destruct (startToolCalls_clock _ _ _ _ _ E) as (Ht & Hds).
  cbn [ticks] in Ht, Hds. cbn [fst snd ticks].
  split; [lia|].
  apply executions_settled.
  exact (finishFrom_clock _ _ _ _ _ Hds 0%nat).
Qed.

Hypothesis Hclock : monotoneClock W.

Lemma withinTotals_wider (mt tt mt' tt' : Z) (g : TimeSegment) :
  mt <= mt' -> tt <= tt' -> withinTotals mt tt g -> withinTotals mt' tt' g.
Proof.
  intros Hm Ht (H0 & H). split; [exact H0|].
  destruct (seg_type g); lia.
Qed.

Lemma OnTime_loop (req : ProviderRequest float) (response : Completion)
  (why : ExitReason) (st : LoopState) (s : Sys) :
  toolLoop W (S (MAX_TOOL_ITERATIONS W)) (requestFrame W req)
           (loopStart W req response) (loopSys W req)
  = Some (Exit why st s) ->
  OnTime W st s.
Proof.
  intros H.
  apply (toolLoop_invariant W (requestFrame W req) (OnTime W) (fun _ => True)) in H.
  - exact H.
  - intros st0 s0 st' s' (Hm & Ht & Hsum & Hall) Hp.
    destruct (loopPass_Again_inv W _ st0 s0 st' s' Hp)
      as (tc & tcs & r & _ & _ & _ & -> & ->).
    destruct (batch_clock (requestFrame W req) st0 s0 (tc :: tcs)) as (Hb & Hvs).
    set (t := ticks (snd (batchOf W (requestFrame W req) st0 s0 (tc :: tcs)))) in *.
    pose proof (Hclock (ticks s0) t ltac:(lia)) as C1.
    pose proof (Hclock t (S t) ltac:(lia)) as C2.
    pose proof (Hclock (S t) (S (S t)) ltac:(lia)) as C3.
    pose proof (Hclock (S (S t)) (3 + t)%nat ltac:(lia)) as C4.
    unfold OnTime, stateAfterPass, sysAfterPass.
    cbn [modelTime toolsTime timeSegments ticks]. fold t.
    split; [lia|]. split; [lia|]. split; [lia|].
    apply Forall_app. split.
    + eapply Forall_impl; [|exact Hall].
      intros g. apply withinTotals_wider; lia.
    + apply Forall_app. split.
      * apply Forall_map. eapply Forall_impl; [|exact Hvs].
        intros v (k & k' & K1 & K2 & K3 & _ & _ & Hd).
        pose proof (Hclock k k' K2) as D1.
        pose proof (Hclock (ticks s0) k ltac:(lia)) as D2.
        pose proof (Hclock k' t K3) as D3.
        unfold withinTotals. cbn [toolSegment seg_duration seg_type].
        rewrite Hd. lia.
      * constructor; [|constructor].
        unfold withinTotals. cbn [modelSegment seg_duration seg_type]. lia.
  - intros st0 s0 why0 st' s' (Hm & Ht & Hsum & Hall) Hp.
    destruct (loopPass_Exit_rest W _ st0 s0 why0 st' s' Hp) as (_ & _ & Hmt & Htt).
    destruct (loopPass_Exit_inv W _ st0 s0 why0 st' s' Hp)
      as (-> & _ & _ & _ & _ & Hts & _).
    unfold OnTime. rewrite Hts, Hmt, Htt. repeat split; assumption.
  - trivial.
  - pose proof (Hclock 0%nat 1%nat ltac:(lia)) as C1.
    pose proof (Hclock 1%nat 2%nat ltac:(lia)) as C2.
    pose proof (Hclock 2%nat 3%nat ltac:(lia)) as C3.
    unfold OnTime, loopStart, loopSys, initialState.
    cbn [modelTime toolsTime timeSegments ticks].
    split; [lia|]. split; [lia|]. split; [lia|].
    constructor; [|constructor]. unfold withinTotals. cbn. lia.
Qed.

End Timeline.

(** X23.  When the clock does not run backwards, a buffered result's
    timing is consistent: model time and tools time are not negative,
    together they do not exceed the total duration, and no TimeSegment
    has a negative duration or lasts longer than the total of its kind
    (a tool segment at most [toolsTime], a model segment at most
    [modelTime]). *)
Theorem timeline_under_monotone_clock {float : Type} (W : World float)
  (req : ProviderRequest float) (r : ProviderResponse) (s : Sys) :
  monotoneClock W ->
  executeRequest W req = Some (Response r, s) ->
  exists tm mt tt,
    res_timing r = Some tm
    /\ tm_modelTime tm = Some mt
    /\ tm_toolsTime tm = Some tt
    /\ 0 <= mt /\ 0 <= tt
    /\ mt + tt <= tm_duration tm
    /\ Forall (withinTotals mt tt) (tm_timeSegments tm).
Proof.
  intros Hclock H.
  destruct (executeRequest_Response_inv W req r s H)
    as (response & why & st & s5 & _ & Hloop & E).
  destruct (OnTime_loop W Hclock req response why st s5 Hloop)
    as (Hm & Ht & Hsum & Hall).
  unfold bufferedResponse in E. cbn [now] in E. injection E as -> _.
  eexists. exists (modelTime st), (toolsTime st).
  split; [reflexivity|].
  cbn [loopTiming tm_modelTime tm_toolsTime tm_duration tm_timeSegments].
  repeat split; try assumption. lia.
Qed.

Lemma timeline_under_monotone_clock_witness :
  exists r s tm mt tt,
    executeRequest Examples.racingWorld Examples.twoToolRequest
    = Some (Response r, s)
    /\ res_timing r = Some tm
    /\ tm_modelTime tm = Some mt
    /\ tm_toolsTime tm = Some tt
    /\ mt + tt <= tm_duration tm
    /\ Forall (withinTotals mt tt) (tm_timeSegments tm).
Proof.
  destruct (executeRequest_total Examples.racingWorld Examples.twoToolRequest)
    as ([out s] & Hrun).
  assert (Hout : exists r, out = Response r)
    by (revert Hrun; vm_compute; intros [= <- <-]; eexists; reflexivity).
  destruct Hout as (r & ->).
  assert (Hclock : monotoneClock Examples.racingWorld)
    by (intros m n Hmn; unfold Examples.racingWorld, Examples.world;
        cbn [Date_now]; lia).
  destruct (timeline_under_monotone_clock Examples.racingWorld _ _ _ Hclock Hrun)
    as (tm & mt & tt & Htm & Hmt & Htt & _ & _ & Hsum & Hall).
  exists r, s, tm, mt, tt. repeat split; assumption.
Defined.

(* ===================================================================== *)
(** ** What a result reports of the responses *)
(* ===================================================================== *)

Section Content.

Context {float : Type}.
Variable W : World float.

Lemma responsesFrom_snoc (c : ClientConfig) (l : list (Payload float))
  (p : Payload float) (r : Completion) :
  forall i,
    chat_create W c (i + length l) p = inl r ->
    responsesFrom W c i (l ++ [p]) = responsesFrom W c i l ++ [r].
Proof.
  induction l as [|q l IH]; intros i H; cbn [responsesFrom app length] in *.
  - rewrite Nat.add_0_r in H. now rewrite H.
  - rewrite <- Nat.add_succ_comm in H.
    destruct (chat_create W c i q); [cbn [app]; f_equal|]; exact (IH _ H).
Qed.

Lemma lastSpoken_snoc (rs : list Completion) (r : Completion) :
  lastSpoken (rs ++ [r])
  = match spokenText r with
    | Some c => Some c
    | None => lastSpoken rs
    end.
Proof.
  induction rs as [|q rs IH]; cbn [lastSpoken app].
  - destruct (spokenText r); reflexivity.
  - rewrite IH. destruct (spokenText r); reflexivity.
Qed.

Lemma updatedContent_spoken (req : ProviderRequest float) (r : Completion)
  (old : string) :
  updatedContent (requestFrame W req) r old
  = match spokenText r with
    | Some c => reportedContent req (Some c)
    | None => old
    end.
Proof.
  unfold updatedContent, spokenText. cbn [requestFrame request].
  destruct (responseContent r) as [c|]; [|reflexivity].
  destruct (truthy c); reflexivity.
Qed.

Lemma reported_snoc (req : ProviderRequest float) (rs : list Completion)
  (r : Completion) :
  updatedContent (requestFrame W req) r (reportedContent req (lastSpoken rs))
  = reportedContent req (lastSpoken (rs ++ [r])).
Proof.
  rewrite updatedContent_spoken, lastSpoken_snoc.
  destruct (spokenText r); reflexivity.
Qed.

Lemma reported_again (req : ProviderRequest float) (rs : list Completion)
  (r : Completion) :
  updatedContent (requestFrame W req) r
                 (reportedContent req (lastSpoken (rs ++ [r])))
  = reportedContent req (lastSpoken (rs ++ [r])).
Proof.
  rewrite updatedContent_spoken, lastSpoken_snoc.
  destruct (spokenText r); reflexivity.
Qed.

Lemma totalUsage_snoc (rs : list Completion) (r : Completion) :
  totalUsage (rs ++ [r]) = addUsage (totalUsage rs) (usage r).
Proof. unfold totalUsage. now rewrite fold_left_app. Qed.

Lemma loopPass_Exit_content (fr : Frame) (st : LoopState) (s : Sys)
  (why : ExitReason) (st' : LoopState) (s' : Sys) :
  loopPass W fr st s = Exit why st' s' ->
  content st' = content st
  \/ content st' = updatedContent fr (currentResponse st) (content st).
Proof.
  intros H.
  destruct (Nat.ltb_spec (iterationCount st) (MAX_TOOL_ITERATIONS W)) as [Hlt|Hge].
  - destruct (responseToolCalls (currentResponse st)) as [[|tc tcs]|] eqn:E.
    + unfold loopPass in H. apply Nat.ltb_lt in Hlt. rewrite Hlt, E in H.
      injection H as _ <- <-. now right.
    + rewrite (loopPass_calls W fr st s tc tcs Hlt E) in H.
      destruct (chat_create W (litellm fr) (length (sent s)) _); discriminate.
    + unfold loopPass in H. apply Nat.ltb_lt in Hlt. rewrite Hlt, E in H.
      injection H as _ <- <-. now right.
  - rewrite (loopPass_cap W fr st s Hge) in H. injection H as _ <- <-. now left.
Qed.

Lemma Said_start (req : ProviderRequest float) (response : Completion) :
  chat_create W (requestClient W req) 0 (buildPayload W req) = inl response ->
  Said W req (loopStart W req response) (loopSys W req).
Proof.
  intros Hc. exists []. unfold loopSys, loopStart. cbn [sent app length].
  split; [cbn [responsesFrom]; now rewrite Hc|]. split; [reflexivity|].
  unfold initialState.
  cbn [content tokens currentResponse requestFrame request lastSpoken].
  split.
  - unfold orStr, spokenText.
    destruct (responseContent response) as [c|]; [|reflexivity].
    destruct (truthy c) eqn:Ht; [now rewrite Ht|reflexivity].
  - unfold totalUsage, addUsage, zeroTokens. cbn [fold_left].
    destruct (usage response); reflexivity.
Qed.

Lemma Said_loop (req : ProviderRequest float) (response : Completion)
  (why : ExitReason) (st : LoopState) (s : Sys) :
  chat_create W (requestClient W req) 0 (buildPayload W req) = inl response ->
  toolLoop W (S (MAX_TOOL_ITERATIONS W)) (requestFrame W req)
           (loopStart W req response) (loopSys W req)
  = Some (Exit why st s) ->
  Said W req st s.
Proof.
  intros Hc H.
  apply (toolLoop_invariant W (requestFrame W req) (Said W req) (fun _ => True))
    in H.
  - exact H.
  - intros st0 s0 st' s' (earlier & Hrs & Hlen & Hcontent & Htokens) Hp.
    destruct (loopPass_Again_inv W _ st0 s0 st' s' Hp)
      as (tc & tcs & r & _ & _ & Hr & -> & ->).
    exists (earlier ++ [currentResponse st0]).
    unfold stateAfterPass, sysAfterPass. cbn [sent currentResponse content tokens].
    split; [|split; [|split]].
    + rewrite <- Hrs. apply responsesFrom_snoc. exact Hr.
    + rewrite !length_app. cbn [length]. lia.
    + rewrite Hcontent, reported_again. apply reported_snoc.
    + now rewrite totalUsage_snoc, Htokens.
  - intros st0 s0 why0 st' s' (earlier & Hrs & Hlen & Hcontent & Htokens) Hp.
    destruct (loopPass_Exit_rest W _ st0 s0 why0 st' s' Hp) as (Hcr & _).
    destruct (loopPass_Exit_content _ _ _ _ _ _ Hp) as [Hco | Hco];
      destruct (loopPass_Exit_inv W _ st0 s0 why0 st' s' Hp) as (-> & Htk & _);
      exists earlier; rewrite Hcr, Hco, Htk; (split; [exact Hrs|]);
      (split; [exact Hlen|]); (split; [|exact Htokens]).
    + exact Hcontent.
    + rewrite Hcontent. apply reported_again.
  - trivial.
  - now apply Said_start.
Qed.

Lemma executeRequest_Response_first (req : ProviderRequest float)
  (r : ProviderResponse) (s : Sys) :
  executeRequest W req = Some (Response r, s) ->
  exists response why st s5,
    chat_create W (requestClient W req) 0 (buildPayload W req) = inl response
    /\ toolLoop W (S (MAX_TOOL_ITERATIONS W)) (requestFrame W req)
                (loopStart W req response) (loopSys W req)
       = Some (Exit why st s5)
    /\ (Response r, s)
       = bufferedResponse W (requestFrame W req) (Date_now W 0)
                          (Date_now W 2 - Date_now W 1) st s5.
Proof.
  intros H.
  destruct (executeRequest_cases W req _ s H)
    as [(_ & E & _) | [(_ & _ & E) | [(_ & _ & x & _ & E)
       | (_ & _ & response & p & Hc & Hloop & E)]]].
  - discriminate.
  - destruct (streamWithoutTools_inv W req (requestClient W req)
                (buildPayload W req) (Date_now W 0) {| ticks := 1; sent := [] |})
      as (_ & Ho).
    rewrite <- E in Ho. cbn [fst] in Ho.
    destruct Ho as [(x & Hx & _) | (e & x & Hx & _)]; discriminate.
  - destruct (enhanceError_inv W (Date_now W 0) x
                {| ticks := 2; sent := [buildPayload W req] |}) as (e & He & _).
    rewrite He in E. discriminate.
  - destruct p as [why st s5|st s5|x s5]; [|destruct E|].
    + destruct (stream req) eqn:Hs.
      * destruct (streamAfterTools_inv W (requestFrame W req) (Date_now W 0)
                    (Date_now W 2 - Date_now W 1) st s5) as (_ & Ho).
        rewrite <- E in Ho. cbn [fst] in Ho.
        destruct Ho as [(x & Hx & _) | (e & x & Hx & _)]; discriminate.
      * exists response, why, st, s5. repeat split; assumption.
    + destruct (enhanceError_inv W (Date_now W 0) x s5) as (e & He & _).
      rewrite He in E. discriminate.
Qed.

End Content.

(** X24.  The content of a buffered result is the content of the latest
    model response that has a non-empty content (cleaned of code fences
    when the request asks for a response format), and the empty string
    when no response has one: a final response without content leaves
    the content of an earlier response in place.  Every call of such a
    run was answered. *)
Theorem content_is_latest_spoken {float : Type} (W : World float)
  (req : ProviderRequest float) (r : ProviderResponse) (s : Sys) :
  executeRequest W req = Some (Response r, s) ->
  length (responsesFrom W (requestClient W req) 0 (sent s)) = length (sent s)
  /\ res_content r
     = reportedContent req
         (lastSpoken (responsesFrom W (requestClient W req) 0 (sent s))).
Proof.
  intros H.
  destruct (executeRequest_Response_first W req r s H)
    as (response & why & st & s5 & Hc & Hloop & E).
  destruct (Said_loop W req response why st s5 Hc Hloop)
    as (earlier & Hrs & Hlen & Hcontent & _).
  unfold bufferedResponse in E. cbn [now] in E. injection E as -> ->.
  cbn [sent res_content]. rewrite Hrs, Hlen, length_app. cbn [length].
  split; [lia|exact Hcontent].
Qed.

Lemma content_is_latest_spoken_witness :
  exists r s,
    executeRequest Examples.quietWorld Examples.oneToolRequest = Some (Response r, s)
    /\ length (sent s) = 2%nat
    /\ res_content r = "Let me check.".
Proof.
  destruct (executeRequest_total Examples.quietWorld Examples.oneToolRequest)
    as ([out s] & Hrun).
  assert (Hout : exists r, out = Response r /\ length (sent s) = 2%nat
                 /\ lastSpoken (responsesFrom Examples.quietWorld
                       (requestClient Examples.quietWorld Examples.oneToolRequest) 0 (sent s))
                    = Some "Let me check.")
    by (revert Hrun; vm_compute; intros [= <- <-]; eexists; repeat split).
  destruct Hout as (r & -> & Hlen & Hlast).
  destruct (content_is_latest_spoken Examples.quietWorld _ _ _ Hrun) as (_ & Hcontent).
  exists r, s. split; [exact Hrun|]. split; [exact Hlen|].
  rewrite Hcontent, Hlast. reflexivity.
Defined.

(** X25.  The tokens of a buffered result are, field by field, the sums
    of the usage reported by all the responses of the run, a response
    without usage (or without one of the counts) counting as zero. *)
Theorem tokens_sum_over_responses {float : Type} (W : World float)
  (req : ProviderRequest float) (r : ProviderResponse) (s : Sys) :
  executeRequest W req = Some (Response r, s) ->
  res_tokens r = totalUsage (responsesFrom W (requestClient W req) 0 (sent s)).
Proof.
  intros H.
  destruct (executeRequest_Response_first W req r s H)
    as (response & why & st & s5 & Hc & Hloop & E).
  destruct (Said_loop W req response why st s5 Hc Hloop)
    as (earlier & Hrs & _ & _ & Htokens).
  unfold bufferedResponse in E. cbn [now] in E. injection E as -> ->.
  cbn [sent res_tokens]. now rewrite Hrs.
Qed.

Lemma tokens_sum_over_responses_witness :
  exists r s,
    executeRequest Examples.quietWorld Examples.oneToolRequest = Some (Response r, s)
    /\ res_tokens r = {| tok_input := 3; tok_output := 4; tok_total := 7 |}.
Proof.
  destruct (executeRequest_total Examples.quietWorld Examples.oneToolRequest)
    as ([out s] & Hrun).
  assert (Hout : exists r, out = Response r
                 /\ totalUsage (responsesFrom Examples.quietWorld
                       (requestClient Examples.quietWorld Examples.oneToolRequest) 0 (sent s))
                    = {| tok_input := 3; tok_output := 4; tok_total := 7 |})
    by (revert Hrun; vm_compute; intros [= <- <-]; eexists; repeat split).
  destruct Hout as (r & -> & Hsum).
  exists r, s. split; [exact Hrun|].
  rewrite (tokens_sum_over_responses Examples.quietWorld _ _ _ Hrun). exact Hsum.
Defined.

(* ===================================================================== *)
(** ** Forced tools over a run *)
(* ===================================================================== *)

Section Forcing.

Context {float : Type}.
Variable W : World float.

Lemma trackedFrom_snoc (c : ClientConfig) (ft : list string)
  (l : list (Payload float)) (p : Payload float) :
  forall i fs,
    trackedFrom W c ft i (l ++ [p]) fs
    = match chat_create W c (i + length l) p with
      | inl r => checkForForcedToolUsage ft (trackedFrom W c ft i l fs) r
                                         (p_tool_choice p)
      | inr _ => trackedFrom W c ft i l fs
      end.
Proof.
  induction l as [|q l IH]; intros i fs; cbn [trackedFrom app length].
  - rewrite Nat.add_0_r. destruct (chat_create W c i p); reflexivity.
  - rewrite <- Nat.add_succ_comm.
    destruct (chat_create W c i q); apply IH.
Qed.

Lemma split_snoc {A : Type} (l before after : list A) (x q : A) :
  l ++ [x] = before ++ q :: after ->
  (after = [] /\ before = l /\ q = x)
  \/ exists after', after = after' ++ [x] /\ l = before ++ q :: after'.
Proof.
  intros H. destruct after as [|a after _] using rev_ind.
  - left. apply app_inj_tail in H. destruct H as (-> & ->). repeat split.
  - right.
    change (before ++ q :: after ++ [a]) with (before ++ (q :: after) ++ [a]) in H.
    rewrite app_assoc in H. apply app_inj_tail in H. destruct H as (-> & ->).
    exists after. split; reflexivity.
Qed.

Lemma ChoicesFollow_snoc (req : ProviderRequest float)
  (l : list (Payload float)) (p : Payload float) :
  ChoicesFollow W req l ->
  p_tool_choice p = nextToolChoice (requestFrame W req) (trackedAfter W req l) ->
  ChoicesFollow W req (l ++ [p]).
Proof.
  intros Hl Hp before q after E.
  destruct (split_snoc _ _ _ _ _ E) as [(-> & -> & ->) | (after' & -> & ->)].
  - exact Hp.
  - exact (Hl before q after' eq_refl).
Qed.

Lemma nextToolChoice_untracked (req : ProviderRequest float) :
  nextToolChoice (requestFrame W req) untracked
  = p_tool_choice (buildPayload W req).
Proof.
  unfold nextToolChoice, untracked. cbn [fs_hasUsedForcedTool].
  now rewrite Bool.andb_false_r.
Qed.

Lemma Tracked_loop (req : ProviderRequest float) (response : Completion)
  (p : Pass) :
  chat_create W (requestClient W req) 0 (buildPayload W req) = inl response ->
  toolLoop W (S (MAX_TOOL_ITERATIONS W)) (requestFrame W req)
           (loopStart W req response) (loopSys W req) = Some p ->
  match p with
  | Exit _ st s => Tracked W req st s
  | Raised _ s => ChoicesFollow W req (sent s)
  | Again _ _ => False
  end.
Proof.
  intros Hc.
  apply (toolLoop_invariant W (requestFrame W req) (Tracked W req)
           (fun s => ChoicesFollow W req (sent s))).
  - intros st s st' s' (Hf & Hch) H.
    destruct (loopPass_Again_inv W _ st s st' s' H)
      as (tc & tcs & r & _ & _ & Hr & -> & ->).
    unfold Tracked, stateAfterPass, sysAfterPass. cbn [sent forced]. split.
    + unfold trackedAfter in *. rewrite trackedFrom_snoc. cbn [Nat.add].
      change (litellm (requestFrame W req)) with (requestClient W req) in Hr.
      rewrite Hr, <- Hf. reflexivity.
    + apply ChoicesFollow_snoc; [exact Hch|]. rewrite <- Hf. reflexivity.
  - intros st s why st' s' (Hf & Hch) H.
    destruct (loopPass_Exit_inv W _ st s why st' s' H)
      as (-> & _ & _ & _ & _ & _ & Hfo).
    unfold Tracked. rewrite Hfo. split; assumption.
  - intros st s e s' (Hf & Hch) H.
    destruct (loopPass_Raised_inv W _ st s e s' H) as (tc & tcs & _ & _ & _ & ->).
    unfold sysAfterPass. cbn [sent].
    apply ChoicesFollow_snoc; [exact Hch|]. rewrite <- Hf. reflexivity.
  - unfold Tracked, loopStart, loopSys, initialState. cbn [sent forced]. split.
    + unfold trackedAfter. cbn [trackedFrom]. rewrite Hc. reflexivity.
    + intros before q after E.
      destruct before as [|b before]; [|destruct before; discriminate].
      injection E as <- _. symmetry. apply nextToolChoice_untracked.
Qed.

Lemma ChoicesFollow_one (req : ProviderRequest float) (p : Payload float) :
  p_tool_choice p = p_tool_choice (buildPayload W req) ->
  ChoicesFollow W req [p].
Proof.
  intros Hp before q after E.
  destruct before as [|b before]; [|destruct before; discriminate].
  injection E as <- _. rewrite Hp. symmetry. apply nextToolChoice_untracked.
Qed.

(** The calls of a run that do not stream carry the tool choice the
    rotation gives for the responses before them. *)
Lemma run_choices (req : ProviderRequest float) (out : Outcome) (s : Sys) :
  executeRequest W req = Some (out, s) ->
  forall before q after,
    sent s = before ++ q :: after ->
    p_stream q = false \/ after <> [] ->
    p_tool_choice q
    = nextToolChoice (requestFrame W req) (trackedAfter W req before).
Proof.
  intros H.
  destruct (executeRequest_cases W req out s H)
    as [(_ & -> & ->) | [(_ & _ & E) | [(_ & _ & x & _ & E)
       | (_ & Hslow & response & p & Hc & Hloop & E)]]].
  - intros before q after E. destruct before; discriminate.
  - destruct (streamWithoutTools_inv W req (requestClient W req)
                (buildPayload W req) (Date_now W 0) {| ticks := 1; sent := [] |})
      as (Hs & _).
    rewrite <- E in Hs. cbn [snd sent app] in Hs. rewrite Hs.
    intros before q after E' _.
    apply (ChoicesFollow_one req (streamingParams (buildPayload W req)) eq_refl
             before q after E').
  - destruct (enhanceError_inv W (Date_now W 0) x
                {| ticks := 2; sent := [buildPayload W req] |}) as (e & He & _).
    rewrite He in E. injection E as _ ->. cbn [now snd sent].
    intros before q after E' _.
    apply (ChoicesFollow_one req _ eq_refl before q after E').
  - pose proof (Tracked_loop req response p Hc Hloop) as HT.
    destruct p as [why st s5|st s5|x s5]; [|destruct E|].
    + destruct HT as (_ & Hch).
      destruct (stream req) eqn:Hstream.
      * destruct (streamAfterTools_inv W (requestFrame W req) (Date_now W 0)
                    (Date_now W 2 - Date_now W 1) st s5) as (Hs' & _).
        rewrite <- E in Hs'. cbn [snd] in Hs'. rewrite Hs'.
        intros before q after E' Hq.
        destruct (split_snoc _ _ _ _ _ E') as [(-> & -> & ->) | (after' & -> & E'')].
        -- destruct Hq as [Hq | Hq]; [discriminate Hq|now destruct Hq].
        -- exact (Hch before q after' E'').
      * unfold bufferedResponse in E. cbn [now] in E. injection E as _ ->.
        cbn [sent]. intros before q after E' _. exact (Hch before q after E').
    + destruct (enhanceError_inv W (Date_now W 0) x s5) as (e & He & _).
      rewrite He in E. injection E as _ ->. cbn [now snd sent].
      intros before q after E' _. exact (HT before q after E').
Qed.

End Forcing.

(** C5 (as the code has it).  Take two consecutive model calls [p], [q] of
    a run, [q] issued by the tool loop (not the final streaming call).
    Let [p] carry a forced directive naming tool [t] and let the response
    to [p] carry a call of [t].  When the prepared tool set names at
    least one forced tool, [q] carries a tool choice that forces the
    first forced tool not yet used ([t] now counting as used), or
    automatic choice when no forced tool remains.  When the prepared tool
    set names no forced tool, [q] repeats the directive of [p]. *)
Theorem forced_tool_rotation {float : Type} (W : World float)
  (req : ProviderRequest float) (out : Outcome) (s : Sys)
  (before after : list (Payload float)) (p q : Payload float) (r : Completion)
  (directive : ToolChoice) (t : string) (calls : list ToolCall) :
  executeRequest W req = Some (out, s) ->
  sent s = before ++ p :: q :: after ->
  p_stream q = false ->
  chat_create W (requestClient W req) (length before) p = inl r ->
  p_tool_choice p = Some directive ->
  directiveTool directive = Some t ->
  responseToolCalls r = Some calls ->
  In t (map tc_name calls) ->
  (forcedToolsOf W req <> [] ->
   p_tool_choice q
   = Some (rotation (forcedToolsOf W req)
                    (fs_usedForcedTools (trackedAfter W req before) ++ [t])))
  /\ (forcedToolsOf W req = [] -> p_tool_choice q = Some directive).
Proof.
  intros Hrun Hs Hq Hr Hp Hdir Hcalls Hin.
  assert (Hmore : q :: after <> []) by discriminate.
  pose proof (run_choices W req out s Hrun before p (q :: after) Hs
                (or_intror Hmore)) as Hcp.
  assert (Hs' : sent s = (before ++ [p]) ++ q :: after)
    by (rewrite Hs, <- app_assoc; reflexivity).
  pose proof (run_choices W req out s Hrun (before ++ [p]) q after Hs'
                (or_introl Hq)) as Hcq.
  assert (Hobj : isObjectChoice (originalToolChoice (requestFrame W req)) = true).
  { apply (nextToolChoice_object (requestFrame W req)
             (trackedAfter W req before) eq_refl).
    rewrite <- Hcp, Hp. destruct directive; [discriminate|reflexivity]. }
  assert (Ht : trackedAfter W req (before ++ [p])
               = {| fs_usedForcedTools :=
                      fs_usedForcedTools (trackedAfter W req before) ++ [t];
                    fs_hasUsedForcedTool := true |}).
  { unfold trackedAfter. rewrite trackedFrom_snoc. cbn [Nat.add]. rewrite Hr.
    unfold checkForForcedToolUsage. rewrite Hp, Hcalls.
    destruct directive as [str|ty fn nm]; [discriminate|].
    unfold trackForcedToolUsage. rewrite Hdir.
    apply includes_In in Hin. now rewrite Hin. }
  split.
  - intros Hne. rewrite Hcq, Ht. unfold nextToolChoice, rotation.
    rewrite Hobj. cbn [fs_hasUsedForcedTool fs_usedForcedTools andb].
    cbn [requestFrame forcedTools].
    destruct (forcedToolsOf W req) as [|f fs]; [now destruct Hne|].
    cbn [length Nat.ltb Nat.leb].
    destruct (filter _ (f :: fs)); reflexivity.
  - intros Hnil. rewrite Hcq, <- Hp, Hcp. unfold nextToolChoice.
    cbn [requestFrame forcedTools]. rewrite Hnil. cbn [length Nat.ltb Nat.leb].
    now rewrite !Bool.andb_false_r.
Qed.

Lemma forced_tool_rotation_witness :
  exists out s p0 p q,
    executeRequest Examples.obedientWorld Examples.forcedRequest = Some (out, s)
    /\ sent s = [p0; p; q]
    /\ p_tool_choice p = Some (forceFunction "b")
    /\ p_tool_choice q = Some autoChoice.
Proof.
  destruct (executeRequest_total Examples.obedientWorld Examples.forcedRequest)
    as ([out s] & Hrun).
  assert (Hsent : exists p0 p q,
             sent s = [p0] ++ p :: q :: []
             /\ p_stream q = false
             /\ chat_create Examples.obedientWorld
                  (requestClient Examples.obedientWorld Examples.forcedRequest)
                  (length [p0]) p
                = inl (Examples.asks [Examples.call "call_b" "b" "{}"]
                                     (Examples.usageOf 1 1 2))
             /\ p_tool_choice p = Some (forceFunction "b")
             /\ rotation (forcedToolsOf Examples.obedientWorld Examples.forcedRequest)
                  (fs_usedForcedTools
                     (trackedAfter Examples.obedientWorld Examples.forcedRequest [p0])
                   ++ ["b"])
                = autoChoice).
  { revert Hrun. vm_compute. intros [= <- <-].
    eexists. eexists. eexists. repeat split. }
  destruct Hsent as (p0 & p & q & Hs & Hq & Hr & Hp & Hrot).
  destruct (forced_tool_rotation Examples.obedientWorld Examples.forcedRequest
              out s [p0] [] p q _ (forceFunction "b") "b"
              [Examples.call "call_b" "b" "{}"] Hrun Hs Hq Hr Hp eq_refl eq_refl
              (or_introl eq_refl)) as (Hrotate & _).
  exists out, s, p0, p, q. split; [exact Hrun|]. split; [exact Hs|].
  split; [exact Hp|]. rewrite Hrotate, Hrot; [reflexivity|discriminate].
Defined.

(** C5 (as stated) fails.  The prepared tool set resolves a directive
    forcing [a] and names no forced tools; the model calls [a] on its
    first two turns.  No forced tool remains after the first call of [a],
    yet the two calls that follow force [a] again instead of falling back
    to automatic choice. *)
Lemma forced_directive_without_forced_list :
  forcedToolsOf Examples.directiveWorld Examples.oneToolRequest = []
  /\ exists r s,
       executeRequest Examples.directiveWorld Examples.oneToolRequest
       = Some (Response r, s)
       /\ map (@p_tool_choice _) (sent s)
          = [Some (forceFunction "a"); Some (forceFunction "a");
             Some (forceFunction "a")]
       /\ option_map (map rec_name) (res_toolCalls r) = Some ["a"; "a"].
Proof.
  split; [reflexivity|].
  eexists. eexists. split; [vm_compute; reflexivity|]. split; reflexivity.
Qed.
